(** * replace.js: partial page replacement driven by links and forms

    A shallow embedding of [src/replace.js].  The script is a jQuery plugin
    ([$.fn.ajaxReplace]) and four event handlers.  Its state lives in the
    browser: the DOM, the requests in flight and the session history.  We
    model

    - the DOM as a forest of element identities ([Tree]) together with a
      store of element objects ([gmap nat Element]); a jQuery set is a list
      of identities, so that a closure holding [$container] keeps pointing at
      the same elements after the document changed;
    - the handlers in a state-and-exception monad [M] over the [World];
    - everything the script does to its environment that is not a DOM
      change (a request, a notification, a history write, a call of
      [preventDefault]) as an [Effect] appended to a trace;
    - a request as an entry of [pending] that [settle] completes later,
      with a successful response or a failure, running the callbacks
      registered on it.

    Conventions.  Markup (a response body, [outerHTML], the [data] of a
    history entry) is represented by the element forest it denotes, and a
    selector by its syntax tree; the HTML parser and the selector parser of
    the browser and of jQuery are not part of the script, and what they do
    with text they cannot parse is outside this model.  For the same reason
    the two annotations are kept as what the script gets from [.data()]:
    the selector [data('replace')] denotes when it is truthy, and the
    truthiness of [data('pushstate')].  Character data, the URL encoding of
    the serialized fields and listeners of the notifications are not
    modelled.  A handler is a function of the element it is called on:
    which elements jQuery's delegation calls it on, and the replay of
    buffered events at start-up (lines 123-127), are left out. *)

From stdpp Require Import gmap strings list fin_maps.

Set Warnings "-register-all,-clear-no-such-hyp".

Open Scope string_scope.
Open Scope list_scope.

(** ** Selectors *)

Inductive Selector : Type :=
| SelAny                            (* "*" *)
| SelTag (t : string)               (* "form" *)
| SelClass (c : string)             (* ".replace-active" *)
| SelId (i : string)                (* "#main" *)
| SelAnd (s1 s2 : Selector)         (* "div.container" *)
| SelDesc (anc s : Selector).       (* "form button" *)

(** ** Elements *)

Record Element : Type := mkElement {
  el_tag : string;                      (* lower-case node name *)
  el_classes : list string;             (* the tokens of className *)
  el_attrs : list (string * string);    (* what .attr(name) reads *)
  el_replace : option Selector;         (* .data('replace') when truthy *)
  el_pushstate : bool;                  (* truthiness of .data('pushstate') *)
  el_name : string;                     (* .prop('name') *)
  el_value : string;                    (* .val() *)
  el_type : string;                     (* the type property of a control *)
  el_disabled : bool;
  el_checked : bool
}.

(** An element with nothing set: what [document.createElement(tag)] gives. *)
Definition blank (t : string) : Element :=
  mkElement t [] [] None false "" "" "" false false.

Definition set_classes (cs : list string) (e : Element) : Element :=
  mkElement (el_tag e) cs (el_attrs e) (el_replace e) (el_pushstate e)
            (el_name e) (el_value e) (el_type e) (el_disabled e) (el_checked e).

Definition set_name (n : string) (e : Element) : Element :=
  mkElement (el_tag e) (el_classes e) (el_attrs e) (el_replace e)
            (el_pushstate e) n (el_value e) (el_type e) (el_disabled e)
            (el_checked e).

Definition set_value (v : string) (e : Element) : Element :=
  mkElement (el_tag e) (el_classes e) (el_attrs e) (el_replace e)
            (el_pushstate e) (el_name e) v (el_type e) (el_disabled e)
            (el_checked e).

Definition has_class (c : string) (e : Element) : bool :=
  existsb (String.eqb c) (el_classes e).

Definition lookup_attr (a : string) (e : Element) : option string :=
  snd <$> List.find (fun kv => String.eqb (fst kv) a) (el_attrs e).

(** [matches s chain]: does the element at the head of [chain] match [s]?
    The tail of [chain] holds its ancestors, nearest first. *)
Fixpoint matches (s : Selector) (chain : list Element) {struct s} : bool :=
  match chain with
  | [] => false
  | e :: up =>
    match s with
    | SelAny => true
    | SelTag t => String.eqb (el_tag e) t
    | SelClass c => has_class c e
    | SelId i =>
        match lookup_attr "id" e with
        | Some j => String.eqb i j
        | None => false
        end
    | SelAnd s1 s2 => matches s1 chain && matches s2 chain
    | SelDesc anc s' =>
        matches s' chain &&
        (fix above (l : list Element) : bool :=
           match l with
           | [] => false
           | _ :: l' => matches anc l || above l'
           end) up
    end
  end.

(** ** The shape of the DOM *)

Inductive Tree : Type :=
| Node (id : nat) (kids : list Tree).

Definition root (t : Tree) : nat := let 'Node i _ := t in i.
Definition kids_of (t : Tree) : list Tree := let 'Node _ ks := t in ks.

(** Identities of a tree in document order. *)
Fixpoint ids (t : Tree) : list nat :=
  let 'Node i ks := t in i :: flat_map ids ks.

Definition forest_ids (f : list Tree) : list nat := flat_map ids f.

(** The first result of [f] along a list. *)
Definition first_some {A B : Type} (f : A -> option B)
  : list A -> option B :=
  fix go (l : list A) : option B :=
    match l with
    | [] => None
    | x :: l' =>
        match f x with
        | Some y => Some y
        | None => go l'
        end
    end.

(** The path from [i] up to the top of the tree, [i] first. *)
Fixpoint path_in (i : nat) (t : Tree) : option (list nat) :=
  let 'Node j ks := t in
  if Nat.eqb i j then Some [j]
  else (fun p => p ++ [j]) <$> first_some (path_in i) ks.

(** The subtree rooted at [i]. *)
Fixpoint subtree_in (i : nat) (t : Tree) : option Tree :=
  let 'Node j ks := t in
  if Nat.eqb i j then Some t else first_some (subtree_in i) ks.

(** [replace_below i news t] puts the trees [news] in the place of every
    child position below the top of [t] that holds the element [i]; the
    top itself has no parent to be replaced in. *)
Fixpoint replace_below (i : nat) (news : list Tree) (t : Tree) : Tree :=
  let 'Node j ks := t in
  Node j
    (flat_map
       (fun k => if Nat.eqb (root k) i then news else [replace_below i news k])
       ks).

(** The same on the children of the document, whose own positions count. *)
Definition replace_among (i : nat) (news : list Tree) (f : list Tree)
  : list Tree :=
  flat_map
    (fun k => if Nat.eqb (root k) i then news else [replace_below i news k]) f.

(** The subtrees that [replace_below] and [replace_among] take out. *)
Fixpoint removed_below (i : nat) (t : Tree) : list Tree :=
  let 'Node _ ks := t in
  flat_map (fun k => if Nat.eqb (root k) i then [k] else removed_below i k) ks.

Definition removed_among (i : nat) (f : list Tree) : list Tree :=
  flat_map (fun k => if Nat.eqb (root k) i then [k] else removed_below i k) f.

(** [append_below i news t] adds [news] after the last child of [i]. *)
Fixpoint append_below (i : nat) (news : list Tree) (t : Tree) : Tree :=
  let 'Node j ks := t in
  Node j (map (append_below i news) ks ++ (if Nat.eqb j i then news else [])).

(** ** Markup, history states, effects *)

(** Markup as the element forest it denotes. *)
Inductive Fragment : Type :=
| Frag (e : Element) (kids : list Fragment).

Definition Markup : Type := list Fragment.

(** The state object the script hands to the history API:
    [{ selector: ..., data: ... }]. *)
Record HistState : Type := mkHistState {
  hs_selector : option Selector;
  hs_data : Markup
}.

Inductive Effect : Type :=
| PreventDefault                               (* event.preventDefault() *)
| Trigger (event : string) (target : nat)      (* one element of .trigger(event) *)
| Ajax (url : option string) (type : option string)
       (data : option (list (string * string)))    (* $.ajax(url, {type, data}) *)
| ReplaceState (st : HistState)                (* history.replaceState(st, null) *)
| PushState (st : HistState) (url : option string).
                                               (* history.pushState(st, null, url) *)

(** The closures of the script that outlive the handler that made them.
    [options.success] is either absent or the function of lines 83-94,
    which captures [$link]. *)
Inductive Callback : Type :=
| PushStateCallback (link : nat).

(** A request in flight: what the callbacks registered on it captured. *)
Record Pending : Type := mkPending {
  p_container : list nat;
  p_success : option Callback
}.

Record World : Type := mkWorld {
  doc : list Tree;                 (* the children of the document node *)
  detached : list Tree;            (* subtrees taken out of the document *)
  elems : gmap nat Element;        (* the element objects *)
  history_supported : bool;        (* window.history && history.pushState *)
  pending : list Pending;          (* requests in flight *)
  trace : list Effect              (* effects so far, oldest first *)
}.

Definition shape (w : World) : list Tree := doc w ++ detached w.

Definition el (w : World) (i : nat) : Element :=
  default (blank "") (elems w !! i).

Definition with_elems (m : gmap nat Element) (w : World) : World :=
  mkWorld (doc w) (detached w) m (history_supported w) (pending w) (trace w).

Definition with_shape (d dt : list Tree) (w : World) : World :=
  mkWorld d dt (elems w) (history_supported w) (pending w) (trace w).

Definition with_pending (ps : list Pending) (w : World) : World :=
  mkWorld (doc w) (detached w) (elems w) (history_supported w) ps (trace w).

Definition with_trace (tr : list Effect) (w : World) : World :=
  mkWorld (doc w) (detached w) (elems w) (history_supported w) (pending w) tr.

(** ** The monad of handlers: state and exceptions *)

Inductive JsError : Type :=
| TypeError.

Inductive Completion (A : Type) : Type :=
| Normal (a : A)
| Throw (e : JsError).

Arguments Normal {A} a.
Arguments Throw {A} e.

Definition M (A : Type) : Type := World -> Completion A * World.

#[global] Instance M_ret : MRet M := fun A a w => (Normal a, w).

#[global] Instance M_bind : MBind M := fun A B f m w =>
  match m w with
  | (Normal a, w') => f a w'
  | (Throw e, w') => (Throw e, w')
  end.

Definition reads {A : Type} (f : World -> A) : M A :=
  fun w => (Normal (f w), w).

Definition modify (f : World -> World) : M unit :=
  fun w => (Normal tt, f w).

Definition throw {A : Type} (e : JsError) : M A :=
  fun w => (Throw e, w).

Definition emit (e : Effect) : M unit :=
  modify (fun w => with_trace (trace w ++ [e]) w).

(** The world a computation leaves, and how it completed. *)
Definition exec {A : Type} (m : M A) (w : World) : World := snd (m w).
Definition completion {A : Type} (m : M A) (w : World) : Completion A :=
  fst (m w).

Definition mapM {A B : Type} (f : A -> M B) : list A -> M (list B) :=
  fix go (l : list A) : M (list B) :=
    match l with
    | [] => mret []
    | x :: l' => y ← f x; ys ← go l'; mret (y :: ys)
    end.

Definition forM_ {A : Type} (f : A -> M unit) : list A -> M unit :=
  fix go (l : list A) : M unit :=
    match l with
    | [] => mret tt
    | x :: l' => f x;; go l'
    end.

(** ** The parts of jQuery and of the browser the script calls *)

Module JQ.

(** The identities in use. *)
Definition used (w : World) : gset nat :=
  dom (elems w) ∪ list_to_set (forest_ids (shape w)).

(** A new element object, under an identity no element has yet. *)
Definition new_element (e : Element) : M nat :=
  fun w =>
    let i := fresh (used w) in
    (Normal i, with_elems (<[i := e]> (elems w)) w).

(** [$(markup)]: fresh elements, not in the document. *)
Fixpoint build (f : Fragment) : M Tree :=
  let 'Frag e ks := f in
  i ← new_element e; ts ← mapM build ks; mret (Node i ts).

Definition html (m : Markup) : M (list Tree) := mapM build m.

(** The markup of a subtree, as its elements are now. *)
Fixpoint snapshot (w : World) (t : Tree) : Fragment :=
  let 'Node i ks := t in Frag (el w i) (map (snapshot w) ks).

(** [.clone(true)]: new elements that are copies of the old ones. *)
Definition clone (ts : list Tree) : M (list Tree) :=
  m ← reads (fun w => map (snapshot w) ts); html m.

(** The chain [this, parent, grandparent, ...] that [.closest] walks. *)
Definition path_of (w : World) (i : nat) : list nat :=
  default [i] (first_some (path_in i) (shape w)).

Fixpoint closest_on (w : World) (sel : Selector) (chain : list nat)
  : list nat :=
  match chain with
  | [] => []
  | c :: up =>
      if matches sel (map (el w) chain) then [c] else closest_on w sel up
  end.

(** [$(this).closest(sel)]: the nearest of [this] and its ancestors that
    matches, as a set of at most one element. *)
Definition closest (sel : Selector) (this : nat) : M (list nat) :=
  reads (fun w => closest_on w sel (path_of w this)).

(** [$(sel)]: the elements of the document that match, in document order. *)
Fixpoint select_in (w : World) (sel : Selector) (up : list Element) (t : Tree)
  : list nat :=
  let 'Node i ks := t in
  let chain := el w i :: up in
  (if matches sel chain then [i] else [])
    ++ flat_map (select_in w sel chain) ks.

Definition selected (w : World) (sel : Selector) : list nat :=
  flat_map (select_in w sel []) (doc w).

Definition select (sel : Selector) : M (list nat) :=
  reads (fun w => selected w sel).

Definition add_class (c : string) (e : Element) : Element :=
  if has_class c e then e else set_classes (el_classes e ++ [c]) e.

Definition remove_class (c : string) (e : Element) : Element :=
  set_classes (List.filter (fun d => negb (String.eqb c d)) (el_classes e)) e.

Definition update (f : Element -> Element) (i : nat) : M unit :=
  modify (fun w => with_elems (<[i := f (el w i)]> (elems w)) w).

Definition addClass (c : string) (set : list nat) : M unit :=
  forM_ (update (add_class c)) set.

Definition removeClass (c : string) (set : list nat) : M unit :=
  forM_ (update (remove_class c)) set.

Definition hasClass (w : World) (c : string) (i : nat) : bool :=
  has_class c (el w i).

(** [.trigger(event)]: one notification per element of the set. *)
Definition trigger (event : string) (set : list nat) : M unit :=
  forM_ (fun i => emit (Trigger event i)) set.

Definition attr (a : string) (i : nat) : M (option string) :=
  reads (fun w => lookup_attr a (el w i)).

Definition data_replace (i : nat) : M (option Selector) :=
  reads (fun w => el_replace (el w i)).

Definition data_pushstate (i : nat) : M bool :=
  reads (fun w => el_pushstate (el w i)).

Definition prop_name (i : nat) : M string :=
  reads (fun w => el_name (el w i)).

Definition val (i : nat) : M string :=
  reads (fun w => el_value (el w i)).

Definition set_prop_name (n : string) (set : list Tree) : M unit :=
  forM_ (update (set_name n)) (map root set).

Definition set_val (v : string) (set : list Tree) : M unit :=
  forM_ (update (set_value v)) (map root set).

(** [$(target).replaceWith(news)]: the new trees take the place of the
    target, which leaves with its subtree; without new trees the target is
    just removed; nothing happens to a target without a parent. *)
Definition replaceWith (target : nat) (news : list Tree) : M unit :=
  modify (fun w =>
    with_shape
      (replace_among target news (doc w))
      (map (replace_below target news) (detached w)
         ++ removed_among target (doc w)
         ++ flat_map (removed_below target) (detached w))
      w).

(** [$(news).replaceAll(targets)]: the last target receives the elements
    themselves, the others receive clones; the result is the set of all
    elements handed out. *)
Fixpoint replaceAll (news : list Tree) (targets : list nat) : M (list nat) :=
  match targets with
  | [] => mret []
  | [t] => replaceWith t news;; mret (map root news)
  | t :: rest =>
      c ← clone news;
      replaceWith t c;;
      r ← replaceAll news rest;
      mret (map root c ++ r)
  end.

Definition append (target : nat) (news : list Tree) : M unit :=
  modify (fun w =>
    with_shape (map (append_below target news) (doc w))
               (map (append_below target news) (detached w)) w).

(** [$(news).appendTo(targets)] *)
Fixpoint appendTo (news : list Tree) (targets : list nat) : M (list nat) :=
  match targets with
  | [] => mret []
  | [t] => append t news;; mret (map root news)
  | t :: rest =>
      c ← clone news;
      append t c;;
      r ← appendTo news rest;
      mret (map root c ++ r)
  end.

(** [element.outerHTML] *)
Definition outer_markup (w : World) (i : nat) : Markup :=
  match first_some (subtree_in i) (shape w) with
  | Some t => [snapshot w t]
  | None => [Frag (el w i) []]
  end.

Definition outerHTML (i : nat) : M Markup :=
  reads (fun w => outer_markup w i).

Definition one_of (l : list string) (s : string) : bool :=
  existsb (String.eqb s) l.

(** The filter of [.serializeArray()]: a control is serialized when it has
    a name, is not disabled, is an input, select, textarea or keygen, is
    not a button or a file input, and is checked if it is a checkbox or a
    radio button. *)
Definition successful (e : Element) : bool :=
  negb (String.eqb (el_name e) "")
  && negb (el_disabled e)
  && one_of ["input"; "select"; "textarea"; "keygen"] (el_tag e)
  && negb (one_of ["submit"; "button"; "image"; "reset"; "file"] (el_type e))
  && (el_checked e || negb (one_of ["checkbox"; "radio"] (el_type e))).

Definition field (w : World) (i : nat) : list (string * string) :=
  let e := el w i in
  if successful e then [(el_name e, el_value e)] else [].

(** [form.elements]: the elements inside the form, in document order
    (forms inside forms and the [form] attribute are not modelled). *)
Definition controls (w : World) (form : nat) : list nat :=
  match first_some (subtree_in form) (shape w) with
  | Some t => forest_ids (kids_of t)
  | None => []
  end.

(** [.serializeArray()]: the names and values of the successful controls
    of a form, in document order.  [.serialize()] is the URL encoding of
    this list. *)
Definition fields_of (w : World) (form : nat) : list (string * string) :=
  flat_map (field w) (controls w form).

Definition serialize (form : nat) : M (list (string * string)) :=
  reads (fun w => fields_of w form).

(** [$.ajax(url, { type, data })] with the callbacks [p] registered on it. *)
Definition ajax (url type : option string)
  (data : option (list (string * string))) (p : Pending) : M unit :=
  emit (Ajax url type data);;
  modify (fun w => with_pending (pending w ++ [p]) w).

Definition preventDefault : M unit := emit PreventDefault.

Definition replaceState (st : HistState) : M unit := emit (ReplaceState st).

Definition pushState (st : HistState) (url : option string) : M unit :=
  emit (PushState st url).

End JQ.

(** ** The script *)

Import JQ.

Record Options : Type := mkOptions {
  selector : option Selector;
  method : option string;
  data : option (list (string * string));
  success : option Callback
}.

Inductive Response : Type :=
| Success (body : Markup)
| Failure.

Record Event : Type := mkEvent {
  shiftKey : bool;
  metaKey : bool
}.

Definition active : string := "replace-active".

(** Lines 83-94: [success: function($container, data) { ... }]. *)
Definition run_callback (cb : Callback) (container : list nat) (body : Markup)
  : M unit :=
  let 'PushStateCallback link := cb in
  ps ← data_pushstate link;
  if ps : bool then
    sel ← data_replace link;
    c0 ← match container with
         | c :: _ => mret c
         | [] => throw TypeError      (* $container[0] is undefined *)
         end;
    outer ← outerHTML c0;
    replaceState (mkHistState sel outer);;
    sel' ← data_replace link;
    href ← attr "href" link;
    pushState (mkHistState sel' body) href
  else mret tt.

(** Lines 41-43: [.always(function() { ... })]. *)
Definition on_always (container : list nat) : M unit :=
  removeClass active container;;
  trigger "replace:always" container.

(** Lines 45-47: [if (options.success) { options.success($container, data); }] *)
Definition call_success (succ : option Callback) (container : list nat)
  (body : Markup) : M unit :=
  match succ with
  | Some cb => run_callback cb container body
  | None => mret tt
  end.

(** Lines 44-49: [.done(function(data) { ... })]. *)
Definition on_done (container : list nat) (succ : option Callback)
  (body : Markup) : M unit :=
  call_success succ container body;;
  new ← html body;
  inserted ← replaceAll new container;
  trigger "replace:done" inserted.

(** Lines 50-52: [.fail(function() { ... })]. *)
Definition on_fail (container : list nat) : M unit :=
  trigger "replace:fail" container.

(** The callbacks of one request, in the order jQuery runs them: [always]
    was registered first, so it comes before [done] or [fail]. *)
Definition complete (p : Pending) (r : Response) : M unit :=
  on_always (p_container p);;
  match r with
  | Success body => on_done (p_container p) (p_success p) body
  | Failure => on_fail (p_container p)
  end.

(** The [n]-th request in flight settles with [r]. *)
Definition settle (n : nat) (r : Response) : M unit :=
  p ← reads (fun w => pending w !! n);
  match p with
  | Some p =>
      modify (fun w => with_pending (delete n (pending w)) w);;
      complete p r
  | None => mret tt
  end.

(** Lines 32-53: [$.fn.ajaxReplace = function(url, options) { ... }], on
    the one-element set both callers build with [$(this)]. *)
Definition ajaxReplace (this : nat) (url : option string) (options : Options)
  : M unit :=
  busy ← closest (SelClass active) this;
  match busy with
  | _ :: _ => mret tt
  | [] =>
      container ← closest (default SelAny (selector options)) this;
      addClass active container;;
      trigger "replace:start" container;;
      ajax url (method options) (data options)
           (mkPending container (success options))
  end.

(** Lines 55-62: the [popstate] handler; [state] is
    [event.originalEvent.state]. *)
Definition on_popstate (state : option HistState) : M unit :=
  match state with
  | Some st =>
      match hs_selector st with
      | Some sel =>
          new ← html (hs_data st);
          targets ← select sel;
          inserted ← replaceAll new targets;
          trigger "replace:always" inserted;;
          trigger "replace:done" inserted
      | None => mret tt
      end
  | None => mret tt
  end.

(** Lines 64-96: the click handler of [a[data-replace]]. *)
Definition on_click_link (link : nat) (event : Event) : M unit :=
  ps ← data_pushstate link;
  supported ← reads history_supported;
  if ps && negb supported then mret tt
  else if ps && (shiftKey event || metaKey event) then mret tt
  else
    preventDefault;;
    href ← attr "href" link;
    sel ← data_replace link;
    ajaxReplace link href
      (mkOptions sel None None (Some (PushStateCallback link))).

(** Lines 98-107: the submit handler of [form[data-replace]]. *)
Definition on_submit_form (form : nat) : M unit :=
  preventDefault;;
  action ← attr "action" form;
  sel ← data_replace form;
  meth ← attr "method" form;
  fields ← serialize form;
  ajaxReplace form action (mkOptions sel meth (Some fields) None).

(** Lines 115-121: the click handler of [form[data-replace] button]. *)
Definition hidden_input : Element :=
  mkElement "input" [] [("type", "hidden")] None false "" "" "hidden"
            false false.

Definition on_click_button (button : nat) : M unit :=
  input ← html [Frag hidden_input []];
  n ← prop_name button;
  set_prop_name n input;;
  v ← val button;
  set_val v input;;
  form ← closest (SelTag "form") button;
  appendTo input form;;
  mret tt.

(** * Notions used in the statements *)

(** A position in a forest: the siblings to the left and to the right of
    it and, going up, of each of its ancestors. *)
Inductive Position : Type :=
| Here (left right : list Tree)
| Below (left : list Tree) (parent : nat) (inner : Position)
        (right : list Tree).

(** The forest with the trees [ts] at the position. *)
Fixpoint fill (pos : Position) (ts : list Tree) : list Tree :=
  match pos with
  | Here a b => a ++ ts ++ b
  | Below a j inner b => a ++ Node j (fill inner ts) :: b
  end.

(** The store after [f] was applied to the elements of a set, one by one. *)
Definition upd (f : Element -> Element) (m : gmap nat Element) (i : nat)
  : gmap nat Element :=
  <[i := f (default (blank "") (m !! i))]> m.

(** [grows w w']: [w'] is [w] with more element objects and nothing else
    changed. *)
Definition grows (w w' : World) : Prop :=
  doc w' = doc w /\ detached w' = detached w
  /\ history_supported w' = history_supported w
  /\ pending w' = pending w /\ trace w' = trace w
  /\ (forall i, i ∈ used w -> elems w' !! i = elems w !! i).

Definition built (w : World) (ts : list Tree) (m : Markup) (w' : World)
  : Prop :=
  grows w w'
  /\ (forall i, i ∈ forest_ids ts -> (i ∉ used w) /\ i ∈ dom (elems w'))
  /\ NoDup (forest_ids ts)
  /\ map (snapshot w') ts = m.

Definition builds (f : Fragment) : Prop :=
  forall w, exists t w', build f w = (Normal t, w') /\ built w [t] [f] w'.

(** [frame w w']: no effect happened and no element object changed. *)
Definition frame (w w' : World) : Prop :=
  history_supported w' = history_supported w
  /\ pending w' = pending w /\ trace w' = trace w
  /\ elems w ⊆ elems w'.

(** [this] or one of its ancestors carries the in-progress marker. *)
Definition marked (w : World) (this : nat) : Prop :=
  exists c, c ∈ path_of w this /\ hasClass w active c = true.

(** The container [ajaxReplace] resolves:
    [this.closest(options.selector || '*')]. *)
Definition container_of (w : World) (this : nat) (sel : option Selector)
  : list nat :=
  closest_on w (default SelAny sel) (path_of w this).

(** The world right after [ajaxReplace] started an operation. *)
Definition started (w : World) (container : list nat) (url : option string)
  (options : Options) : World :=
  with_pending (pending w ++ [mkPending container (success options)])
    (with_trace
       (trace w ++ map (Trigger "replace:start") container
          ++ [Ajax url (method options) (data options)])
       (with_elems (foldl (upd (add_class active)) (elems w) container) w)).

(** The two history writes of the success callback of a link. *)
Definition history_writes (w : World) (link c : nat) (body : Markup)
  : list Effect :=
  [ReplaceState (mkHistState (el_replace (el w link)) (outer_markup w c));
   PushState (mkHistState (el_replace (el w link)) body)
             (lookup_attr "href" (el w link))].

Definition is_history_write (e : Effect) : bool :=
  match e with
  | ReplaceState _ | PushState _ _ => true
  | _ => false
  end.

(** The element the handler builds for button [b]. *)
Definition mirror (w : World) (b : nat) : Element :=
  set_value (el_value (el w b)) (set_name (el_name (el w b)) hidden_input).

(** The name and value a named button hands to its hidden input, as the
    serializer sees them; a control without a name is never serialized. *)
Definition button_pair (w : World) (b : nat) : list (string * string) :=
  if String.eqb (el_name (el w b)) "" then []
  else [(el_name (el w b), el_value (el w b))].

(** The events the script reacts to. *)
Inductive Action : Type :=
| Click (link : nat) (event : Event)       (* click on a[data-replace] *)
| Submit (form : nat)                      (* submit of form[data-replace] *)
| Press (button : nat)                     (* click on form[data-replace] button *)
| Pop (state : option HistState)           (* popstate *)
| Settle (n : nat) (r : Response).         (* a request in flight settles *)

(** The handler an event runs. *)
Definition run (a : Action) : M unit :=
  match a with
  | Click link event => on_click_link link event
  | Submit form => on_submit_form form
  | Press button => on_click_button button
  | Pop state => on_popstate state
  | Settle n r => settle n r
  end.

(** The world after a sequence of events.  An exception ends the handler
    that threw it; the next event finds the world as that handler left it. *)
Definition run_all (l : list Action) (w : World) : World :=
  foldl (fun w a => exec (run a) w) w l.

(** The effects an event adds to the trace. *)
Definition effects_of (a : Action) (w : World) : list Effect :=
  drop (length (trace w)) (trace (exec (run a) w)).

Definition is_request (e : Effect) : bool :=
  match e with
  | Ajax _ _ _ => true
  | _ => false
  end.

(** The containers of the requests in flight. *)
Definition in_flight (w : World) : list nat :=
  flat_map p_container (pending w).

(** Every container of a request in flight carries the marker, and no
    element is the container of two requests in flight. *)
Definition guarded (w : World) : Prop :=
  NoDup (in_flight w)
  /\ forall c, c ∈ in_flight w -> hasClass w active c = true.

(** The identities around a position. *)
Definition around (pos : Position) : list nat := forest_ids (fill pos []).

(** The forest after each of [targets] was replaced, in order, by its
    group of new trees. *)
Definition replaced_each (f : list Tree) (targets : list nat)
  (gs : list (list Tree)) : list Tree :=
  foldl (fun d tg => replace_among (fst tg) (snd tg) d) f (zip targets gs).

(** What the success callback adds to the trace when it is called with
    [container] and [body]. *)
Definition callback_effects (w : World) (succ : option Callback)
  (container : list nat) (body : Markup) : list Effect :=
  match succ with
  | Some (PushStateCallback link) =>
      match container with
      | c :: _ =>
          if el_pushstate (el w link) then history_writes w link c body
          else []
      | [] => []
      end
  | None => []
  end.

Definition is_notification (e : Effect) : bool :=
  match e with
  | Trigger _ _ => true
  | _ => false
  end.

(** * Example pages *)

(** ** An example page

    [<html><div class="container">
       <a href="/foo" data-replace=".container" data-pushstate="true"></a>
       <form action="/bar" method="POST" data-replace=".container">
         <input name="q" value="hi"><button name="go" value="1"></button>
       </form></div></html>] *)

Module Page.

Definition container : Element :=
  mkElement "div" ["container"] [] None false "" "" "" false false.

Definition link : Element :=
  mkElement "a" [] [("href", "/foo")] (Some (SelClass "container")) true
            "" "" "" false false.

Definition form : Element :=
  mkElement "form" [] [("action", "/bar"); ("method", "POST")]
            (Some (SelClass "container")) false "" "" "" false false.

Definition box : Element :=
  mkElement "input" [] [] None false "q" "hi" "text" false false.

Definition button : Element :=
  mkElement "button" [] [] None false "go" "1" "submit" false false.

Definition tree : list Tree :=
  [Node 1 [Node 2 [Node 3 []; Node 4 [Node 5 []; Node 6 []]]]].

Definition idle : World :=
  mkWorld tree []
    (list_to_map [(1, blank "html"); (2, container); (3, link); (4, form);
                  (5, box); (6, button)])
    true [] [].

(** The same page while an operation on the container is in progress. *)
Definition busy : World :=
  with_elems (<[2 := add_class active container]> (elems idle)) idle.

Definition click : Event := mkEvent false false.
Definition shift_click : Event := mkEvent true false.

Definition fresh_div : Markup :=
  [Frag container [Frag (blank "b") []]].

End Page.

(** The example page with a link whose selector names no ancestor:
    [<a href="/foo" data-replace=".missing" data-pushstate="true">]. *)

Module Stray.

Definition link : Element :=
  mkElement "a" [] [("href", "/foo")] (Some (SelClass "missing")) true
            "" "" "" false false.

Definition page : World :=
  with_elems (<[3 := link]> (elems Page.idle)) Page.idle.

End Stray.

(** The example page with a second button, which has a value and no name:
    [<button value="2"></button>]. *)

Module Nameless.

Definition button : Element :=
  mkElement "button" [] [] None false "" "2" "button" false false.

Definition page : World :=
  mkWorld
    [Node 1 [Node 2 [Node 3 [];
                     Node 4 [Node 5 []; Node 6 []; Node 7 []]]]]
    []
    (<[7 := button]> (elems Page.idle))
    true [] [].

End Nameless.

(** A page with two containers:
    [<html><div class="container"><p></p></div>
           <div class="container"><p></p></div></html>]. *)
Module Twin.

Definition page : World :=
  mkWorld [Node 1 [Node 2 [Node 3 []]; Node 4 [Node 5 []]]] []
    (list_to_map [(1, blank "html"); (2, Page.container); (3, blank "p");
                  (4, Page.container); (5, blank "p")])
    true [] [].

End Twin.

(** The example page with a submit control that is an input, not a
    button: [<input type="submit" name="go" value="1">] in the place of
    the button. *)
Module SubmitInput.

Definition control : Element :=
  mkElement "input" [] [] None false "go" "1" "submit" false false.

Definition page : World :=
  with_elems (<[6 := control]> (elems Page.idle)) Page.idle.

End SubmitInput.

(** The example page with the push-state annotation written as the
    documentation writes it, as an attribute without a value:
    [<a href="/foo" data-replace=".container" data-pushstate>].  jQuery's
    [.data('pushstate')] reads the attribute as the empty string, which is
    falsy. *)
Module Bare.

Definition link : Element :=
  mkElement "a" [] [("href", "/foo"); ("data-pushstate", "")]
            (Some (SelClass "container")) false "" "" "" false false.

Definition page : World :=
  with_elems (<[3 := link]> (elems Page.idle)) Page.idle.

(** The same page in a browser without the history API. *)
Definition old_browser : World :=
  mkWorld (doc page) (detached page) (elems page) false [] [].

End Bare.

(** The example page with a link that has no selector and does not ask
    for push-state: [<a href="/foo" data-replace>]. *)
Module Plain.

Definition link : Element :=
  mkElement "a" [] [("href", "/foo")] None false "" "" "" false false.

Definition page : World :=
  with_elems (<[3 := link]> (elems Page.idle)) Page.idle.

(** The same link asking for push-state:
    [<a href="/foo" data-replace data-pushstate="true">]. *)
Definition pushing : World :=
  with_elems
    (<[3 := mkElement "a" [] [("href", "/foo")] None true "" "" "" false
                      false]> (elems Page.idle))
    Page.idle.

End Plain.

(** * Lemmas *)

(** ** Running the primitives *)

Lemma world_eta (w : World) :
  mkWorld (doc w) (detached w) (elems w) (history_supported w) (pending w)
          (trace w) = w.
Proof. by destruct w. Qed.

Lemma with_trace_same (w : World) : with_trace (trace w) w = w.
Proof. apply world_eta. Qed.

Lemma with_elems_same (w : World) : with_elems (elems w) w = w.
Proof. apply world_eta. Qed.

Lemma run_bind {A B : Type} (m : M A) (f : A -> M B) (w : World) :
  (m ≫= f) w =
  match m w with
  | (Normal a, w') => f a w'
  | (Throw e, w') => (Throw e, w')
  end.
Proof. reflexivity. Qed.

Lemma run_trigger (ev : string) (set : list nat) (w : World) :
  trigger ev set w
  = (Normal tt, with_trace (trace w ++ map (Trigger ev) set) w).
Proof.
  revert w. induction set as [|i set IH]; intros w.
  - cbn. by rewrite app_nil_r, with_trace_same.
  - unfold trigger in *. cbn [forM_]. rewrite run_bind. cbn [emit modify].
    rewrite IH. cbn. by rewrite <- app_assoc.
Qed.

Lemma run_update_all (f : Element -> Element) (set : list nat) (w : World) :
  forM_ (update f) set w
  = (Normal tt, with_elems (foldl (upd f) (elems w) set) w).
Proof.
  revert w. induction set as [|i set IH]; intros w.
  - cbn. by rewrite with_elems_same.
  - cbn [forM_]. rewrite run_bind. cbn [update modify]. rewrite IH.
    reflexivity.
Qed.

Lemma upd_all_other (f : Element -> Element) (set : list nat)
  (m : gmap nat Element) (i : nat) :
  i ∉ set -> foldl (upd f) m set !! i = m !! i.
Proof.
  revert m. induction set as [|j set IH]; intros m Hi; [done|].
  cbn. rewrite IH by set_solver. unfold upd.
  apply lookup_insert_ne. set_solver.
Qed.

Lemma upd_all_member (f : Element -> Element) (set : list nat)
  (m : gmap nat Element) (i : nat) :
  (forall e, f (f e) = f e) ->
  i ∈ set ->
  foldl (upd f) m set !! i = Some (f (default (blank "") (m !! i))).
Proof.
  intros Hf. revert m. induction set as [|j set IH]; intros m Hi.
  - by apply elem_of_nil in Hi.
  - cbn. destruct (decide (i ∈ set)) as [Hin|Hout].
    + rewrite IH by done. unfold upd.
      destruct (decide (j = i)) as [->|Hne].
      * rewrite lookup_insert_eq. cbn. by rewrite Hf.
      * by rewrite lookup_insert_ne.
    + rewrite upd_all_other by done.
      assert (i = j) as Heq by set_solver. subst j.
      unfold upd. by rewrite lookup_insert_eq.
Qed.

Lemma add_class_idem (c : string) (e : Element) :
  add_class c (add_class c e) = add_class c e.
Proof.
  unfold add_class. destruct (has_class c e) eqn:H.
  - by rewrite H.
  - assert (has_class c (set_classes (el_classes e ++ [c]) e) = true) as ->;
      [|done].
    unfold has_class. cbn. rewrite existsb_app. cbn.
    rewrite String.eqb_refl. by rewrite orb_true_r.
Qed.

Lemma has_class_add (c : string) (e : Element) :
  has_class c (add_class c e) = true.
Proof.
  unfold add_class. destruct (has_class c e) eqn:H; [done|].
  unfold has_class. cbn. rewrite existsb_app. cbn.
  rewrite String.eqb_refl. by rewrite orb_true_r.
Qed.

Lemma has_class_remove (c : string) (e : Element) :
  has_class c (remove_class c e) = false.
Proof.
  unfold has_class, remove_class. cbn.
  induction (el_classes e) as [|d l IH]; [done|].
  cbn. destruct (String.eqb c d) eqn:H; cbn; [done|]. by rewrite H.
Qed.

Lemma remove_class_idem (c : string) (e : Element) :
  remove_class c (remove_class c e) = remove_class c e.
Proof.
  unfold remove_class, set_classes. cbn. f_equal.
  induction (el_classes e) as [|d l IH]; [done|].
  cbn. destruct (String.eqb c d) eqn:H; cbn; [done|].
  rewrite H. cbn. by rewrite IH.
Qed.

(** Clearing a marker that is not there changes nothing. *)
Lemma remove_class_absent (c : string) (e : Element) :
  has_class c e = false -> remove_class c e = e.
Proof.
  unfold has_class, remove_class, set_classes. intros H.
  destruct e as [t cs a r p n v ty d ch]. cbn in *. f_equal.
  induction cs as [|d' l IH]; [done|].
  cbn in *. apply orb_false_elim in H as [H1 H2]. rewrite H1. cbn.
  by rewrite IH.
Qed.

(** ** Induction on trees and fragments *)

Lemma tree_ind (P : Tree -> Prop) :
  (forall i ks, Forall P ks -> P (Node i ks)) -> forall t, P t.
Proof.
  intros H. fix IH 1. intros [i ks]. apply H.
  induction ks as [|k ks IHks]; constructor; [apply IH | apply IHks].
Qed.

Lemma fragment_ind (P : Fragment -> Prop) :
  (forall e ks, Forall P ks -> P (Frag e ks)) -> forall f, P f.
Proof.
  intros H. fix IH 1. intros [e ks]. apply H.
  induction ks as [|k ks IHks]; constructor; [apply IH | apply IHks].
Qed.

(** ** Allocation: [$(markup)] and [.clone()] *)

Lemma grows_refl (w : World) : grows w w.
Proof. by repeat split. Qed.

Lemma grows_sub (w w' : World) : grows w w' -> elems w ⊆ elems w'.
Proof.
  intros (_&_&_&_&_&He). apply map_subseteq_spec. intros i e Hi.
  rewrite He; [done|]. unfold used. apply elem_of_union. left.
  apply elem_of_dom. eauto.
Qed.

Lemma grows_used (w w' : World) : grows w w' -> used w ⊆ used w'.
Proof.
  intros Hg. pose proof (grows_sub _ _ Hg) as He.
  destruct Hg as (Hd&Hdt&_). unfold used, shape. rewrite Hd, Hdt.
  apply subseteq_dom in He. set_solver.
Qed.

Lemma grows_trans (w1 w2 w3 : World) :
  grows w1 w2 -> grows w2 w3 -> grows w1 w3.
Proof.
  intros H12 H23. pose proof (grows_used _ _ H12) as Hu.
  destruct H12 as (?&?&?&?&?&He1), H23 as (?&?&?&?&?&He2).
  repeat split; try congruence.
  intros i Hi. rewrite He2 by set_solver. by apply He1.
Qed.

Lemma grows_el_used (w w' : World) (i : nat) :
  grows w w' -> i ∈ used w -> el w' i = el w i.
Proof. intros (_&_&_&_&_&He) Hi. unfold el. by rewrite He. Qed.

Lemma grows_el (w w' : World) (i : nat) :
  grows w w' -> i ∈ dom (elems w) -> el w' i = el w i.
Proof.
  intros Hg Hi. apply grows_el_used; [done|]. unfold used. set_solver.
Qed.

Lemma new_element_spec (e : Element) (w : World) :
  exists i w',
    new_element e w = (Normal i, w') /\ grows w w'
    /\ (i ∉ used w) /\ elems w' !! i = Some e.
Proof.
  eexists _, _. split; [reflexivity|].
  pose proof (is_fresh (used w)) as Hf.
  split; [|split; [done|]]; cbn.
  - repeat split. intros j Hj. cbn. apply lookup_insert_ne.
    intros <-. done.
  - apply lookup_insert_eq.
Qed.

Lemma snapshot_grows (w w' : World) (t : Tree) :
  grows w w' ->
  (forall i, i ∈ ids t -> i ∈ dom (elems w)) ->
  snapshot w' t = snapshot w t.
Proof.
  intros Hg. induction t as [i ks IH] using tree_ind. intros Hin.
  cbn. f_equal.
  - apply grows_el; [done|]. apply Hin. cbn. left.
  - apply map_ext_Forall. rewrite Forall_forall in IH |- *.
    intros k Hk. apply IH; [done|]. intros j Hj. apply Hin. cbn.
    right. unfold forest_ids. apply list_elem_of_In, in_flat_map.
    exists k. split; by apply list_elem_of_In.
Qed.

Lemma mapM_cons {A B : Type} (f : A -> M B) (x : A) (l : list A) (w : World) :
  mapM f (x :: l) w =
  match f x w with
  | (Normal y, w1) =>
      match mapM f l w1 with
      | (Normal ys, w2) => (Normal (y :: ys), w2)
      | (Throw e, w2) => (Throw e, w2)
      end
  | (Throw e, w1) => (Throw e, w1)
  end.
Proof. reflexivity. Qed.

Lemma build_eq (e : Element) (ks : list Fragment) (w : World) :
  build (Frag e ks) w =
  match new_element e w with
  | (Normal i, w1) =>
      match mapM build ks w1 with
      | (Normal ts, w2) => (Normal (Node i ts), w2)
      | (Throw e, w2) => (Throw e, w2)
      end
  | (Throw e, w1) => (Throw e, w1)
  end.
Proof. reflexivity. Qed.

Lemma mapM_build_spec (ks : list Fragment) :
  Forall builds ks ->
  forall w, exists ts w', mapM build ks w = (Normal ts, w') /\ built w ts ks w'.
Proof.
  induction 1 as [|k ks Hk _ IHks]; intros w.
  - exists [], w. split; [done|]. split; [apply grows_refl|].
    split; [intros i Hi; by apply elem_of_nil in Hi|].
    split; [constructor | done].
  - destruct (Hk w) as (t & wa & Ht & Hga & Hia & Hnda & Hsa).
    destruct (IHks wa) as (ts & wb & Hts & Hgb & Hib & Hndb & Hsb).
    exists (t :: ts), wb. split.
    { by rewrite mapM_cons, Ht, Hts. }
    unfold forest_ids in *. cbn [flat_map] in *. rewrite app_nil_r in *.
    split; [by eapply grows_trans|]. split; [|split].
    + intros j [Hj|Hj]%elem_of_app.
      * destruct (Hia j Hj) as [? ?]. split; [done|].
        pose proof (grows_sub _ _ Hgb) as He. apply subseteq_dom in He.
        set_solver.
      * destruct (Hib j Hj) as [Hn ?]. split; [|done].
        intros Hu. apply Hn. by apply (grows_used _ _ Hga).
    + apply NoDup_app. split; [done|]. split; [|done].
      intros j Hj Hj'. destruct (Hib j Hj') as [Hn _]. apply Hn.
      unfold used. destruct (Hia j Hj) as [_ ?]. set_solver.
    + cbn [map]. f_equal; [|done].
      injection Hsa as Hsa. rewrite <- Hsa.
      apply snapshot_grows; [done|]. intros j Hj. by apply Hia.
Qed.

Lemma build_spec (f : Fragment) : builds f.
Proof.
  induction f as [e ks IH] using fragment_ind. intros w.
  destruct (new_element_spec e w) as (i & w1 & Hnew & Hg1 & Hfresh & Hi).
  destruct (mapM_build_spec ks IH w1) as (ts & w2 & Hrun & Hb).
  destruct Hb as (Hg2 & Hin & Hnd & Hsnap).
  exists (Node i ts), w2. split.
  { by rewrite build_eq, Hnew, Hrun. }
  assert (i ∈ dom (elems w1)) as Hi1 by (apply elem_of_dom; eauto).
  unfold built, forest_ids. cbn [flat_map ids]. rewrite app_nil_r.
  fold (forest_ids ts).
  split; [by eapply grows_trans|]. split; [|split].
  - intros j [->|Hj]%elem_of_cons.
    + split; [done|]. pose proof (grows_sub _ _ Hg2) as He.
      apply subseteq_dom in He. set_solver.
    + destruct (Hin j Hj) as [Hn ?]. split; [|done].
      intros Hu. apply Hn. by apply (grows_used _ _ Hg1).
  - apply NoDup_cons. split; [|done]. intros Hj.
    destruct (Hin i Hj) as [Hn _]. apply Hn. unfold used. set_solver.
  - cbn. f_equal. f_equal; [|done]. rewrite (grows_el w1 w2) by done.
    unfold el. by rewrite Hi.
Qed.

Lemma html_spec (m : Markup) (w : World) :
  exists ts w', html m w = (Normal ts, w') /\ built w ts m w'.
Proof.
  apply mapM_build_spec. apply Forall_forall. intros f _. apply build_spec.
Qed.

(** ** Replacing in the shape *)

Lemma elem_of_forest_ids (x : nat) (f : list Tree) :
  x ∈ forest_ids f <-> exists k, k ∈ f /\ x ∈ ids k.
Proof.
  unfold forest_ids. rewrite list_elem_of_In, in_flat_map.
  setoid_rewrite list_elem_of_In. done.
Qed.

Lemma forest_ids_app (f g : list Tree) :
  forest_ids (f ++ g) = forest_ids f ++ forest_ids g.
Proof. apply flat_map_app. Qed.

Lemma forest_ids_cons (k : Tree) (f : list Tree) :
  forest_ids (k :: f) = ids k ++ forest_ids f.
Proof. reflexivity. Qed.

Lemma ids_node (i : nat) (ks : list Tree) :
  ids (Node i ks) = i :: forest_ids ks.
Proof. reflexivity. Qed.

Lemma root_in_ids (k : Tree) : root k ∈ ids k.
Proof. destruct k. cbn. left. Qed.

Lemma replace_below_node (i : nat) (news : list Tree) (j : nat)
  (ks : list Tree) :
  replace_below i news (Node j ks) = Node j (replace_among i news ks).
Proof. reflexivity. Qed.

Lemma removed_below_node (i j : nat) (ks : list Tree) :
  removed_below i (Node j ks) = removed_among i ks.
Proof. reflexivity. Qed.

Lemma replace_among_cons (i : nat) (news : list Tree) (k : Tree)
  (f : list Tree) :
  replace_among i news (k :: f) =
  (if Nat.eqb (root k) i then news else [replace_below i news k])
    ++ replace_among i news f.
Proof. reflexivity. Qed.

Lemma removed_among_cons (i : nat) (k : Tree) (f : list Tree) :
  removed_among i (k :: f) =
  (if Nat.eqb (root k) i then [k] else removed_below i k)
    ++ removed_among i f.
Proof. reflexivity. Qed.

(** The replaced element is gone from where it was replaced. *)
Lemma replace_among_gone (i : nat) (news f : list Tree) :
  i ∉ forest_ids news -> i ∉ forest_ids (replace_among i news f).
Proof.
  intros Hnews.
  assert (forall k, root k ≠ i -> i ∉ ids (replace_below i news k)) as Hk.
  { induction k as [j ks IH] using tree_ind. intros Hj. cbn in Hj.
    rewrite replace_below_node, ids_node. apply not_elem_of_cons.
    split; [done|]. induction IH as [|k ks Hk _ IHks]; [by apply not_elem_of_nil|].
    rewrite replace_among_cons, forest_ids_app. apply not_elem_of_app.
    split; [|done]. destruct (Nat.eqb_spec (root k) i) as [|Hne]; [done|].
    rewrite forest_ids_cons. cbn. rewrite app_nil_r. by apply Hk. }
  induction f as [|k f IH]; [by apply not_elem_of_nil|].
  rewrite replace_among_cons, forest_ids_app. apply not_elem_of_app.
  split; [|done]. destruct (Nat.eqb_spec (root k) i) as [|Hne]; [done|].
  rewrite forest_ids_cons. cbn. rewrite app_nil_r. by apply Hk.
Qed.

(** Replacing brings in nothing but the new elements. *)
Lemma replace_among_ids (i x : nat) (news f : list Tree) :
  x ∈ forest_ids (replace_among i news f) ->
  x ∈ forest_ids f \/ x ∈ forest_ids news.
Proof.
  assert (forall k, x ∈ ids (replace_below i news k) ->
                    x ∈ ids k \/ x ∈ forest_ids news) as Hk.
  { induction k as [j ks IH] using tree_ind.
    rewrite replace_below_node, !ids_node. intros [->|Hx]%elem_of_cons.
    { left. left. }
    cut (x ∈ forest_ids ks \/ x ∈ forest_ids news).
    { intros [?|?]; [left; by right | by right]. }
    induction IH as [|k ks Hk _ IHks]; [by apply elem_of_nil in Hx|].
    rewrite replace_among_cons, forest_ids_app in Hx.
    rewrite forest_ids_cons. apply elem_of_app in Hx as [Hx|Hx].
    - destruct (Nat.eqb_spec (root k) i) as [|Hne]; [by right|].
      rewrite forest_ids_cons in Hx. cbn in Hx. rewrite app_nil_r in Hx.
      destruct (Hk Hx); [left|by right]. apply elem_of_app. by left.
    - destruct (IHks Hx); [left|by right]. apply elem_of_app. by right. }
  induction f as [|k f IH]; [intros Hx; by apply elem_of_nil in Hx|].
  rewrite replace_among_cons, forest_ids_app, forest_ids_cons.
  intros [Hx|Hx]%elem_of_app.
  - destruct (Nat.eqb_spec (root k) i) as [|Hne]; [by right|].
    rewrite forest_ids_cons in Hx. cbn in Hx. rewrite app_nil_r in Hx.
    destruct (Hk _ Hx); [left|by right]. apply elem_of_app. by left.
  - destruct (IH Hx); [left|by right]. apply elem_of_app. by right.
Qed.

(** What was in the shape is still in it or among what was taken out. *)
Lemma replace_keeps (i x : nat) (news : list Tree) :
  (forall k, x ∈ ids k ->
             x ∈ ids (replace_below i news k)
             \/ x ∈ forest_ids (removed_below i k))
  /\ (forall f, x ∈ forest_ids f ->
                x ∈ forest_ids (replace_among i news f)
                \/ x ∈ forest_ids (removed_among i f)).
Proof.
  assert (forall f,
    Forall (fun k => x ∈ ids k ->
                     x ∈ ids (replace_below i news k)
                     \/ x ∈ forest_ids (removed_below i k)) f ->
    x ∈ forest_ids f ->
    x ∈ forest_ids (replace_among i news f)
    \/ x ∈ forest_ids (removed_among i f)) as Hforest.
  { induction 1 as [|k ks Hk _ IHks]; [intros Hx; by apply elem_of_nil in Hx|].
    rewrite replace_among_cons, removed_among_cons, !forest_ids_app.
    rewrite forest_ids_cons. intros [Hx|Hx]%elem_of_app.
    - destruct (Nat.eqb_spec (root k) i) as [|Hne].
      + right. apply elem_of_app. left. rewrite forest_ids_cons.
        apply elem_of_app. by left.
      + destruct (Hk Hx) as [H|H]; [left|right]; apply elem_of_app; left;
          [|done]. rewrite forest_ids_cons. apply elem_of_app. by left.
    - destruct (IHks Hx) as [H|H]; [left|right]; apply elem_of_app; by right. }
  assert (forall k, x ∈ ids k ->
                    x ∈ ids (replace_below i news k)
                    \/ x ∈ forest_ids (removed_below i k)) as Htree.
  { induction k as [j ks IH] using tree_ind.
    rewrite replace_below_node, removed_below_node, !ids_node.
    intros [->|Hx]%elem_of_cons; [left; left|].
    destruct (Hforest ks IH Hx); [left; by right | by right]. }
  split; [done|]. intros f. apply Hforest, Forall_forall. auto.
Qed.

(** ** Running [replaceAll] *)

Lemma frame_refl (w : World) : frame w w.
Proof. by repeat split. Qed.

Lemma frame_trans (w1 w2 w3 : World) :
  frame w1 w2 -> frame w2 w3 -> frame w1 w3.
Proof.
  intros (?&?&?&?) (?&?&?&?). repeat split; try congruence. by etrans.
Qed.

Lemma grows_frame (w w' : World) : grows w w' -> frame w w'.
Proof.
  intros Hg. pose proof (grows_sub _ _ Hg). destruct Hg as (?&?&?&?&?&?).
  by repeat split.
Qed.

Lemma replaceWith_run (t : nat) (news : list Tree) (w : World) :
  replaceWith t news w =
  (Normal tt,
   with_shape
     (replace_among t news (doc w))
     (map (replace_below t news) (detached w)
        ++ removed_among t (doc w)
        ++ flat_map (removed_below t) (detached w))
     w).
Proof. reflexivity. Qed.

Lemma replaceWith_used (t : nat) (news : list Tree) (w : World) :
  used w ⊆ used (exec (replaceWith t news) w).
Proof.
  unfold exec. rewrite replaceWith_run. cbn [snd].
  unfold used, shape. cbn [elems doc detached with_shape].
  intros x [Hx|Hx]%elem_of_union; [set_solver|].
  apply elem_of_union. right.
  rewrite elem_of_list_to_set in Hx |- *.
  rewrite !forest_ids_app in *.
  destruct (replace_keeps t x news) as [Htree Hforest].
  apply elem_of_app in Hx as [Hx|Hx].
  - destruct (Hforest _ Hx) as [H|H]; set_solver.
  - apply elem_of_forest_ids in Hx as (k & Hk & Hx).
    destruct (Htree _ Hx) as [H|H].
    + apply elem_of_app. right. apply elem_of_app. left.
      apply elem_of_forest_ids. exists (replace_below t news k).
      split; [|done]. apply list_elem_of_fmap. by exists k.
    + apply elem_of_app. right. apply elem_of_app. right.
      apply elem_of_app. right.
      apply elem_of_forest_ids in H as (r & Hr & Hxr).
      apply elem_of_forest_ids. exists r. split; [|done].
      apply list_elem_of_In, in_flat_map. exists k.
      split; by apply list_elem_of_In.
Qed.

Lemma clone_spec (ts : list Tree) (w : World) :
  exists cs w',
    clone ts w = (Normal cs, w') /\ built w cs (map (snapshot w) ts) w'.
Proof.
  destruct (html_spec (map (snapshot w) ts) w) as (cs & w' & Hrun & Hb).
  exists cs, w'. split; [|done]. unfold clone. rewrite run_bind. cbn [reads].
  done.
Qed.

Lemma replaceAll_cons2 (news : list Tree) (t t' : nat) (rest : list nat)
  (w : World) :
  replaceAll news (t :: t' :: rest) w =
  match clone news w with
  | (Normal c, w1) =>
      match replaceAll news (t' :: rest) (exec (replaceWith t c) w1) with
      | (Normal r, w2) => (Normal (map root c ++ r), w2)
      | (Throw e, w2) => (Throw e, w2)
      end
  | (Throw e, w1) => (Throw e, w1)
  end.
Proof. reflexivity. Qed.

Lemma replaceAll_one (news : list Tree) (t : nat) (w : World) :
  replaceAll news [t] w
  = (Normal (map root news), exec (replaceWith t news) w).
Proof. reflexivity. Qed.

(** [replaceAll] never throws, causes no effect and changes no element
    object. *)
Lemma replaceAll_frame (news : list Tree) (targets : list nat) (w : World) :
  exists ins w',
    replaceAll news targets w = (Normal ins, w') /\ frame w w'.
Proof.
  revert w. induction targets as [|t rest IH]; intros w.
  - exists [], w. split; [done | apply frame_refl].
  - destruct rest as [|t' rest].
    + eexists _, _. split; [apply replaceAll_one|]. by repeat split.
    + destruct (clone_spec news w) as (c & w1 & Hc & Hg & _).
      destruct (IH (exec (replaceWith t c) w1)) as (r & w2 & Hr & Hf).
      eexists _, w2. split; [by rewrite replaceAll_cons2, Hc, Hr|].
      eapply frame_trans; [|exact Hf].
      eapply frame_trans; [apply grows_frame, Hg|]. by repeat split.
Qed.

(** ** The guard of [ajaxReplace] *)

Lemma closest_on_class (w : World) (c : string) (chain : list nat) :
  closest_on w (SelClass c) chain ≠ []
  <-> exists i, i ∈ chain /\ hasClass w c i = true.
Proof.
  induction chain as [|i up IH].
  - split; [done|]. intros (i & Hi & _). by apply elem_of_nil in Hi.
  - cbn. fold (hasClass w c i). destruct (hasClass w c i) eqn:Hc.
    + split; [|done]. intros _. exists i. split; [left|done].
    + rewrite IH. split.
      * intros (j & Hj & Hjc). exists j. split; [by right|done].
      * intros (j & [->|Hj]%elem_of_cons & Hjc); [congruence|]. by exists j.
Qed.

Lemma marked_closest (w : World) (this : nat) :
  marked w this <-> closest_on w (SelClass active) (path_of w this) ≠ [].
Proof. unfold marked. by rewrite closest_on_class. Qed.

Lemma ajaxReplace_marked (this : nat) (url : option string)
  (options : Options) (w : World) :
  marked w this -> ajaxReplace this url options w = (Normal tt, w).
Proof.
  rewrite marked_closest. intros H. unfold ajaxReplace.
  rewrite run_bind. cbn [closest reads].
  by destruct (closest_on w (SelClass active) (path_of w this)).
Qed.

Lemma ajaxReplace_unmarked (this : nat) (url : option string)
  (options : Options) (w : World) :
  ¬ marked w this ->
  ajaxReplace this url options w
  = (Normal tt,
     started w (container_of w this (selector options)) url options).
Proof.
  rewrite marked_closest. intros H. unfold ajaxReplace.
  rewrite run_bind. cbn [closest reads].
  destruct (closest_on w (SelClass active) (path_of w this)); [|by destruct H].
  rewrite run_bind. cbn [closest reads]. rewrite run_bind.
  unfold addClass. rewrite run_update_all. rewrite run_bind, run_trigger.
  unfold ajax. rewrite run_bind. cbn. unfold started, container_of.
  by rewrite <- app_assoc.
Qed.

(** ** The callbacks of a request *)

(** Unfold the monad and the primitives that only read or emit. *)
Ltac run_m :=
  cbv [mbind mret M_bind M_ret reads modify emit throw
       data_replace data_pushstate attr prop_name val outerHTML
       replaceState pushState preventDefault serialize];
  cbn [with_trace with_elems with_pending with_shape
       doc detached elems history_supported pending trace fst snd].

Lemma run_callback_off (link : nat) (container : list nat) (body : Markup)
  (w : World) :
  el_pushstate (el w link) = false ->
  run_callback (PushStateCallback link) container body w = (Normal tt, w).
Proof.
  intros H. unfold run_callback. rewrite run_bind.
  cbn [data_pushstate reads]. by rewrite H.
Qed.

Lemma run_callback_empty (link : nat) (body : Markup) (w : World) :
  el_pushstate (el w link) = true ->
  run_callback (PushStateCallback link) [] body w = (Throw TypeError, w).
Proof.
  intros H. unfold run_callback. rewrite run_bind.
  cbn [data_pushstate reads]. by rewrite H.
Qed.

Lemma run_callback_on (link c : nat) (rest : list nat) (body : Markup)
  (w : World) :
  el_pushstate (el w link) = true ->
  run_callback (PushStateCallback link) (c :: rest) body w
  = (Normal tt, with_trace (trace w ++ history_writes w link c body) w).
Proof.
  intros H. unfold run_callback. rewrite run_bind.
  cbn [data_pushstate reads]. rewrite H. run_m.
  unfold history_writes. by rewrite <- app_assoc.
Qed.

(** Whatever the callback does, it leaves the DOM alone. *)
Lemma run_callback_dom (cb : Callback) (container : list nat) (body : Markup)
  (w : World) :
  let w' := exec (run_callback cb container body) w in
  doc w' = doc w /\ detached w' = detached w /\ elems w' = elems w
  /\ pending w' = pending w /\ history_supported w' = history_supported w.
Proof.
  destruct cb as [link]. unfold exec.
  destruct (el_pushstate (el w link)) eqn:H.
  - destruct container as [|c rest].
    + by rewrite run_callback_empty.
    + by rewrite run_callback_on.
  - by rewrite run_callback_off.
Qed.

Lemma on_always_run (container : list nat) (w : World) :
  on_always container w
  = (Normal tt,
     with_trace (trace w ++ map (Trigger "replace:always") container)
       (with_elems (foldl (upd (remove_class active)) (elems w) container)
          w)).
Proof.
  unfold on_always. rewrite run_bind. unfold removeClass.
  rewrite run_update_all. by rewrite run_trigger.
Qed.

Lemma on_fail_run (container : list nat) (w : World) :
  on_fail container w
  = (Normal tt,
     with_trace (trace w ++ map (Trigger "replace:fail") container) w).
Proof. apply run_trigger. Qed.

(** The [done] callback changes no element object that exists. *)
Lemma on_done_elems (container : list nat) (succ : option Callback)
  (body : Markup) (w : World) :
  elems w ⊆ elems (exec (on_done container succ body) w).
Proof.
  unfold exec, on_done. rewrite run_bind.
  assert (elems (snd (call_success succ container body w)) = elems w) as Hcb.
  { destruct succ as [cb|]; [|done].
    apply (run_callback_dom cb container body w). }
  destruct (call_success succ container body w) as [[[]|e] w1];
    cbn [snd] in Hcb; [|cbn; by rewrite Hcb].
  rewrite run_bind.
  destruct (html_spec body w1) as (news & w2 & Hh & Hg & _).
  rewrite Hh. rewrite run_bind.
  destruct (replaceAll_frame news container w2) as (ins & w3 & Hr & Hf).
  rewrite Hr, run_trigger. cbn. rewrite <- Hcb.
  pose proof (grows_sub _ _ Hg). destruct Hf as (_&_&_&?). by etrans.
Qed.

Lemma settle_run (n : nat) (r : Response) (p : Pending) (w : World) :
  pending w !! n = Some p ->
  settle n r w = complete p r (with_pending (delete n (pending w)) w).
Proof.
  intros H. unfold settle. rewrite run_bind. cbn [reads]. by rewrite H.
Qed.

Lemma complete_failure_run (p : Pending) (w : World) :
  complete p Failure w
  = (Normal tt,
     with_trace
       (trace w ++ map (Trigger "replace:always") (p_container p)
          ++ map (Trigger "replace:fail") (p_container p))
       (with_elems
          (foldl (upd (remove_class active)) (elems w) (p_container p)) w)).
Proof.
  unfold complete. rewrite run_bind, on_always_run, on_fail_run. cbn.
  by rewrite <- app_assoc.
Qed.

Lemma complete_unmarks (p : Pending) (r : Response) (w : World) (c : nat) :
  c ∈ p_container p -> hasClass (exec (complete p r) w) active c = false.
Proof.
  intros Hc. unfold exec, complete. rewrite run_bind, on_always_run.
  set (w1 := with_trace _ _).
  assert (elems w1 !! c
          = Some (remove_class active (default (blank "") (elems w !! c))))
    as H1.
  { subst w1. cbn. apply upd_all_member; [|done].
    intros e. apply remove_class_idem. }
  assert (forall w2, elems w1 ⊆ elems w2 -> hasClass w2 active c = false)
    as Hkeep.
  { intros w2 Hsub. unfold hasClass, el.
    rewrite (lookup_weaken _ _ _ _ H1 Hsub). cbn [default].
    apply has_class_remove. }
  destruct r as [body|].
  - apply Hkeep. apply on_done_elems.
  - rewrite on_fail_run. apply Hkeep. done.
Qed.

(** The handlers, up to their call of [ajaxReplace]. *)
Lemma on_click_link_run (link : nat) (event : Event) (w : World) :
  el_pushstate (el w link)
    && (negb (history_supported w) || shiftKey event || metaKey event)
  = false ->
  on_click_link link event w
  = ajaxReplace link (lookup_attr "href" (el w link))
      (mkOptions (el_replace (el w link)) None None
                 (Some (PushStateCallback link)))
      (with_trace (trace w ++ [PreventDefault]) w).
Proof.
  intros Hgate. unfold on_click_link. run_m.
  destruct (el_pushstate (el w link)), (history_supported w),
    (shiftKey event), (metaKey event); try discriminate Hgate; reflexivity.
Qed.

Lemma on_submit_form_run (form : nat) (w : World) :
  on_submit_form form w
  = ajaxReplace form (lookup_attr "action" (el w form))
      (mkOptions (el_replace (el w form)) (lookup_attr "method" (el w form))
                 (Some (fields_of w form)) None)
      (with_trace (trace w ++ [PreventDefault]) w).
Proof. reflexivity. Qed.

(** ** Where the new elements go *)

Lemma replace_among_app (i : nat) (news a b : list Tree) :
  replace_among i news (a ++ b)
  = replace_among i news a ++ replace_among i news b.
Proof. apply flat_map_app. Qed.

(** Replacing an element that is not there changes nothing. *)
Lemma replace_absent (i : nat) (news : list Tree) :
  (forall k, i ∉ ids k -> replace_below i news k = k)
  /\ (forall f, i ∉ forest_ids f -> replace_among i news f = f).
Proof.
  assert (forall f,
    Forall (fun k => i ∉ ids k -> replace_below i news k = k) f ->
    i ∉ forest_ids f -> replace_among i news f = f) as Hforest.
  { induction 1 as [|k ks Hk _ IHks]; [done|].
    rewrite forest_ids_cons, replace_among_cons.
    intros [Hik Hiks]%not_elem_of_app.
    destruct (Nat.eqb_spec (root k) i) as [<-|Hne].
    - destruct Hik. apply root_in_ids.
    - rewrite Hk, IHks by done. done. }
  assert (forall k, i ∉ ids k -> replace_below i news k = k) as Htree.
  { induction k as [j ks IH] using tree_ind.
    rewrite ids_node, replace_below_node.
    intros [_ Hi]%not_elem_of_cons. by rewrite Hforest. }
  split; [done|]. intros f. apply Hforest, Forall_forall. auto.
Qed.

(** In a document without duplicates, the new trees take the place of the
    replaced one among its siblings. *)
Lemma replace_among_here (i : nat) (news a b : list Tree) (k : Tree) :
  NoDup (forest_ids (a ++ k :: b)) ->
  root k = i ->
  replace_among i news (a ++ k :: b) = a ++ news ++ b.
Proof.
  intros Hnd <-. rewrite forest_ids_app, forest_ids_cons in Hnd.
  apply NoDup_app in Hnd as (_ & Ha & Hnd).
  apply NoDup_app in Hnd as (_ & Hb & _).
  destruct (replace_absent (root k) news) as [_ Habs].
  rewrite replace_among_app, replace_among_cons, Nat.eqb_refl.
  rewrite !Habs; [done| |].
  - apply Hb, root_in_ids.
  - intros Hin. apply (Ha _ Hin). apply elem_of_app. left. apply root_in_ids.
Qed.

Lemma root_in_fill (pos : Position) (k : Tree) :
  root k ∈ forest_ids (fill pos [k]).
Proof.
  induction pos as [a b|a j inner IH b]; cbn [fill].
  - rewrite !forest_ids_app. apply elem_of_app. right.
    apply elem_of_app. left. cbn. rewrite app_nil_r. apply root_in_ids.
  - rewrite forest_ids_app, forest_ids_cons, ids_node. apply elem_of_app.
    right. apply elem_of_app. left. by right.
Qed.

(** In a document without duplicates, replacing the element at a position
    puts the new trees at that position and changes nothing else. *)
Lemma replace_among_fill (i : nat) (news : list Tree) (pos : Position)
  (k : Tree) :
  NoDup (forest_ids (fill pos [k])) ->
  root k = i ->
  replace_among i news (fill pos [k]) = fill pos news.
Proof.
  intros Hnd <-. induction pos as [a b|a j inner IH b]; cbn [fill] in *.
  - by apply replace_among_here.
  - pose proof (root_in_fill inner k) as Hin.
    rewrite forest_ids_app, forest_ids_cons, ids_node in Hnd.
    apply NoDup_app in Hnd as (_ & Ha & Hnd).
    apply NoDup_app in Hnd as ([Hj Hinner]%NoDup_cons & Hb & _).
    destruct (replace_absent (root k) news) as [_ Habs].
    rewrite replace_among_app, replace_among_cons, replace_below_node.
    cbn [root]. destruct (Nat.eqb_spec j (root k)) as [->|_]; [done|].
    rewrite IH by done. rewrite !Habs; [done| |].
    + apply Hb. by right.
    + intros Hk. apply (Ha _ Hk), elem_of_app. left. by right.
Qed.

(** If the replaced element was there, the new elements are there now. *)
Lemma replace_among_inserts (i x : nat) (news f : list Tree) :
  i ∈ forest_ids f ->
  x ∈ forest_ids news ->
  x ∈ forest_ids (replace_among i news f).
Proof.
  intros Hi Hx. revert Hi.
  assert (forall f,
    Forall (fun k => root k ≠ i -> i ∈ ids k ->
                     x ∈ ids (replace_below i news k)) f ->
    i ∈ forest_ids f -> x ∈ forest_ids (replace_among i news f)) as Hforest.
  { induction 1 as [|k ks Hk _ IHks]; [intros Hi; by apply elem_of_nil in Hi|].
    rewrite forest_ids_cons, replace_among_cons, forest_ids_app.
    intros [Hi|Hi]%elem_of_app.
    - apply elem_of_app. left.
      destruct (Nat.eqb_spec (root k) i) as [|Hne]; [done|].
      rewrite forest_ids_cons. apply elem_of_app. left. by apply Hk.
    - apply elem_of_app. right. by apply IHks. }
  assert (forall k, root k ≠ i -> i ∈ ids k ->
                    x ∈ ids (replace_below i news k)) as Htree.
  { induction k as [j ks IH] using tree_ind.
    rewrite ids_node, replace_below_node, ids_node. cbn [root].
    intros Hj [->|Hi]%elem_of_cons; [done|].
    right. by apply Hforest. }
  apply Hforest, Forall_forall. auto.
Qed.

(** ** The success path *)

Lemma complete_success_run (p : Pending) (body : Markup) (w w2 : World) :
  call_success (p_success p) (p_container p) body
               (exec (on_always (p_container p)) w) = (Normal tt, w2) ->
  exists news w3 ins w4,
    html body w2 = (Normal news, w3) /\ built w2 news body w3
    /\ replaceAll news (p_container p) w3 = (Normal ins, w4)
    /\ frame w3 w4
    /\ complete p (Success body) w
       = (Normal tt,
          with_trace (trace w2 ++ map (Trigger "replace:done") ins) w4).
Proof.
  intros Hcb.
  destruct (html_spec body w2) as (news & w3 & Hh & Hb).
  destruct (replaceAll_frame news (p_container p) w3)
    as (ins & w4 & Hr & Hf).
  exists news, w3, ins, w4. repeat (split; [done|]).
  unfold complete. rewrite run_bind.
  unfold exec in Hcb. destruct (on_always (p_container p) w) as [[[]|e] w1] eqn:Ha;
    [|by rewrite on_always_run in Ha].
  cbn [snd] in Hcb. unfold on_done. rewrite run_bind, Hcb, run_bind, Hh.
  rewrite run_bind, Hr, run_trigger.
  destruct Hb as ((_&_&_&_&Ht3&_)&_), Hf as (_&_&Ht4&_).
  by rewrite Ht4, Ht3.
Qed.

Lemma no_history_write_in_triggers (ev : string) (set : list nat) :
  List.filter is_history_write (map (Trigger ev) set) = [].
Proof. induction set; [done|]. cbn. done. Qed.

Lemma snapshot_ext (w w' : World) (t : Tree) :
  elems w = elems w' -> snapshot w t = snapshot w' t.
Proof.
  intros He. induction t as [i ks IH] using tree_ind. cbn. f_equal.
  - unfold el. by rewrite He.
  - by apply map_ext_Forall.
Qed.

Lemma outer_markup_ext (w w' : World) (i : nat) :
  doc w = doc w' -> detached w = detached w' -> elems w = elems w' ->
  outer_markup w i = outer_markup w' i.
Proof.
  intros Hd Hdt He. unfold outer_markup, shape, el.
  rewrite Hd, Hdt, He.
  destruct (first_some (subtree_in i) (doc w' ++ detached w')); [|done].
  f_equal. by apply snapshot_ext.
Qed.

(** Clearing the marker changes the class list of an element and nothing
    else about it. *)
Lemma el_unmarked (w : World) (set : list nat) (i : nat) :
  let e' := el (exec (removeClass active set) w) i in
  el_replace e' = el_replace (el w i)
  /\ el_pushstate e' = el_pushstate (el w i)
  /\ el_attrs e' = el_attrs (el w i)
  /\ el_name e' = el_name (el w i)
  /\ el_value e' = el_value (el w i).
Proof.
  unfold exec, removeClass. rewrite run_update_all. cbn [snd].
  unfold el. cbn [elems with_elems].
  destruct (decide (i ∈ set)) as [Hin|Hout].
  - rewrite upd_all_member; [|apply remove_class_idem|done]. done.
  - rewrite upd_all_other by done. done.
Qed.

(** ** Replacing several targets *)

Lemma replaceAll_removes (targets : list nat) (news : list Tree) (w : World) :
  (forall t, t ∈ targets -> t ∈ used w /\ (t ∉ forest_ids news)) ->
  exists ins w',
    replaceAll news targets w = (Normal ins, w')
    /\ frame w w' /\ used w ⊆ used w'
    /\ (forall t, t ∈ targets -> t ∉ forest_ids (doc w'))
    /\ (forall x, x ∈ forest_ids (doc w') ->
          x ∈ forest_ids (doc w) \/ (x ∉ used w) \/ x ∈ forest_ids news).
Proof.
  revert w. induction targets as [|t rest IH]; intros w Ht.
  - exists [], w. split; [done|]. split; [apply frame_refl|].
    split; [done|]. split; [intros t Hin; by apply elem_of_nil in Hin|].
    intros x Hx. by left.
  - destruct rest as [|t' rest].
    + exists (map root news), (exec (replaceWith t news) w).
      split; [apply replaceAll_one|]. split; [by repeat split|].
      split; [apply replaceWith_used|].
      unfold exec. rewrite replaceWith_run. cbn [snd doc with_shape]. split.
      * intros t0 ->%list_elem_of_singleton. apply replace_among_gone.
        apply Ht. left.
      * intros x [Hx|Hx]%replace_among_ids; [by left | by right; right].
    + destruct (clone_spec news w) as (c & w1 & Hc & Hg & Hfresh & _).
      set (w2 := exec (replaceWith t c) w1).
      assert (used w ⊆ used w2) as Hu.
      { etrans; [apply (grows_used _ _ Hg)|]. apply replaceWith_used. }
      destruct (IH w2) as (r & w' & Hr & Hf & Hu' & Hgone & Hids).
      { intros t0 Ht0. split; [|apply Ht; by right].
        apply Hu, Ht. by right. }
      exists (map root c ++ r), w'.
      split; [by rewrite replaceAll_cons2, Hc; fold w2; rewrite Hr|].
      assert (doc w2 = replace_among t c (doc w)) as Hd2.
      { subst w2. unfold exec. rewrite replaceWith_run. cbn.
        by destruct Hg as (-> & _). }
      assert (t ∉ forest_ids c) as Htc.
      { intros Hin. destruct (Hfresh t Hin) as [Hn _]. apply Hn, Ht. left. }
      split.
      { eapply frame_trans; [|exact Hf].
        eapply frame_trans; [apply grows_frame, Hg|]. by repeat split. }
      split; [by etrans|]. split.
      * intros t0 [->|Ht0]%elem_of_cons; [|by apply Hgone].
        intros Hin. destruct (Hids _ Hin) as [H|[H|H]].
        -- rewrite Hd2 in H. by apply (replace_among_gone t c (doc w)).
        -- apply H, Hu, Ht. left.
        -- by apply (Ht t); [left|].
      * intros x Hx. destruct (Hids _ Hx) as [H|[H|H]].
        -- rewrite Hd2 in H. apply replace_among_ids in H as [H|H];
             [by left|]. right. left. by apply Hfresh.
        -- right. left. intros Hin. by apply H, Hu.
        -- by right; right.
Qed.

(** ** Selecting in the document *)

Lemma select_in_ext (w w' : World) (sel : Selector) (t : Tree) :
  (forall i, i ∈ ids t -> el w' i = el w i) ->
  forall up, select_in w' sel up t = select_in w sel up t.
Proof.
  induction t as [i ks IH] using tree_ind. intros Hel up.
  cbn [select_in]. rewrite Hel by (rewrite ids_node; left). f_equal.
  induction IH as [|k ks Hk _ IHks]; [done|].
  cbn [flat_map]. rewrite Hk, IHks; [done| |].
  - intros j Hj. apply Hel. rewrite ids_node in Hj |- *.
    apply elem_of_cons in Hj as [->|Hj]; [left|right].
    rewrite forest_ids_cons. apply elem_of_app. by right.
  - intros j Hj. apply Hel. rewrite ids_node, forest_ids_cons. right.
    apply elem_of_app. by left.
Qed.

Lemma selected_grows (w w' : World) (sel : Selector) :
  grows w w' -> selected w' sel = selected w sel.
Proof.
  intros Hg. unfold selected. destruct Hg as (Hd & Hrest). rewrite Hd.
  assert (forall i, i ∈ forest_ids (doc w) -> el w' i = el w i) as Hel.
  { intros i Hi. apply grows_el_used; [by split|].
    unfold used, shape. rewrite forest_ids_app. set_solver. }
  revert Hel. generalize (doc w). intros f Hel.
  induction f as [|k f IH]; [done|].
  cbn [flat_map]. rewrite IH.
  - f_equal. apply select_in_ext. intros i Hi. apply Hel.
    rewrite forest_ids_cons. apply elem_of_app. by left.
  - intros i Hi. apply Hel. rewrite forest_ids_cons. apply elem_of_app.
    by right.
Qed.

(** What [$(sel)] finds is in the document. *)
Lemma selected_in_doc (w : World) (sel : Selector) (t : nat) :
  t ∈ selected w sel -> t ∈ forest_ids (doc w).
Proof.
  unfold selected.
  assert (forall k up, t ∈ select_in w sel up k -> t ∈ ids k) as Hk.
  { induction k as [i ks IH] using tree_ind. intros up.
    cbn [select_in]. rewrite ids_node.
    intros [Ht|Ht]%elem_of_app.
    - destruct (matches sel (el w i :: up)); [|by apply elem_of_nil in Ht].
      apply list_elem_of_singleton in Ht as ->. left.
    - right. revert Ht. generalize (el w i :: up). intros chain.
      induction IH as [|k ks Hk _ IHks]; [done|].
      cbn [flat_map]. rewrite forest_ids_cons.
      intros [Ht|Ht]%elem_of_app; apply elem_of_app;
        [left; by eapply Hk | right; by apply IHks]. }
  generalize (doc w). intros f.
  induction f as [|k f IH]; [done|].
  cbn [flat_map]. rewrite forest_ids_cons.
  intros [Ht|Ht]%elem_of_app; apply elem_of_app;
    [left; by eapply Hk | right; by apply IH].
Qed.

(** ** Back and forward *)

Lemma on_popstate_run (sel : Selector) (dat : Markup) (w w1 w2 : World)
  (news : list Tree) (ins : list nat) :
  html dat w = (Normal news, w1) ->
  replaceAll news (selected w1 sel) w1 = (Normal ins, w2) ->
  on_popstate (Some (mkHistState (Some sel) dat)) w
  = (Normal tt,
     with_trace (trace w2 ++ map (Trigger "replace:always") ins
                   ++ map (Trigger "replace:done") ins) w2).
Proof.
  intros Hh Hr. unfold on_popstate. cbn [hs_selector hs_data].
  rewrite run_bind, Hh, run_bind. cbn [select reads]. fold (selected w1 sel).
  rewrite run_bind, Hr, run_bind, run_trigger, run_trigger. cbn.
  by rewrite <- app_assoc.
Qed.

(** ** A selector that matches nothing *)

(** An operation without a container, and without a push-state callback
    that is switched on, runs to its end in silence: whatever the
    response, nothing is thrown, the document is as it was and no
    notification is sent (there is no element to send it to). *)
Lemma unresolved_container_is_silent (p : Pending) (r : Response)
  (w : World) :
  p_container p = [] ->
  (forall link, p_success p = Some (PushStateCallback link) ->
                el_pushstate (el w link) = false) ->
  exists w',
    complete p r w = (Normal tt, w')
    /\ doc w' = doc w /\ detached w' = detached w
    /\ trace w' = trace w /\ pending w' = pending w
    /\ elems w ⊆ elems w'.
Proof.
  intros Hc Hoff. unfold complete. rewrite Hc, run_bind, on_always_run.
  cbn [map foldl]. rewrite app_nil_r, with_elems_same, with_trace_same.
  destruct r as [body|].
  - unfold on_done. rewrite run_bind.
    assert (call_success (p_success p) [] body w = (Normal tt, w)) as ->.
    { destruct (p_success p) as [[link]|]; [|done].
      cbn [call_success]. apply run_callback_off. by apply Hoff. }
    rewrite run_bind.
    destruct (html_spec body w) as (news & w1 & -> & Hg & _).
    pose proof (grows_sub _ _ Hg). destruct Hg as (?&?&?&?&?&?).
    exists w1. rewrite run_bind.
    change (replaceAll news [] w1) with (Normal (@nil nat), w1).
    cbn iota. rewrite run_trigger.
    cbn [map]. rewrite app_nil_r, with_trace_same. done.
  - exists w. rewrite on_fail_run. cbn [map].
    rewrite app_nil_r, with_trace_same. done.
Qed.

(** With the push-state callback switched on, the success path of an
    operation without a container throws before anything is written to
    the history. *)
Lemma unresolved_container_throws (link : nat) (body : Markup) (w : World) :
  el_pushstate (el w link) = true ->
  complete (mkPending [] (Some (PushStateCallback link))) (Success body) w
  = (Throw TypeError, w).
Proof.
  intros Hps. unfold complete. cbn [p_container p_success].
  rewrite run_bind, on_always_run. cbn [map foldl].
  rewrite app_nil_r, with_elems_same, with_trace_same.
  unfold on_done. rewrite run_bind. cbn [call_success].
  by rewrite run_callback_empty.
Qed.

(** A [popstate] whose selector matches nothing changes neither the
    document nor the trace. *)
Lemma popstate_without_match_is_silent (sel : Selector) (dat : Markup)
  (w : World) :
  selected w sel = [] ->
  exists w',
    on_popstate (Some (mkHistState (Some sel) dat)) w = (Normal tt, w')
    /\ doc w' = doc w /\ detached w' = detached w /\ trace w' = trace w.
Proof.
  intros Hnone.
  destruct (html_spec dat w) as (news & w1 & Hh & Hg & _).
  pose proof (selected_grows w w1 sel Hg) as Hsel.
  assert (replaceAll news (selected w1 sel) w1 = (Normal [], w1)) as Hr
    by (by rewrite Hsel, Hnone).
  rewrite (on_popstate_run sel dat w w1 w1 news [] Hh Hr).
  destruct Hg as (?&?&?&?&?&?). eexists. split; [done|].
  cbn. by rewrite app_nil_r.
Qed.

(** ** Finding and appending in the shape *)

Lemma first_some_app {A B : Type} (f : A -> option B) (l1 l2 : list A) :
  first_some f (l1 ++ l2)
  = match first_some f l1 with
    | Some y => Some y
    | None => first_some f l2
    end.
Proof.
  induction l1 as [|x l1 IH]; [done|]. cbn. by destruct (f x).
Qed.

Lemma first_some_none {A B : Type} (f : A -> option B) (l : list A) :
  Forall (fun x => f x = None) l -> first_some f l = None.
Proof. induction 1 as [|x l Hx _ IH]; [done|]. cbn. by rewrite Hx. Qed.

Lemma first_some_map {A B C : Type} (f : B -> option C) (g : A -> B)
  (l : list A) :
  first_some f (map g l) = first_some (fun x => f (g x)) l.
Proof. induction l as [|x l IH]; [done|]. cbn. by rewrite IH. Qed.

Lemma first_some_ext {A B : Type} (f g : A -> option B) (l : list A) :
  Forall (fun x => f x = g x) l -> first_some f l = first_some g l.
Proof. induction 1 as [|x l Hx _ IH]; [done|]. cbn. by rewrite Hx, IH. Qed.

Lemma first_some_fmap {A B C : Type} (f : A -> option B) (h : B -> C)
  (l : list A) :
  first_some (fun x => h <$> f x) l = h <$> first_some f l.
Proof. induction l as [|x l IH]; [done|]. cbn. by destruct (f x). Qed.

Lemma first_some_elem {A B : Type} (f : A -> option B) (l : list A) (y : B) :
  first_some f l = Some y -> exists x, x ∈ l /\ f x = Some y.
Proof.
  induction l as [|x l IH]; [done|]. cbn. destruct (f x) eqn:Hx.
  - intros [= <-]. exists x. split; [left|done].
  - intros (x' & ? & ?)%IH. exists x'. split; [by right|done].
Qed.

Lemma subtree_in_node (x j : nat) (ks : list Tree) :
  subtree_in x (Node j ks)
  = if Nat.eqb x j then Some (Node j ks) else first_some (subtree_in x) ks.
Proof. reflexivity. Qed.

Lemma path_in_node (x j : nat) (ks : list Tree) :
  path_in x (Node j ks)
  = if Nat.eqb x j then Some [j]
    else (fun p => p ++ [j]) <$> first_some (path_in x) ks.
Proof. reflexivity. Qed.

Lemma append_below_node (f : nat) (news : list Tree) (j : nat)
  (ks : list Tree) :
  append_below f news (Node j ks)
  = Node j (map (append_below f news) ks
              ++ (if Nat.eqb j f then news else [])).
Proof. reflexivity. Qed.

Lemma forest_ids_sub (k : Tree) (f : list Tree) (x : nat) :
  k ∈ f -> x ∈ ids k -> x ∈ forest_ids f.
Proof. intros. apply elem_of_forest_ids. eauto. Qed.

Lemma subtree_in_none (x : nat) (t : Tree) :
  x ∉ ids t -> subtree_in x t = None.
Proof.
  induction t as [j ks IH] using tree_ind. rewrite ids_node, subtree_in_node.
  intros [Hj Hks]%not_elem_of_cons.
  destruct (Nat.eqb_spec x j) as [|_]; [done|].
  apply first_some_none. rewrite Forall_forall in IH |- *.
  intros k Hk. apply IH; [done|]. intros Hx. apply Hks.
  by eapply forest_ids_sub.
Qed.

Lemma path_in_none (x : nat) (t : Tree) :
  x ∉ ids t -> path_in x t = None.
Proof.
  induction t as [j ks IH] using tree_ind. rewrite ids_node, path_in_node.
  intros [Hj Hks]%not_elem_of_cons.
  destruct (Nat.eqb_spec x j) as [|_]; [done|].
  rewrite first_some_none; [done|]. rewrite Forall_forall in IH |- *.
  intros k Hk. apply IH; [done|]. intros Hx. apply Hks.
  by eapply forest_ids_sub.
Qed.

(** What is found is part of the tree. *)
Lemma subtree_in_ids (x : nat) (t s : Tree) :
  subtree_in x t = Some s ->
  root s = x /\ forall y, y ∈ ids s -> y ∈ ids t.
Proof.
  revert s. induction t as [j ks IH] using tree_ind. intros s.
  rewrite subtree_in_node.
  destruct (Nat.eqb_spec x j) as [->|_]; [by intros [= <-]|].
  intros (k & Hk & Hs)%first_some_elem.
  rewrite Forall_forall in IH. destruct (IH k Hk s Hs) as [Hr Hin].
  split; [done|]. intros y Hy. rewrite ids_node. right.
  eapply forest_ids_sub; [done|]. by apply Hin.
Qed.

Lemma path_in_ids (x : nat) (t : Tree) (p : list nat) :
  path_in x t = Some p -> forall y, y ∈ p -> y ∈ ids t.
Proof.
  revert p. induction t as [j ks IH] using tree_ind. intros p.
  rewrite path_in_node, ids_node.
  destruct (Nat.eqb_spec x j) as [->|_].
  { intros [= <-] y ->%list_elem_of_singleton. left. }
  destruct (first_some (path_in x) ks) as [q|] eqn:Hq; [|done].
  intros [= <-] y [Hy| ->%list_elem_of_singleton]%elem_of_app; [|left].
  apply first_some_elem in Hq as (k & Hk & Hq).
  rewrite Forall_forall in IH. right.
  eapply forest_ids_sub; [done|]. by eapply IH.
Qed.

(** In a tree without duplicates an element is not below itself. *)
Lemma subtree_in_nodup (x : nat) (t : Tree) (ks : list Tree) :
  NoDup (ids t) -> subtree_in x t = Some (Node x ks) -> x ∉ forest_ids ks.
Proof.
  induction t as [j js IH] using tree_ind.
  rewrite ids_node, subtree_in_node. intros [Hj Hnd]%NoDup_cons.
  destruct (Nat.eqb_spec x j) as [->|_]; [by intros [= <-]|].
  intros (k & Hk & Hs)%first_some_elem.
  rewrite Forall_forall in IH. apply (IH k Hk); [|done].
  clear -Hnd Hk. induction js as [|k' js IHjs]; [by apply elem_of_nil in Hk|].
  rewrite forest_ids_cons in Hnd. apply NoDup_app in Hnd as (Hk' & _ & Hjs).
  apply elem_of_cons in Hk as [->|Hk]; [done | by apply IHjs].
Qed.

Lemma forest_nodup_tree (k : Tree) (f : list Tree) :
  NoDup (forest_ids f) -> k ∈ f -> NoDup (ids k).
Proof.
  induction f as [|k' f IH]; [intros _ H; by apply elem_of_nil in H|].
  rewrite forest_ids_cons. intros (Hk' & _ & Hf)%NoDup_app.
  intros [->|Hk]%elem_of_cons; [done | by apply IH].
Qed.

(** Appending under an element that is not there changes nothing. *)
Lemma append_absent (f : nat) (news : list Tree) (t : Tree) :
  f ∉ ids t -> append_below f news t = t.
Proof.
  induction t as [j ks IH] using tree_ind.
  rewrite ids_node, append_below_node. intros [Hj Hks]%not_elem_of_cons.
  destruct (Nat.eqb_spec j f) as [|_]; [done|]. rewrite app_nil_r. f_equal.
  rewrite <- (map_id ks) at 2. apply map_ext_Forall.
  rewrite Forall_forall in IH |- *. intros k Hk. apply IH; [done|].
  intros Hf. apply Hks. by eapply forest_ids_sub.
Qed.

Lemma append_keeps (f y : nat) (news : list Tree) (t : Tree) :
  y ∈ ids t -> y ∈ ids (append_below f news t).
Proof.
  induction t as [j ks IH] using tree_ind.
  rewrite append_below_node, !ids_node.
  intros [->|Hy]%elem_of_cons; [left|right].
  rewrite forest_ids_app. apply elem_of_app. left.
  apply elem_of_forest_ids in Hy as (k & Hk & Hy).
  rewrite Forall_forall in IH. apply elem_of_forest_ids.
  exists (append_below f news k). split; [|by apply IH].
  apply list_elem_of_fmap. by exists k.
Qed.

(** Appending new elements moves none of the old ones. *)
Lemma path_in_append (f x : nat) (news : list Tree) (t : Tree) :
  x ∉ forest_ids news ->
  path_in x (append_below f news t) = path_in x t.
Proof.
  intros Hx. induction t as [j ks IH] using tree_ind.
  rewrite append_below_node, !path_in_node.
  destruct (Nat.eqb_spec x j) as [|_]; [done|]. f_equal.
  rewrite first_some_app, first_some_map, (first_some_ext _ (path_in x)) by done.
  destruct (first_some (path_in x) ks); [done|].
  destruct (Nat.eqb j f); [|done].
  apply first_some_none, Forall_forall. intros k Hk. apply path_in_none.
  intros Hin. apply Hx. by eapply forest_ids_sub.
Qed.

Lemma subtree_in_append (f x : nat) (news : list Tree) (t : Tree) :
  x ∉ forest_ids news ->
  subtree_in x (append_below f news t)
  = append_below f news <$> subtree_in x t.
Proof.
  intros Hx. induction t as [j ks IH] using tree_ind.
  rewrite append_below_node, !subtree_in_node.
  destruct (Nat.eqb_spec x j) as [|_]; [done|].
  rewrite first_some_app, first_some_map.
  rewrite (first_some_ext _ (fun k => append_below f news <$> subtree_in x k))
    by done.
  rewrite first_some_fmap.
  destruct (first_some (subtree_in x) ks); [done|]. cbn.
  destruct (Nat.eqb j f); [|done].
  apply first_some_none, Forall_forall. intros k Hk. apply subtree_in_none.
  intros Hin. apply Hx. by eapply forest_ids_sub.
Qed.

(** ** The hidden input of a clicked button *)

Lemma closest_on_ext (w w' : World) (sel : Selector) (chain : list nat) :
  (forall x, x ∈ chain -> el w' x = el w x) ->
  closest_on w' sel chain = closest_on w sel chain.
Proof.
  induction chain as [|c up IH]; [done|]. intros Hel.
  cbn [closest_on]. rewrite IH by (intros x Hx; apply Hel; by right).
  assert (map (el w') (c :: up) = map (el w) (c :: up)) as ->; [|done].
  apply map_ext_Forall, Forall_forall. intros x Hx. by apply Hel.
Qed.

Lemma path_of_used (w : World) (x y : nat) :
  x ∈ used w -> y ∈ path_of w x -> y ∈ used w.
Proof.
  intros Hx. unfold path_of.
  destruct (first_some (path_in x) (shape w)) as [p|] eqn:Hp; cbn [default].
  - apply first_some_elem in Hp as (k & Hk & Hp). intros Hy.
    unfold used. apply elem_of_union. right. apply elem_of_list_to_set.
    eapply forest_ids_sub; [done|]. by eapply path_in_ids.
  - by intros ->%list_elem_of_singleton.
Qed.

Lemma on_click_button_unfold (b : nat) (w : World) :
  on_click_button b w =
  let i := fresh (used w) in
  let w1 := with_elems (<[i := hidden_input]> (elems w)) w in
  let w2 := with_elems (upd (set_name (el_name (el w1 b))) (elems w1) i) w1 in
  let w3 := with_elems (upd (set_value (el_value (el w2 b))) (elems w2) i) w2 in
  match appendTo [Node i []] (closest_on w3 (SelTag "form") (path_of w3 b)) w3
  with
  | (Normal _, w4) => (Normal tt, w4)
  | (Throw e, w4) => (Throw e, w4)
  end.
Proof. reflexivity. Qed.

Lemma click_button_spec (b f : nat) (ks : list Tree) (w : World) :
  b ∈ used w ->
  closest_on w (SelTag "form") (path_of w b) = [f] ->
  first_some (subtree_in f) (shape w) = Some (Node f ks) ->
  f ∉ forest_ids ks ->
  let i := fresh (used w) in
  let w' := exec (on_click_button b) w in
  completion (on_click_button b) w = Normal tt
  /\ elems w' = <[i := mirror w b]> (elems w)
  /\ shape w' = map (append_below f [Node i []]) (shape w)
  /\ first_some (subtree_in f) (shape w')
     = Some (Node f (ks ++ [Node i []]))
  /\ trace w' = trace w /\ pending w' = pending w
  /\ history_supported w' = history_supported w.
Proof.
  intros Hb Hform Hsub Hf i w'.
  pose proof (is_fresh (used w)) as Hi. fold i in Hi.
  assert (b ≠ i) as Hbi by (intros ->; done).
  assert (forall m, (<[i := m]> (elems w)) !! b = elems w !! b) as Hlk
    by (intros m; by apply lookup_insert_ne).
  set (w3 := with_elems (<[i := mirror w b]> (elems w)) w).
  assert (closest_on w3 (SelTag "form") (path_of w3 b) = [f]) as Hform3.
  { rewrite <- Hform. apply closest_on_ext. intros x Hx.
    unfold el, w3. cbn. rewrite lookup_insert_ne; [done|].
    intros <-. apply Hi. by apply (path_of_used w b). }
  assert (on_click_button b w
          = (Normal tt,
             with_shape (map (append_below f [Node i []]) (doc w))
                        (map (append_below f [Node i []]) (detached w)) w3))
    as Hrun.
  { rewrite on_click_button_unfold. cbn zeta. fold i.
    match goal with
    | |- context [appendTo _ _ ?W] => replace W with w3
    end.
    - by rewrite Hform3.
    - unfold w3, with_elems, upd, el. cbn [elems doc detached pending trace
                                            history_supported].
      rewrite !lookup_insert_eq, !lookup_insert_ne by done. cbn [default].
      by rewrite !insert_insert_eq. }
  subst w'. unfold exec, completion. rewrite Hrun. cbn [fst snd].
  split; [done|]. split; [done|].
  assert (f ∉ forest_ids [Node i []]) as Hfi.
  { rewrite forest_ids_cons. cbn. intros [->|H]%elem_of_cons;
      [|by apply elem_of_nil in H].
    apply Hi. apply first_some_elem in Hsub as (k & Hk & Hs).
    apply subtree_in_ids in Hs as [_ Hin].
    unfold used. apply elem_of_union. right. apply elem_of_list_to_set.
    eapply forest_ids_sub; [done|]. apply Hin. left. }
  split; [unfold shape; cbn; by rewrite map_app|]. split; [|done].
  unfold shape. cbn [doc detached with_shape]. rewrite <- map_app.
  fold (shape w). rewrite first_some_map.
  rewrite (first_some_ext _
             (fun k => append_below f [Node i []] <$> subtree_in f k)).
  2:{ apply Forall_forall. intros k _. by apply subtree_in_append. }
  rewrite first_some_fmap, Hsub. cbn [fmap option_fmap option_map].
  rewrite append_below_node, Nat.eqb_refl.
  assert (map (append_below f [Node i []]) ks = ks) as ->; [|done].
  rewrite <- (map_id ks) at 2. apply map_ext_Forall, Forall_forall.
  intros k Hk. apply append_absent. intros Hin. apply Hf.
  by eapply forest_ids_sub.
Qed.

Lemma subtree_in_some (x : nat) (t : Tree) :
  x ∈ ids t -> exists ks, subtree_in x t = Some (Node x ks).
Proof.
  induction t as [j js IH] using tree_ind.
  rewrite ids_node, subtree_in_node.
  destruct (Nat.eqb_spec x j) as [->|Hne]; [by eexists|].
  intros [->|Hx]%elem_of_cons; [done|]. clear Hne.
  induction IH as [|k js Hk _ IHjs]; [by apply elem_of_nil in Hx|].
  rewrite forest_ids_cons in Hx. cbn [first_some].
  destruct (decide (x ∈ ids k)) as [Hin|Hout].
  - destruct (Hk Hin) as (ks & ->). by eexists.
  - rewrite subtree_in_none by done. apply IHjs. set_solver.
Qed.

(** In a shape without duplicates every element has its subtree, and is
    not inside it a second time. *)
Lemma subtree_of_member (x : nat) (f : list Tree) :
  NoDup (forest_ids f) -> x ∈ forest_ids f ->
  exists ks,
    first_some (subtree_in x) f = Some (Node x ks)
    /\ (x ∉ forest_ids ks)
    /\ (forall y, y ∈ forest_ids ks -> y ∈ forest_ids f).
Proof.
  intros Hnd Hx.
  assert (exists s, first_some (subtree_in x) f = Some s) as [s Hs].
  { clear Hnd. induction f as [|k f IH]; [by apply elem_of_nil in Hx|].
    rewrite forest_ids_cons in Hx. cbn [first_some].
    destruct (decide (x ∈ ids k)) as [Hin|Hout].
    - destruct (subtree_in_some x k Hin) as (ks & ->). by eexists.
    - rewrite subtree_in_none by done. apply IH. set_solver. }
  pose proof Hs as (k & Hk & Hsk)%first_some_elem.
  destruct (subtree_in_ids _ _ _ Hsk) as [Hroot Hin].
  destruct s as [r ks]. cbn in Hroot. subst r. exists ks.
  split; [done|]. split.
  - eapply subtree_in_nodup; [|done]. by eapply forest_nodup_tree.
  - intros y Hy. eapply forest_ids_sub; [done|]. apply Hin.
    rewrite ids_node. by right.
Qed.

Lemma flat_map_ext_elem {A B : Type} (f g : A -> list B) (l : list A) :
  (forall x, x ∈ l -> f x = g x) -> flat_map f l = flat_map g l.
Proof.
  induction l as [|x l IH]; [done|]. intros H. cbn.
  rewrite H by left. rewrite IH; [done|]. intros y Hy. apply H. by right.
Qed.

(** What one click on a button of form [f] does. *)
Lemma click_button_effect (b f : nat) (ks : list Tree) (w : World) :
  b ∈ used w ->
  closest_on w (SelTag "form") (path_of w b) = [f] ->
  first_some (subtree_in f) (shape w) = Some (Node f ks) ->
  f ∉ forest_ids ks ->
  (forall y, y ∈ forest_ids ks -> y ∈ used w) ->
  let i := fresh (used w) in
  let w' := exec (on_click_button b) w in
  on_click_button b w = (Normal tt, w')
  /\ (i ∉ used w) /\ i ∈ used w'
  /\ el w' i = mirror w b
  /\ (forall x, x ∈ used w -> el w' x = el w x /\ path_of w' x = path_of w x)
  /\ used w ⊆ used w'
  /\ first_some (subtree_in f) (shape w')
     = Some (Node f (ks ++ [Node i []]))
  /\ controls w' f = controls w f ++ [i]
  /\ fields_of w' f = fields_of w f ++ field w' i
  /\ trace w' = trace w /\ pending w' = pending w.
Proof.
  intros Hb Hform Hsub Hf Hks i w'.
  destruct (click_button_spec b f ks w Hb Hform Hsub Hf)
    as (Hnormal & Hel & Hshape & Hsub' & Htr & Hpen & _).
  fold i in Hel, Hshape, Hsub'. fold w' in Hel, Hshape, Hsub', Htr, Hpen.
  assert (on_click_button b w = (Normal tt, w')) as Hrun.
  { unfold completion in Hnormal. subst w'. unfold exec.
    destruct (on_click_button b w) as [[[]|e] w1]; [done|discriminate]. }
  pose proof (is_fresh (used w)) as Hi. fold i in Hi.
  assert (forall x, x ∈ used w -> el w' x = el w x) as Hsame.
  { intros x Hx. unfold el. rewrite Hel, lookup_insert_ne; [done|].
    by intros <-. }
  assert (controls w' f = controls w f ++ [i]) as Hctl.
  { unfold controls. rewrite Hsub', Hsub. cbn [kids_of].
    rewrite forest_ids_app, forest_ids_cons. cbn. done. }
  split; [done|]. split; [done|]. split.
  { unfold used. rewrite Hel, dom_insert. set_solver. }
  split; [unfold el; by rewrite Hel, lookup_insert_eq|].
  split; [|split; [|split; [done|split; [done|split; [|done]]]]].
  - intros x Hx. split; [by apply Hsame|]. unfold path_of.
    rewrite Hshape, first_some_map.
    rewrite (first_some_ext _ (path_in x)); [done|].
    apply Forall_forall. intros k _. apply path_in_append.
    rewrite forest_ids_cons. cbn. intros [->|H]%elem_of_cons; [done|].
    by apply elem_of_nil in H.
  - unfold used. rewrite Hel, Hshape, dom_insert.
    intros x [Hx|Hx]%elem_of_union; [set_solver|].
    apply elem_of_union. right. rewrite elem_of_list_to_set in Hx |- *.
    apply elem_of_forest_ids in Hx as (k & Hk & Hx).
    apply elem_of_forest_ids. exists (append_below f [Node i []] k).
    split; [apply list_elem_of_fmap; by exists k | by apply append_keeps].
  - unfold fields_of. rewrite Hctl, flat_map_app. cbn [flat_map].
    rewrite app_nil_r. f_equal. unfold controls. rewrite Hsub.
    cbn [kids_of]. apply flat_map_ext_elem. intros y Hy.
    unfold field. by rewrite Hsame by (by apply Hks).
Qed.



Lemma closest_on_elem (w : World) (sel : Selector) (chain : list nat)
  (c : nat) :
  c ∈ closest_on w sel chain -> c ∈ chain.
Proof.
  induction chain as [|x up IH]; [done|]. cbn [closest_on].
  destruct (matches sel (map (el w) (x :: up))).
  - intros ->%list_elem_of_singleton. left.
  - intros H. right. by apply IH.
Qed.

Lemma shape_in_used (w : World) (x : nat) :
  x ∈ forest_ids (shape w) -> x ∈ used w.
Proof. unfold used. set_solver. Qed.

Lemma closest_with_trace (tr : list Effect) (w : World) (sel : Selector)
  (x : nat) :
  closest_on (with_trace tr w) sel (path_of (with_trace tr w) x)
  = closest_on w sel (path_of w x).
Proof.
  change (path_of (with_trace tr w) x) with (path_of w x).
  by apply closest_on_ext.
Qed.

(** [ajaxReplace] right after [event.preventDefault()]. *)
Lemma ajaxReplace_after_prevent (this : nat) (url : option string)
  (options : Options) (w : World) :
  ¬ marked w this ->
  let container := container_of w this (selector options) in
  ajaxReplace this url options (with_trace (trace w ++ [PreventDefault]) w)
  = (Normal tt,
     with_pending (pending w ++ [mkPending container (success options)])
       (with_trace
          (trace w ++ [PreventDefault]
             ++ map (Trigger "replace:start") container
             ++ [Ajax url (method options) (data options)])
          (with_elems (foldl (upd (add_class active)) (elems w) container)
             w))).
Proof.
  intros Hm container. rewrite ajaxReplace_unmarked.
  2:{ rewrite marked_closest, closest_with_trace.
      by rewrite <- marked_closest. }
  unfold started, container_of. rewrite closest_with_trace. cbn.
  rewrite <- app_assoc. reflexivity.
Qed.

Lemma field_mirror (w w' : World) (b i : nat) :
  el w' i = mirror w b -> field w' i = button_pair w b.
Proof.
  intros He. unfold field, button_pair. rewrite He.
  unfold mirror, successful. cbn.
  by destruct (String.eqb (el_name (el w b)) "").
Qed.

(** ** Several clicks *)

Lemma forM_cons_run {A : Type} (f : A -> M unit) (x : A) (l : list A)
  (w w1 : World) :
  f x w = (Normal tt, w1) -> forM_ f (x :: l) w = forM_ f l w1.
Proof. intros H. cbn [forM_]. by rewrite run_bind, H. Qed.

Lemma clicks_spec (f : nat) (bs : list nat) :
  forall (w : World) (ks : list Tree),
  first_some (subtree_in f) (shape w) = Some (Node f ks) ->
  f ∉ forest_ids ks ->
  (forall y, y ∈ forest_ids ks -> y ∈ used w) ->
  (forall b, b ∈ bs ->
     b ∈ used w /\ closest_on w (SelTag "form") (path_of w b) = [f]) ->
  let w' := exec (forM_ on_click_button bs) w in
  exists inputs,
    forM_ on_click_button bs w = (Normal tt, w')
    /\ Forall (fun i => i ∉ used w) inputs
    /\ map (el w') inputs = map (mirror w) bs
    /\ controls w' f = controls w f ++ inputs
    /\ (forall x, x ∈ used w -> el w' x = el w x)
    /\ fields_of w' f = fields_of w f ++ flat_map (button_pair w) bs
    /\ used w ⊆ used w'
    /\ trace w' = trace w /\ pending w' = pending w.
Proof.
  induction bs as [|b bs IH]; intros w ks Hsub Hf Hks Hbs w'.
  - exists []. subst w'. unfold exec. cbn. rewrite !app_nil_r.
    repeat split; done.
  - destruct (Hbs b) as [Hb Hform]; [left|].
    destruct (click_button_effect b f ks w Hb Hform Hsub Hf Hks)
      as (Hrun & Hi & Hi1 & Heli & Hsame & Hu & Hsub1 & Hctl & Hfld & Htr
          & Hpen).
    set (i := fresh (used w)) in *.
    set (w1 := exec (on_click_button b) w) in *.
    assert (f ∈ used w) as Hfu.
    { apply (path_of_used w b); [done|].
      apply (closest_on_elem w (SelTag "form")). rewrite Hform. left. }
    assert (forall b', b' ∈ bs -> el w1 b' = el w b') as Hbs1.
    { intros b' Hb'. apply Hsame, Hbs. by right. }
    destruct (IH w1 (ks ++ [Node i []])) as
      (inputs & Hrun' & Hins & Hmir & Hctl' & Hsame' & Hfld' & Hu' & Htr'
       & Hpen').
    { done. }
    { rewrite forest_ids_app, forest_ids_cons. cbn.
      intros [H|[->|H]%elem_of_cons]%elem_of_app; [done|done|].
      by apply elem_of_nil in H. }
    { rewrite forest_ids_app, forest_ids_cons. cbn.
      intros y [H|[->|H]%elem_of_cons]%elem_of_app;
        [by apply Hu, Hks | done | by apply elem_of_nil in H]. }
    { intros b' Hb'. destruct (Hbs b') as [Hbu Hbf]; [by right|].
      split; [by apply Hu|]. destruct (Hsame b' Hbu) as [_ ->].
      rewrite <- Hbf. apply closest_on_ext. intros x Hx.
      apply Hsame. by apply (path_of_used w b'). }
    assert (forM_ on_click_button (b :: bs) w
            = forM_ on_click_button bs w1) as Hstep
      by (by rewrite (forM_cons_run _ _ _ _ _ Hrun)).
    subst w'. unfold exec at 1 2 3 4 5 6 7 8. rewrite Hstep.
    fold (exec (forM_ on_click_button bs) w1).
    set (w' := exec (forM_ on_click_button bs) w1) in *.
    exists (i :: inputs).
    split; [done|]. split; [|split; [|split; [|split; [|split]]]].
    + constructor; [done|]. eapply Forall_impl; [exact Hins|].
      intros i' Hn Hin. by apply Hn, Hu.
    + cbn [map]. rewrite Hsame' by done. rewrite Heli, Hmir. f_equal.
      apply map_ext_Forall, Forall_forall. intros b' Hb'.
      unfold mirror. by rewrite Hbs1.
    + rewrite Hctl', Hctl. by rewrite <- app_assoc.
    + intros x Hx. rewrite Hsame' by (by apply Hu). by apply Hsame.
    + rewrite Hfld', Hfld. cbn [flat_map]. rewrite <- app_assoc.
      rewrite (field_mirror w w1 b i Heli). do 2 f_equal.
      apply flat_map_ext_elem. intros b' Hb'.
      unfold button_pair. by rewrite Hbs1.
    + split; [by etrans|]. split; congruence.
Qed.

(** ** What the callback does, and markup that stays the same *)

Lemma call_success_run (succ : option Callback) (container : list nat)
  (body : Markup) (w : World) :
  exists r,
    call_success succ container body w
    = (r, with_trace (trace w ++ callback_effects w succ container body) w)
    /\ (r = Normal tt \/ (r = Throw TypeError /\ container = [])).
Proof.
  destruct succ as [[link]|]; cbn [call_success callback_effects].
  - destruct (el_pushstate (el w link)) eqn:Hps.
    + destruct container as [|c rest].
      * exists (Throw TypeError). rewrite run_callback_empty by done.
        rewrite app_nil_r, with_trace_same. split; [done | by right].
      * exists (Normal tt). rewrite run_callback_on by done.
        split; [done | by left].
    + exists (Normal tt). rewrite run_callback_off by done.
      destruct container; rewrite app_nil_r, with_trace_same;
        (split; [done | by left]).
  - exists (Normal tt). rewrite app_nil_r, with_trace_same.
    split; [done | by left].
Qed.

Lemma snapshot_el_ext (w w' : World) (t : Tree) :
  (forall i, i ∈ ids t -> el w i = el w' i) -> snapshot w t = snapshot w' t.
Proof.
  induction t as [i ks IH] using tree_ind. intros Hel. cbn [snapshot].
  rewrite Hel by (rewrite ids_node; left). f_equal.
  apply map_ext_Forall, Forall_forall. intros k Hk.
  rewrite Forall_forall in IH. apply IH; [done|]. intros x Hx. apply Hel.
  rewrite ids_node. right. by eapply forest_ids_sub.
Qed.

Lemma snapshots_el_ext (w w' : World) (f : list Tree) :
  (forall i, i ∈ forest_ids f -> el w i = el w' i) ->
  map (snapshot w) f = map (snapshot w') f.
Proof.
  intros Hel. apply map_ext_Forall, Forall_forall. intros k Hk.
  apply snapshot_el_ext. intros i Hi. apply Hel. by eapply forest_ids_sub.
Qed.

Lemma snapshots_weaken (w w' : World) (f : list Tree) :
  elems w ⊆ elems w' ->
  (forall x, x ∈ forest_ids f -> x ∈ dom (elems w)) ->
  map (snapshot w') f = map (snapshot w) f.
Proof.
  intros Hsub Hdom. apply snapshots_el_ext. intros i Hi.
  apply Hdom, elem_of_dom in Hi as [e He]. unfold el.
  by rewrite He, (lookup_weaken _ _ _ _ He Hsub).
Qed.

(** ** Every target gets its copy *)

(** [replaceAll] hands one group of trees to every target: copies to all
    but the last, the new trees themselves to the last.  Every group has
    the markup of the new trees, the copies are new elements, no element
    is in two groups, and the document is the old one with every target
    replaced, in order, by its group. *)
Lemma replaceAll_groups (news : list Tree) (targets : list nat) (w : World) :
  (forall x, x ∈ forest_ids news -> x ∈ dom (elems w)) ->
  NoDup (forest_ids news) ->
  exists gs w',
    replaceAll news targets w = (Normal (flat_map (map root) gs), w')
    /\ frame w w'
    /\ length gs = length targets
    /\ Forall (fun g => map (snapshot w') g = map (snapshot w) news) gs
    /\ (forall x, x ∈ flat_map forest_ids gs ->
          x ∈ forest_ids news \/ x ∉ used w)
    /\ (forall x, x ∈ flat_map forest_ids gs -> x ∈ dom (elems w'))
    /\ NoDup (flat_map forest_ids gs)
    /\ doc w' = replaced_each (doc w) targets gs.
Proof.
  revert w. induction targets as [|t rest IH]; intros w Hdom Hnd.
  - exists [], w. split; [done|]. split; [apply frame_refl|].
    split; [done|]. split; [done|].
    split; [intros x Hx; by apply elem_of_nil in Hx|].
    split; [intros x Hx; by apply elem_of_nil in Hx|].
    split; [constructor | done].
  - destruct rest as [|t' rest].
    + exists [news], (exec (replaceWith t news) w).
      cbn [flat_map]. rewrite !app_nil_r.
      split; [apply replaceAll_one|]. split; [by repeat split|].
      split; [done|]. split.
      { constructor; [|done]. apply map_ext. intros k. by apply snapshot_ext. }
      split; [intros x Hx; by left|]. split; [exact Hdom|].
      split; [done|]. unfold exec. by rewrite replaceWith_run.
    + destruct (clone_spec news w) as (c & w1 & Hc & Hg & Hfresh & Hndc & Hsnap).
      pose proof (grows_sub _ _ Hg) as Hsub1.
      set (w2 := exec (replaceWith t c) w1).
      assert (used w ⊆ used w2) as Hu.
      { etrans; [apply (grows_used _ _ Hg)|]. apply replaceWith_used. }
      assert (forall x, x ∈ dom (elems w) -> x ∈ dom (elems w1)) as Hdom1.
      { intros x Hx. by apply (subseteq_dom _ _ Hsub1). }
      destruct (IH w2) as (gs & w' & Hr & Hf & Hlen & Hall & Hnew & Hin & Hndg
                           & Hdoc).
      { intros x Hx. by apply Hdom1, Hdom. }
      { done. }
      assert (elems w1 ⊆ elems w') as Hsub2 by (by destruct Hf as (_&_&_&?)).
      exists (c :: gs), w'. cbn [flat_map].
      split; [by rewrite replaceAll_cons2, Hc; fold w2; rewrite Hr|].
      split.
      { eapply frame_trans; [|exact Hf].
        eapply frame_trans; [apply grows_frame, Hg|]. by repeat split. }
      split; [cbn; by rewrite Hlen|]. split.
      { constructor.
        - rewrite <- Hsnap. apply snapshots_weaken; [done|].
          intros x Hx. by destruct (Hfresh x Hx).
        - eapply Forall_impl; [exact Hall|]. intros g ->. cbn beta.
          apply (snapshots_weaken w w2); done. }
      split.
      { intros x [Hx|Hx]%elem_of_app.
        - right. by destruct (Hfresh x Hx).
        - destruct (Hnew x Hx) as [H|H]; [by left|]. right.
          intros Hxu. by apply H, Hu. }
      split.
      { intros x [Hx|Hx]%elem_of_app; [|by apply Hin].
        destruct (Hfresh x Hx) as [_ Hx1].
        by apply (subseteq_dom _ _ Hsub2). }
      split.
      { apply NoDup_app. split; [done|]. split; [|done].
        intros x Hx Hxg. destruct (Hfresh x Hx) as [Hout Hx1].
        destruct (Hnew x Hxg) as [H|H].
        - apply Hout. unfold used. apply elem_of_union. left. by apply Hdom.
        - apply H. unfold used. apply elem_of_union. by left. }
      rewrite Hdoc. unfold replaced_each. cbn [zip zip_with foldl fst snd].
      f_equal. subst w2. unfold exec. rewrite replaceWith_run.
      cbn [snd doc with_shape]. by destruct Hg as (-> & _).
Qed.

(** * The claims *)

(** C1, as the code has it.  When [this] or an ancestor carries the
    in-progress marker, a click on a link that passes the push-state gate,
    and a submit of a form, call [preventDefault] and do nothing else: no
    request is issued, no notification is sent, the DOM and the markers
    are as they were.  The call of [preventDefault] comes first in both
    handlers (lines 79 and 99), before [ajaxReplace] looks at the marker,
    so the browser's own navigation or submission is suppressed. *)
Theorem guard_drops_the_operation (w : World) (this : nat) (event : Event) :
  marked w this ->
  (el_pushstate (el w this)
     && (negb (history_supported w) || shiftKey event || metaKey event)
   = false ->
   on_click_link this event w
   = (Normal tt, with_trace (trace w ++ [PreventDefault]) w))
  /\ on_submit_form this w
     = (Normal tt, with_trace (trace w ++ [PreventDefault]) w).
Proof.
  intros Hm. split.
  - intros Hgate. rewrite on_click_link_run by done.
    by rewrite ajaxReplace_marked.
  - rewrite on_submit_form_run. by rewrite ajaxReplace_marked.
Qed.

Lemma guard_drops_the_operation_witness :
  marked Page.busy 3
  /\ on_click_link 3 Page.click Page.busy
     = (Normal tt, with_trace [PreventDefault] Page.busy)
  /\ on_submit_form 4 Page.busy
     = (Normal tt, with_trace [PreventDefault] Page.busy).
Proof.
  assert (marked Page.busy 3) as H3.
  { exists 2. split; [|reflexivity]. vm_compute. right. left. }
  assert (marked Page.busy 4) as H4.
  { exists 2. split; [|reflexivity]. vm_compute. right. left. }
  split; [exact H3|]. split.
  - destruct (guard_drops_the_operation Page.busy 3 Page.click H3)
      as [Hclick _].
    apply Hclick. reflexivity.
  - destruct (guard_drops_the_operation Page.busy 4 Page.click H4)
      as [_ Hsubmit].
    exact Hsubmit.
Defined.

(** C1, as stated, fails: on a page whose container (the parent of the
    link and of the form) carries the marker, the click and the submit
    both call [preventDefault]. *)
Lemma guarded_event_calls_preventDefault :
  (exists c, c ∈ path_of Page.busy 3 /\ c ≠ 3
             /\ hasClass Page.busy active c = true)
  /\ trace Page.busy = []
  /\ trace (exec (on_click_link 3 Page.click) Page.busy) = [PreventDefault]
  /\ trace (exec (on_submit_form 4) Page.busy) = [PreventDefault].
Proof.
  split; [|by vm_compute].
  exists 2. split; [|by vm_compute]. vm_compute. right. left.
Qed.

(** C2.  An operation that passes the guard puts the marker on the
    container it resolved, and registers the callbacks on that container;
    whenever and however the request settles (success or failure), the
    marker is off the container afterwards.  Taking the marker off an
    element that does not carry it changes nothing. *)
Theorem marker_present_then_absent (w : World) (this : nat)
  (url : option string) (options : Options) (c : nat) :
  ¬ marked w this ->
  c ∈ container_of w this (selector options) ->
  let p := mkPending (container_of w this (selector options))
                     (success options) in
  let w1 := exec (ajaxReplace this url options) w in
  pending w1 = pending w ++ [p]
  /\ hasClass w1 active c = true
  /\ (forall r w2 n,
        pending w2 !! n = Some p ->
        hasClass (exec (settle n r) w2) active c = false)
  /\ (forall w3,
        is_Some (elems w3 !! c) -> hasClass w3 active c = false ->
        removeClass active [c] w3 = (Normal tt, w3)).
Proof.
  intros Hm Hc p w1. subst w1. unfold exec.
  rewrite ajaxReplace_unmarked by done. cbn [snd].
  split; [done|]. split; [|split].
  - unfold hasClass, el, started. cbn.
    rewrite upd_all_member; [|apply add_class_idem|done].
    cbn [default]. apply has_class_add.
  - intros r w2 n Hp. unfold exec. rewrite (settle_run _ _ _ _ Hp).
    by apply complete_unmarks.
  - intros w3 [e He] Hno. unfold removeClass. rewrite run_update_all.
    cbn. unfold upd. rewrite He. cbn [default].
    unfold hasClass, el in Hno. rewrite He in Hno. cbn [default] in Hno.
    rewrite remove_class_absent by done.
    rewrite insert_id by done. by rewrite with_elems_same.
Qed.

Lemma marker_present_then_absent_witness :
  let w1 := exec (on_click_link 3 Page.click) Page.idle in
  ¬ marked Page.idle 3
  /\ hasClass Page.idle active 2 = false
  /\ hasClass w1 active 2 = true
  /\ hasClass (exec (settle 0 (Success Page.fresh_div)) w1) active 2 = false
  /\ hasClass (exec (settle 0 Failure) w1) active 2 = false
  /\ removeClass active [2] Page.idle = (Normal tt, Page.idle).
Proof.
  intros w1.
  assert (¬ marked Page.idle 3) as Hm.
  { rewrite marked_closest. intros H. by apply H. }
  assert (2 ∈ container_of Page.idle 3 (Some (SelClass "container"))) as Hc.
  { vm_compute. left. }
  destruct (marker_present_then_absent
              (with_trace [PreventDefault] Page.idle) 3 (Some "/foo")
              (mkOptions (Some (SelClass "container")) None None
                         (Some (PushStateCallback 3)))
              2 Hm Hc) as (_ & Hon & Hoff & Hnoop).
  split; [exact Hm|]. split; [reflexivity|]. split; [exact Hon|].
  split; [by apply Hoff|]. split; [by apply Hoff|].
  apply (Hnoop Page.idle); [|reflexivity]. by eexists.
Defined.

(** C3.  When the request of a push-state link succeeds and the operation
    has a container, the history is written exactly twice between the
    [replace:always] and the [replace:done] notifications: first
    [replaceState] with the selector of the link and the outer markup of
    the container as it is then (marker cleared, not yet replaced), then
    [pushState] with the selector, the response body and the [href] of the
    link. *)
Theorem pushstate_success_writes_history (n link c : nat) (rest : list nat)
  (body : Markup) (w : World) :
  pending w !! n
  = Some (mkPending (c :: rest) (Some (PushStateCallback link))) ->
  el_pushstate (el w link) = true ->
  let before := exec (removeClass active (c :: rest)) w in
  let sel := el_replace (el w link) in
  let writes :=
    [ReplaceState (mkHistState sel (outer_markup before c));
     PushState (mkHistState sel body) (lookup_attr "href" (el w link))] in
  let w' := exec (settle n (Success body)) w in
  completion (settle n (Success body)) w = Normal tt
  /\ doc before = doc w /\ detached before = detached w
  /\ (exists ins,
        trace w' = trace w ++ map (Trigger "replace:always") (c :: rest)
                     ++ writes ++ map (Trigger "replace:done") ins)
  /\ List.filter is_history_write (drop (length (trace w)) (trace w'))
     = writes.
Proof.
  intros Hp Hps before sel writes w'.
  set (p := mkPending (c :: rest) (Some (PushStateCallback link))) in *.
  set (w0 := with_pending (delete n (pending w)) w).
  set (wa := exec (on_always (c :: rest)) w0).
  assert (trace wa = trace w ++ map (Trigger "replace:always") (c :: rest))
    as Hta by (subst wa; unfold exec; by rewrite on_always_run).
  destruct (el_unmarked w (c :: rest) link) as (Hsel & Hpush & Hattr & _).
  fold before in Hsel, Hpush, Hattr.
  assert (el wa link = el before link) as Hel.
  { subst wa before. unfold exec, removeClass.
    by rewrite on_always_run, run_update_all. }
  assert (call_success (p_success p) (p_container p) body wa
          = (Normal tt, with_trace (trace wa ++ writes) wa)) as Hcb.
  { cbn [p p_success p_container call_success].
    rewrite run_callback_on by (rewrite Hel; congruence).
    unfold history_writes, writes, sel.
    rewrite Hel, Hsel. unfold lookup_attr. rewrite Hattr.
    rewrite (outer_markup_ext wa before c); [done| | |];
      subst wa before; unfold exec, removeClass;
      by rewrite on_always_run, run_update_all. }
  destruct (complete_success_run p body w0 _ Hcb)
    as (news & w3 & ins & w4 & _ & _ & _ & _ & Hrun).
  assert (trace w' = trace w ++ map (Trigger "replace:always") (c :: rest)
                       ++ writes ++ map (Trigger "replace:done") ins) as Htr.
  { subst w'. unfold exec. rewrite (settle_run _ _ _ _ Hp).
    fold w0. rewrite Hrun. cbn. rewrite Hta. by rewrite <- !app_assoc. }
  split; [|split; [|split; [|split]]].
  - unfold completion. rewrite (settle_run _ _ _ _ Hp). fold w0.
    by rewrite Hrun.
  - subst before. unfold exec, removeClass. by rewrite run_update_all.
  - subst before. unfold exec, removeClass. by rewrite run_update_all.
  - by exists ins.
  - rewrite Htr, drop_app_length, !List.filter_app.
    rewrite !no_history_write_in_triggers. by rewrite app_nil_r.
Qed.

Lemma pushstate_success_writes_history_witness :
  let w := exec (on_click_link 3 Page.click) Page.idle in
  let w' := exec (settle 0 (Success Page.fresh_div)) w in
  pending w !! 0 = Some (mkPending [2] (Some (PushStateCallback 3)))
  /\ el_pushstate (el w 3) = true
  /\ List.filter is_history_write (drop (length (trace w)) (trace w'))
     = [ReplaceState
          (mkHistState (Some (SelClass "container"))
                       (outer_markup Page.idle 2));
        PushState
          (mkHistState (Some (SelClass "container")) Page.fresh_div)
          (Some "/foo")].
Proof.
  intros w w'.
  assert (pending w !! 0 = Some (mkPending [2] (Some (PushStateCallback 3))))
    as Hp by reflexivity.
  assert (el_pushstate (el w 3) = true) as Hps by reflexivity.
  split; [exact Hp|]. split; [exact Hps|].
  destruct (pushstate_success_writes_history 0 3 2 [] Page.fresh_div w Hp Hps)
    as (_ & _ & _ & _ & Hw).
  exact Hw.
Defined.

(** C4.  A [popstate] event whose state carries a selector replaces
    every element of the document that matches it by the stored markup
    and sends [replace:always] and then [replace:done] to what it
    inserted; it issues no request and sends no [replace:start] (the
    trace gains nothing else).  Every element that matched gets a group
    of new elements of its own, whose markup is the stored [data]; the
    document is the old one with every match replaced by its group, and
    no element that matched is in the document afterwards.  When exactly
    one element matched, the new elements stand in its place. *)
Theorem popstate_restores (sel : Selector) (dat : Markup) (w : World) :
  let st := mkHistState (Some sel) dat in
  let w' := exec (on_popstate (Some st)) w in
  let targets := selected w sel in
  exists gs,
    let ins := flat_map (map root) gs in
    completion (on_popstate (Some st)) w = Normal tt
    /\ trace w' = trace w ++ map (Trigger "replace:always") ins
                    ++ map (Trigger "replace:done") ins
    /\ pending w' = pending w
    /\ length gs = length targets
    /\ Forall (fun g => map (snapshot w') g = dat) gs
    /\ (forall x, x ∈ flat_map forest_ids gs -> x ∉ used w)
    /\ NoDup (flat_map forest_ids gs)
    /\ doc w' = replaced_each (doc w) targets gs
    /\ (forall t, t ∈ targets -> t ∉ forest_ids (doc w'))
    /\ (forall t, targets = [t] ->
          exists news,
            gs = [news]
            /\ ins = map root news
            /\ map (snapshot w') news = dat
            /\ (forall x, x ∈ forest_ids news -> x ∉ used w)
            /\ doc w' = replace_among t news (doc w)
            /\ (forall x, x ∈ forest_ids news -> x ∈ forest_ids (doc w'))
            /\ (forall pos k,
                  NoDup (forest_ids (doc w)) -> doc w = fill pos [k] ->
                  root k = t -> doc w' = fill pos news)).
Proof.
  intros st w' targets.
  destruct (html_spec dat w) as (news & w1 & Hh & Hg & Hfresh & Hnd & Hsnap).
  pose proof (selected_grows w w1 sel Hg) as Hsel. fold targets in Hsel.
  assert (forall t, t ∈ selected w1 sel ->
            t ∈ used w1 /\ (t ∉ forest_ids news)) as Htargets.
  { intros t Ht. rewrite Hsel in Ht. apply selected_in_doc in Ht.
    assert (t ∈ used w) as Hu.
    { unfold used, shape. rewrite forest_ids_app. set_solver. }
    split; [by apply (grows_used _ _ Hg)|].
    intros Hin. by destruct (Hfresh t Hin). }
  destruct (replaceAll_removes _ news w1 Htargets)
    as (ins & w2 & Hr & Hf & _ & Hgone & _).
  destruct (replaceAll_groups news (selected w1 sel) w1)
    as (gs & w2' & Hr' & _ & Hlen & Hall & Hnew & _ & Hndg & Hdoc).
  { intros x Hx. by destruct (Hfresh x Hx). }
  { done. }
  rewrite Hr in Hr'. injection Hr' as -> <-.
  pose proof (on_popstate_run sel dat w w1 w2 news _ Hh Hr) as Hrun.
  assert (forall x, x ∈ flat_map forest_ids gs -> x ∉ used w) as Hnew'.
  { intros x Hx. destruct (Hnew x Hx) as [H|H]; [by destruct (Hfresh x H)|].
    intros Hu. by apply H, (grows_used _ _ Hg). }
  exists gs. subst w'. unfold exec, completion. subst st. rewrite Hrun.
  cbn [fst snd trace pending doc with_trace].
  destruct Hg as (Hd1 & _ & _ & Hp1 & Ht1 & _).
  destruct Hf as (_ & Hp2 & Ht2 & He2).
  assert (forall g, map (snapshot w2) g = map (snapshot w1) news ->
            map (snapshot
                   (with_trace
                      (trace w2
                         ++ map (Trigger "replace:always")
                              (flat_map (map root) gs)
                         ++ map (Trigger "replace:done")
                              (flat_map (map root) gs)) w2)) g = dat)
    as Hmark.
  { intros g Hgm. rewrite <- Hsnap, <- Hgm. apply map_ext. intros k.
    by apply snapshot_ext. }
  split; [done|]. split; [by rewrite Ht2, Ht1|].
  split; [by rewrite Hp2, Hp1|]. split; [by rewrite Hlen, Hsel|].
  split; [eapply Forall_impl; [exact Hall|]; exact Hmark|].
  split; [exact Hnew'|]. split; [exact Hndg|].
  split; [by rewrite Hdoc, Hd1, Hsel|]. split.
  { intros t Ht. apply Hgone. by rewrite Hsel. }
  intros t Hone. rewrite Hsel, Hone in Hlen, Hdoc.
  destruct gs as [|g [|]]; try discriminate Hlen. exists g.
  cbn [flat_map] in *. rewrite !app_nil_r in *.
  unfold replaced_each in Hdoc. cbn in Hdoc. rewrite Hd1 in Hdoc.
  split; [done|]. split; [done|]. split.
  { apply Hmark. by inversion Hall. }
  split; [exact Hnew'|]. split; [exact Hdoc|]. split.
  - intros x Hx. rewrite Hdoc. apply replace_among_inserts; [|done].
    apply (selected_in_doc w sel). fold targets. rewrite Hone. left.
  - intros pos k Hnodup Hpos Hk. rewrite Hdoc, Hpos.
    apply replace_among_fill; [by rewrite <- Hpos | done].
Qed.

(** On a page with two containers both are replaced: the first by a
    copy, the second by the elements built from the stored markup. *)
Lemma popstate_restores_witness :
  let st := mkHistState (Some (SelClass "container")) Page.fresh_div in
  let w' := exec (on_popstate (Some st)) Twin.page in
  selected Twin.page (SelClass "container") = [2; 4]
  /\ doc w' = [Node 1 [Node 8 [Node 9 []]; Node 6 [Node 7 []]]]
  /\ map (snapshot w') [Node 8 [Node 9 []]] = Page.fresh_div
  /\ map (snapshot w') [Node 6 [Node 7 []]] = Page.fresh_div
  /\ trace w' = [Trigger "replace:always" 8; Trigger "replace:always" 6;
                 Trigger "replace:done" 8; Trigger "replace:done" 6]
  /\ (2 ∉ forest_ids (doc w')) /\ (4 ∉ forest_ids (doc w')).
Proof.
  intros st w'.
  destruct (popstate_restores (SelClass "container") Page.fresh_div Twin.page)
    as (gs & _ & _ & _ & _ & _ & _ & _ & _ & Hgone & _).
  split; [reflexivity|]. split; [reflexivity|]. split; [reflexivity|].
  split; [reflexivity|]. split; [reflexivity|].
  split; apply Hgone; vm_compute; set_solver.
Defined.

(** C5.  When the request of an operation with container [c] succeeds:
    the success callback, if there is one, is called first, with the
    container and the response body, on a DOM in which nothing was
    inserted or removed yet, and returns normally.  What it does is in
    the trace: for the callback of a push-state link, the state handed to
    [replaceState] holds the markup of the container as it still stands
    in the document, and the state handed to [pushState] holds the
    response body; for a link without push-state, and without a callback,
    nothing.  Then new elements whose markup is the response body are
    created and put in the place of [c], which is no longer in the
    document; and [replace:done] is sent to the roots of the new
    elements. *)
Theorem success_replaces_container (n c : nat) (p : Pending) (body : Markup)
  (w : World) :
  pending w !! n = Some p ->
  p_container p = [c] ->
  let wa := exec (on_always [c]) (with_pending (delete n (pending w)) w) in
  let w' := exec (settle n (Success body)) w in
  let hw := callback_effects wa (p_success p) [c] body in
  exists news,
    let w2 := with_trace (trace wa ++ hw) wa in
    call_success (p_success p) [c] body wa = (Normal tt, w2)
    /\ Forall (fun e => is_history_write e = true) hw
    /\ (forall link,
          p_success p = Some (PushStateCallback link) ->
          el_pushstate (el wa link) = true ->
          hw = [ReplaceState (mkHistState (el_replace (el wa link))
                                          (outer_markup wa c));
                PushState (mkHistState (el_replace (el wa link)) body)
                          (lookup_attr "href" (el wa link))])
    /\ (forall t, first_some (subtree_in c) (shape w) = Some t ->
          outer_markup wa c = [snapshot wa t])
    /\ doc w2 = doc w /\ detached w2 = detached w
    /\ completion (settle n (Success body)) w = Normal tt
    /\ (forall x, x ∈ forest_ids news ->
          (x ∉ forest_ids (shape w)) /\ (x ∉ dom (elems w)) /\ x ≠ c)
    /\ NoDup (forest_ids news)
    /\ map (snapshot w') news = body
    /\ doc w' = replace_among c news (doc w)
    /\ (c ∉ forest_ids (doc w'))
    /\ (c ∈ forest_ids (doc w) ->
        forall x, x ∈ forest_ids news -> x ∈ forest_ids (doc w'))
    /\ (forall pos k,
          NoDup (forest_ids (doc w)) -> doc w = fill pos [k] -> root k = c ->
          doc w' = fill pos news)
    /\ trace w' = trace w ++ [Trigger "replace:always" c] ++ hw
                    ++ map (Trigger "replace:done") (map root news).
Proof.
  intros Hp Hc wa w' hw.
  set (w0 := with_pending (delete n (pending w)) w) in *.
  assert (call_success (p_success p) [c] body wa
          = (Normal tt, with_trace (trace wa ++ hw) wa)) as Hcb.
  { destruct (call_success_run (p_success p) [c] body wa)
      as (r & Hr & [->|[_ Hnil]]); [exact Hr | discriminate Hnil]. }
  assert (Forall (fun e => is_history_write e = true) hw) as Hhw.
  { subst hw. destruct (p_success p) as [[link]|]; cbn [callback_effects];
      [|done]. destruct (el_pushstate (el wa link)); [|done].
    by repeat constructor. }
  assert (forall link,
            p_success p = Some (PushStateCallback link) ->
            el_pushstate (el wa link) = true ->
            hw = history_writes wa link c body) as Hwrites.
  { intros link Hs Hps. subst hw. rewrite Hs. cbn [callback_effects].
    by rewrite Hps. }
  set (w2 := with_trace (trace wa ++ hw) wa) in *.
  assert (wa = with_trace (trace w0 ++ [Trigger "replace:always" c])
                 (with_elems (upd (remove_class active) (elems w0) c) w0))
    as Hwa by (subst wa; unfold exec; by rewrite on_always_run).
  assert (call_success (p_success p) (p_container p) body
            (exec (on_always (p_container p)) w0) = (Normal tt, w2)) as Hcb'
    by (by rewrite Hc).
  destruct (complete_success_run p body w0 w2 Hcb')
    as (news & w3 & ins & w4 & Hh & Hb & Hr & _ & Hrun).
  rewrite Hc, replaceAll_one in Hr. injection Hr as <- <-.
  exists news.
  assert (w' = with_trace (trace w2 ++ map (Trigger "replace:done")
                                          (map root news))
                 (exec (replaceWith c news) w3)) as Hw'.
  { subst w'. unfold exec at 1. rewrite (settle_run _ _ _ _ Hp). fold w0.
    by rewrite Hrun. }
  destruct Hb as ((Hd3 & Hdt3 & _ & _ & _ & He3) & Hfresh & Hnd & Hsnap).
  assert (forall x, x ∈ forest_ids news ->
            (x ∉ forest_ids (shape w)) /\ (x ∉ dom (elems w)) /\ x ≠ c)
    as Hnew.
  { intros x Hx. destruct (Hfresh x Hx) as [Hu _].
    unfold used, shape in Hu. subst w2. rewrite Hwa in Hu. cbn in Hu.
    unfold shape. repeat split.
    - intros H. apply Hu. set_solver.
    - intros H. apply Hu. unfold upd. rewrite dom_insert. set_solver.
    - intros ->. apply Hu. unfold upd. rewrite dom_insert. set_solver. }
  assert (doc w' = replace_among c news (doc w)) as Hdoc.
  { rewrite Hw'. unfold exec. rewrite replaceWith_run. cbn.
    rewrite Hd3. subst w2. by rewrite Hwa. }
  split; [exact Hcb|]. split; [exact Hhw|].
  split; [exact Hwrites|]. split.
  { intros t Ht. unfold outer_markup.
    assert (shape wa = shape w) as -> by (by rewrite Hwa).
    by rewrite Ht. }
  split; [subst w2; by rewrite Hwa|]. split; [subst w2; by rewrite Hwa|].
  split.
  { unfold completion. rewrite (settle_run _ _ _ _ Hp). fold w0.
    by rewrite Hrun. }
  split; [exact Hnew|]. split; [exact Hnd|]. split.
  { rewrite <- Hsnap. apply map_ext. intros t. apply snapshot_ext.
    rewrite Hw'. unfold exec. by rewrite replaceWith_run. }
  split; [exact Hdoc|]. split.
  { rewrite Hdoc. apply replace_among_gone. intros Hin.
    by destruct (Hnew c Hin) as (_ & _ & ?). }
  split.
  { intros Hin x Hx. rewrite Hdoc. by apply replace_among_inserts. }
  split.
  { intros pos k Hnodup Hpos Hk. rewrite Hdoc, Hpos.
    apply replace_among_fill; [by rewrite <- Hpos | done]. }
  rewrite Hw'. cbn. subst w2. cbn. rewrite Hwa. cbn.
  by rewrite <- !app_assoc.
Qed.

Lemma success_replaces_container_witness :
  let w := exec (on_click_link 3 Page.click) Page.idle in
  let wa := exec (on_always [2]) (with_pending (delete 0 (pending w)) w) in
  let w' := exec (settle 0 (Success Page.fresh_div)) w in
  let old := mkHistState (Some (SelClass "container"))
                         (outer_markup Page.idle 2) in
  let new := mkHistState (Some (SelClass "container")) Page.fresh_div in
  pending w !! 0 = Some (mkPending [2] (Some (PushStateCallback 3)))
  /\ doc w = [Node 1 [Node 2 [Node 3 []; Node 4 [Node 5 []; Node 6 []]]]]
  /\ callback_effects wa (Some (PushStateCallback 3)) [2] Page.fresh_div
     = [ReplaceState old; PushState new (Some "/foo")]
  /\ trace w' = trace w ++ [Trigger "replace:always" 2; ReplaceState old;
                            PushState new (Some "/foo");
                            Trigger "replace:done" 7]
  /\ doc w' = [Node 1 [Node 7 [Node 8 []]]]
  /\ map (snapshot w') [Node 7 [Node 8 []]] = Page.fresh_div
  /\ 2 ∉ forest_ids (doc w').
Proof.
  intros w wa w' old new.
  assert (pending w !! 0 = Some (mkPending [2] (Some (PushStateCallback 3))))
    as Hp by reflexivity.
  destruct (success_replaces_container 0 2 _ Page.fresh_div w Hp eq_refl)
    as (news & _ & _ & Hwrites & _ & _ & _ & _ & _ & _ & _ & _ & Hgone & _).
  split; [exact Hp|]. split; [reflexivity|]. split.
  { etrans; [apply (Hwrites 3); reflexivity|]. reflexivity. }
  split; [reflexivity|]. split; [reflexivity|].
  split; [reflexivity|]. exact Hgone.
Defined.

(** C6.  When a request fails, the marker is cleared on the container,
    [replace:always] and then [replace:fail] are sent to it, and that is
    all: no request is issued (the trace gains no [Ajax], nothing is added
    to the requests in flight), nothing is inserted or removed, and every
    element other than the container keeps its state; the container only
    loses the marker. *)
Theorem failure_clears_and_notifies (n : nat) (p : Pending) (w : World) :
  pending w !! n = Some p ->
  let w' := exec (settle n Failure) w in
  completion (settle n Failure) w = Normal tt
  /\ trace w' = trace w ++ map (Trigger "replace:always") (p_container p)
                  ++ map (Trigger "replace:fail") (p_container p)
  /\ pending w' = delete n (pending w)
  /\ doc w' = doc w /\ detached w' = detached w
  /\ (forall c, c ∈ p_container p ->
        el w' c = remove_class active (el w c)
        /\ hasClass w' active c = false)
  /\ (forall i, i ∉ p_container p -> elems w' !! i = elems w !! i).
Proof.
  intros Hp. unfold exec, completion. rewrite (settle_run _ _ _ _ Hp).
  rewrite complete_failure_run. cbn.
  repeat split; try done.
  - unfold el. cbn. rewrite upd_all_member; [done| |done].
    intros e. apply remove_class_idem.
  - unfold hasClass, el. cbn. rewrite upd_all_member; [|  |done].
    + cbn [default]. apply has_class_remove.
    + intros e. apply remove_class_idem.
  - intros i Hi. by apply upd_all_other.
Qed.

Lemma failure_clears_and_notifies_witness :
  let w := exec (on_click_link 3 Page.click) Page.idle in
  let w' := exec (settle 0 Failure) w in
  pending w !! 0 = Some (mkPending [2] (Some (PushStateCallback 3)))
  /\ trace w' = trace w ++ [Trigger "replace:always" 2;
                             Trigger "replace:fail" 2]
  /\ hasClass w active 2 = true
  /\ hasClass w' active 2 = false
  /\ doc w' = Page.tree.
Proof.
  intros w w'.
  assert (pending w !! 0 = Some (mkPending [2] (Some (PushStateCallback 3))))
    as Hp by reflexivity.
  destruct (failure_clears_and_notifies 0 _ w Hp)
    as (_ & Htr & _ & Hdoc & _ & Hc & _).
  split; [exact Hp|]. split; [exact Htr|]. split; [reflexivity|].
  split; [|exact Hdoc].
  apply (Hc 2). left.
Defined.




(** The gate of lines 67-77, for a link whose [data-pushstate] reads as
    true: the click does nothing at all when the history API is missing or
    when shift or meta is held.  The handler returns before
    [preventDefault], so the browser navigates; no request is issued and
    no history entry is written. *)
Theorem pushstate_gate_takes_no_action (w : World) (link : nat)
  (event : Event) :
  el_pushstate (el w link) = true ->
  history_supported w = false \/ shiftKey event = true
    \/ metaKey event = true ->
  on_click_link link event w = (Normal tt, w).
Proof.
  intros Hps Hgate. unfold on_click_link. rewrite run_bind.
  cbn [data_pushstate reads]. rewrite Hps, run_bind. cbn [reads].
  destruct (history_supported w); cbn; [|done].
  destruct Hgate as [?|[->| ->]]; [done| |]; cbn; [done|].
  by rewrite orb_true_r.
Qed.

Lemma pushstate_gate_witness :
  el_pushstate (el Page.idle 3) = true
  /\ shiftKey Page.shift_click = true
  /\ on_click_link 3 Page.shift_click Page.idle = (Normal tt, Page.idle).
Proof.
  split; [reflexivity|]. split; [reflexivity|].
  apply pushstate_gate_takes_no_action; [reflexivity|].
  right. left. reflexivity.
Defined.

(** C8, on the code.  The link of [Bare.page] carries the push-state
    annotation as an attribute without a value, the way the usage notes
    write it.  [$link.data('pushstate')] is then the empty string, and the
    tests of lines 67 and 84 take it for false.  So the gate is skipped:
    a click with shift held, and a click in a browser without the history
    API, are taken over ([preventDefault]) and issue the request instead
    of being left to the browser; and when the request succeeds, nothing
    is written to the history. *)
Lemma bare_pushstate_link_skips_the_gate :
  let w := exec (on_click_link 3 Page.shift_click) Bare.page in
  let w' := exec (settle 0 (Success Page.fresh_div)) w in
  lookup_attr "data-pushstate" (el Bare.page 3) = Some ""
  /\ el_pushstate (el Bare.page 3) = false
  /\ shiftKey Page.shift_click = true
  /\ trace w = [PreventDefault; Trigger "replace:start" 2;
                Ajax (Some "/foo") None None]
  /\ history_supported Bare.old_browser = false
  /\ trace (exec (on_click_link 3 Page.click) Bare.old_browser)
     = [PreventDefault; Trigger "replace:start" 2;
        Ajax (Some "/foo") None None]
  /\ trace w' = trace w ++ [Trigger "replace:always" 2;
                            Trigger "replace:done" 7]
  /\ doc w' = [Node 1 [Node 7 [Node 8 []]]].
Proof. intros w w'. repeat split; reflexivity. Qed.

(** C9, on the code.  The link of [Stray.page] asks for push-state and
    its selector matches no ancestor.  The click issues the request all
    the same, with an empty container and without any notification.  When
    the request succeeds, the success callback reads [$container[0]
    .outerHTML] of a container that is not there: a [TypeError] is
    thrown, the history is not written and the rest of the [done]
    callback does not run. *)
Lemma unresolved_pushstate_link_throws :
  let w := exec (on_click_link 3 Page.click) Stray.page in
  container_of Stray.page 3 (el_replace (el Stray.page 3)) = []
  /\ trace w = [PreventDefault; Ajax (Some "/foo") None None]
  /\ pending w = [mkPending [] (Some (PushStateCallback 3))]
  /\ settle 0 (Success Page.fresh_div) w
     = (Throw TypeError, with_pending [] w).
Proof. by vm_compute. Qed.

(** C10, as the code has it.  Every click on a button whose form is [f],
    whatever the type of the button and whatever follows, appends to [f]
    one new hidden input that copies the name and value of the button;
    nothing is removed from the form and no existing element changes.
    After the clicks [bs] the controls of the form are the old ones
    followed by the new inputs in the order of the clicks, and the
    serialized fields are the old ones followed by the name and value of
    every clicked button that has a name, not only the last one.  (A
    control without a name is never serialized, so the input of a
    nameless button is in the form but not in the payload.) *)
Theorem every_click_adds_a_hidden_input (f : nat) (bs : list nat)
  (w : World) :
  NoDup (forest_ids (shape w)) ->
  f ∈ forest_ids (shape w) ->
  (forall b, b ∈ bs ->
     b ∈ forest_ids (shape w)
     /\ closest_on w (SelTag "form") (path_of w b) = [f]) ->
  let w' := exec (forM_ on_click_button bs) w in
  exists inputs,
    completion (forM_ on_click_button bs) w = Normal tt
    /\ length inputs = length bs
    /\ Forall (fun i => i ∉ used w) inputs
    /\ map (el w') inputs = map (mirror w) bs
    /\ controls w' f = controls w f ++ inputs
    /\ (forall x, x ∈ used w -> el w' x = el w x)
    /\ fields_of w' f = fields_of w f ++ flat_map (button_pair w) bs.
Proof.
  intros Hnd Hf Hbs w'.
  destruct (subtree_of_member f (shape w) Hnd Hf) as (ks & Hsub & Hfks & Hks).
  destruct (clicks_spec f bs w ks Hsub Hfks) as
    (inputs & Hrun & Hnew & Hmir & Hctl & Hsame & Hfld & _).
  { intros y Hy. by apply shape_in_used, Hks. }
  { intros b Hb. destruct (Hbs b Hb) as [Hin Hform].
    split; [by apply shape_in_used | done]. }
  fold w' in Hrun, Hmir, Hctl, Hsame, Hfld.
  exists inputs. unfold completion. rewrite Hrun.
  repeat (split; [done|]). split; [|done].
  apply (f_equal length) in Hmir. by rewrite !length_map in Hmir.
Qed.

Lemma every_click_adds_a_hidden_input_witness :
  let w' := exec (forM_ on_click_button [6; 7; 6]) Nameless.page in
  NoDup (forest_ids (shape Nameless.page))
  /\ controls Nameless.page 4 = [5; 6; 7]
  /\ controls w' 4 = [5; 6; 7; 8; 9; 10]
  /\ map (el w') [8; 9; 10]
     = map (mirror Nameless.page) [6; 7; 6]
  /\ fields_of Nameless.page 4 = [("q", "hi")]
  /\ fields_of w' 4 = [("q", "hi"); ("go", "1"); ("go", "1")].
Proof.
  intros w'.
  assert (NoDup (forest_ids (shape Nameless.page))) as Hnd
    by (vm_compute; repeat constructor; set_solver).
  assert (4 ∈ forest_ids (shape Nameless.page)) as Hf
    by (vm_compute; set_solver).
  destruct (every_click_adds_a_hidden_input 4 [6; 7; 6] Nameless.page
              Hnd Hf) as (inputs & _ & _ & _ & _ & _ & _ & Hfld).
  { intros b Hb. split.
    - vm_compute. set_solver.
    - apply elem_of_cons in Hb as [->|Hb]; [reflexivity|].
      apply elem_of_cons in Hb as [->|Hb]; [reflexivity|].
      apply list_elem_of_singleton in Hb as ->. reflexivity. }
  split; [exact Hnd|]. split; [reflexivity|]. split; [reflexivity|].
  split; [reflexivity|]. split; [reflexivity|]. exact Hfld.
Defined.

(** C10, as stated, fails for a button without a name: after a click on
    button 7 of [Nameless.page] the form has one more control, a hidden
    input with the (empty) name and the value of the button, and the
    serialized fields are what they were before. *)
Lemma nameless_button_is_not_serialized :
  let w' := exec (on_click_button 7) Nameless.page in
  closest_on Nameless.page (SelTag "form") (path_of Nameless.page 7) = [4]
  /\ controls w' 4 = controls Nameless.page 4 ++ [8]
  /\ el w' 8 = mirror Nameless.page 7
  /\ (el_name (el w' 8), el_value (el w' 8)) = ("", "2")
  /\ fields_of w' 4 = fields_of Nameless.page 4
  /\ ("", "2") ∉ fields_of w' 4.
Proof.
  intros w'. repeat (split; [reflexivity|]).
  vm_compute. set_solver.
Qed.

(** * Further properties *)

(** ** The reach of the guard *)

Lemma closest_on_cases (w : World) (sel : Selector) (chain : list nat) :
  closest_on w sel chain = []
  \/ exists c, closest_on w sel chain = [c] /\ c ∈ chain.
Proof.
  induction chain as [|x up IH]; [by left|]. cbn [closest_on].
  destruct (matches sel (map (el w) (x :: up))).
  - right. exists x. split; [done | left].
  - destruct IH as [->|(c & -> & Hc)]; [by left|].
    right. exists c. split; [done | by right].
Qed.

Lemma path_in_head (i : nat) (t : Tree) (p : list nat) :
  path_in i t = Some p -> exists up, p = i :: up.
Proof.
  revert p. induction t as [j ks IH] using tree_ind. intros p.
  rewrite path_in_node. destruct (Nat.eqb_spec i j) as [->|_].
  { intros [= <-]. by eexists. }
  destruct (first_some (path_in i) ks) as [q|] eqn:Hq; [|done].
  intros [= <-]. apply first_some_elem in Hq as (k & Hk & Hq).
  rewrite Forall_forall in IH. destruct (IH k Hk q Hq) as [up ->].
  by eexists.
Qed.

Lemma path_of_head (w : World) (i : nat) :
  exists up, path_of w i = i :: up.
Proof.
  unfold path_of.
  destruct (first_some (path_in i) (shape w)) as [p|] eqn:Hp; cbn [default].
  - apply first_some_elem in Hp as (k & _ & Hp). by eapply path_in_head.
  - by eexists.
Qed.

(** Setting the marker changes the class list of an element and nothing
    else about it. *)
Lemma add_class_fields (c : string) (e : Element) :
  el_replace (add_class c e) = el_replace e
  /\ el_pushstate (add_class c e) = el_pushstate e
  /\ el_attrs (add_class c e) = el_attrs e.
Proof. unfold add_class. by destruct (has_class c e). Qed.

Lemma el_started (w : World) (container : list nat) (url : option string)
  (options : Options) (x : nat) :
  el (started w container url options) x
  = if decide (x ∈ container) then add_class active (el w x) else el w x.
Proof.
  unfold started, el. cbn [elems with_pending with_trace with_elems].
  destruct (decide (x ∈ container)) as [Hin|Hout].
  - by rewrite upd_all_member; [|apply add_class_idem|].
  - by rewrite upd_all_other.
Qed.

Lemma hasClass_started (w : World) (container : list nat)
  (url : option string) (options : Options) (x : nat) :
  hasClass (started w container url options) active x
  = if decide (x ∈ container) then true else hasClass w active x.
Proof.
  unfold hasClass. rewrite el_started.
  destruct (decide (x ∈ container)); [apply has_class_add | done].
Qed.

Lemma marked_started (w : World) (container : list nat)
  (url : option string) (options : Options) (this2 : nat) :
  marked (started w container url options) this2
  <-> marked w this2
      \/ exists c, c ∈ container /\ c ∈ path_of w this2.
Proof.
  unfold marked.
  change (path_of (started w container url options) this2)
    with (path_of w this2).
  setoid_rewrite hasClass_started. split.
  - intros (x & Hx & Hc).
    destruct (decide (x ∈ container)); [right|left]; eauto.
  - intros [(x & Hx & Hc)|(c & Hc & Hp)].
    + exists x. split; [done|]. by destruct (decide (x ∈ container)).
    + exists c. split; [done|]. by rewrite decide_True.
Qed.

(** X1.  Once [ajaxReplace] has started an operation, an element is
    behind the guard exactly when it was before or when the container of
    the operation is the element itself or one of its ancestors.  So an
    operation whose selector matched nothing guards nothing, and an
    operation on an inner container does not guard the elements around
    it. *)
Theorem operation_guards_its_container (w : World) (this : nat)
  (url : option string) (options : Options) (this2 : nat) :
  ¬ marked w this ->
  marked (exec (ajaxReplace this url options) w) this2
  <-> marked w this2
      \/ exists c, c ∈ container_of w this (selector options)
                   /\ c ∈ path_of w this2.
Proof.
  intros Hm. unfold exec. rewrite ajaxReplace_unmarked by done. cbn [snd].
  apply marked_started.
Qed.

Lemma operation_guards_its_container_witness :
  ¬ marked Page.idle 3
  /\ (marked (exec (ajaxReplace 3 None (mkOptions (Some (SelClass "container"))
                                                   None None None))
                   Page.idle) 6
      <-> marked Page.idle 6
          \/ exists c, c ∈ container_of Page.idle 3 (Some (SelClass "container"))
                       /\ c ∈ path_of Page.idle 6).
Proof.
  assert (¬ marked Page.idle 3) as Hm.
  { rewrite marked_closest. intros H. by apply H. }
  split; [exact Hm|].
  apply (operation_guards_its_container Page.idle 3 None
           (mkOptions (Some (SelClass "container")) None None None) 6 Hm).
Defined.

Lemma gate_started (w : World) (container : list nat) (url : option string)
  (options : Options) (link : nat) (event : Event) :
  el_pushstate (el (started w container url options) link)
    && (negb (history_supported (started w container url options))
        || shiftKey event || metaKey event)
  = el_pushstate (el w link)
      && (negb (history_supported w) || shiftKey event || metaKey event).
Proof.
  rewrite el_started. cbn [history_supported started with_pending with_trace
                           with_elems].
  destruct (decide (link ∈ container)); [|done].
  by destruct (add_class_fields active (el w link)) as (_ & -> & _).
Qed.

(** X2.  While an operation is in progress, a submit or a click (one
    that passes the push-state gate) on an element inside its container,
    or on the container itself, only calls [preventDefault]: no second
    request is issued, no notification is sent and nothing changes.  This
    holds for the triggering element itself, so a double click or a double
    submit gives one request. *)
Theorem second_trigger_in_container_is_dropped (w : World) (this : nat)
  (url : option string) (options : Options) (this2 : nat) (event : Event) :
  ¬ marked w this ->
  (exists c, c ∈ container_of w this (selector options)
             /\ c ∈ path_of w this2) ->
  let w1 := exec (ajaxReplace this url options) w in
  on_submit_form this2 w1
  = (Normal tt, with_trace (trace w1 ++ [PreventDefault]) w1)
  /\ (el_pushstate (el w this2)
        && (negb (history_supported w) || shiftKey event || metaKey event)
      = false ->
      on_click_link this2 event w1
      = (Normal tt, with_trace (trace w1 ++ [PreventDefault]) w1))
  /\ (forall c, c ∈ container_of w this (selector options) ->
        c ∈ path_of w this).
Proof.
  intros Hm Hin w1.
  assert (w1 = started w (container_of w this (selector options)) url options)
    as Hw1 by (subst w1; unfold exec; by rewrite ajaxReplace_unmarked).
  assert (marked w1 this2) as Hm2.
  { rewrite Hw1. apply marked_started. by right. }
  split; [|split].
  - rewrite on_submit_form_run. by rewrite ajaxReplace_marked.
  - intros Hgate. rewrite on_click_link_run.
    + by rewrite ajaxReplace_marked.
    + rewrite Hw1 at 1 2. by rewrite gate_started.
  - intros c Hc. by apply closest_on_elem in Hc.
Qed.

Lemma second_trigger_in_container_is_dropped_witness :
  let w1 := exec (on_click_link 3 Page.click) Page.idle in
  ¬ marked Page.idle 3
  /\ 2 ∈ container_of Page.idle 3 (Some (SelClass "container"))
  /\ 2 ∈ path_of Page.idle 4
  /\ trace (exec (on_click_link 3 Page.click) w1)
     = [PreventDefault; Trigger "replace:start" 2;
        Ajax (Some "/foo") None None; PreventDefault]
  /\ trace (exec (on_submit_form 4) w1)
     = [PreventDefault; Trigger "replace:start" 2;
        Ajax (Some "/foo") None None; PreventDefault]
  /\ length (pending (exec (on_submit_form 4) w1)) = 1.
Proof.
  intros w1.
  assert (¬ marked Page.idle 3) as Hm.
  { rewrite marked_closest. intros H. by apply H. }
  assert (2 ∈ container_of Page.idle 3 (Some (SelClass "container"))) as Hc
    by (vm_compute; left).
  assert (2 ∈ path_of Page.idle 4) as H4 by (vm_compute; right; left).
  assert (2 ∈ path_of Page.idle 3) as H3 by (vm_compute; right; left).
  split; [exact Hm|]. split; [exact Hc|]. split; [exact H4|].
  set (o := mkOptions (Some (SelClass "container")) None None
                      (Some (PushStateCallback 3))).
  set (w0 := with_trace [PreventDefault] Page.idle).
  destruct (second_trigger_in_container_is_dropped w0 3 (Some "/foo") o 3
              Page.click Hm) as (_ & Hclick & _).
  { exists 2. by split. }
  destruct (second_trigger_in_container_is_dropped w0 3 (Some "/foo") o 4
              Page.click Hm) as (Hsubmit & _ & _).
  { exists 2. by split. }
  split.
  { change w1 with (exec (ajaxReplace 3 (Some "/foo") o) w0).
    unfold exec at 1. rewrite Hclick; reflexivity. }
  change w1 with (exec (ajaxReplace 3 (Some "/foo") o) w0).
  unfold exec at 1 3. rewrite Hsubmit. split; reflexivity.
Defined.

(** ** A failed operation *)

Lemma remove_add_class (c : string) (e : Element) :
  has_class c e = false -> remove_class c (add_class c e) = e.
Proof.
  intros H. unfold add_class. rewrite H.
  unfold remove_class, set_classes. cbn.
  destruct e as [t cs a r p n v ty d ch]. cbn in *. f_equal.
  unfold has_class in H. cbn in H.
  rewrite List.filter_app. cbn. rewrite String.eqb_refl. cbn.
  rewrite app_nil_r. induction cs as [|d' l IH]; [done|].
  cbn in *. apply orb_false_elim in H as [H1 H2]. rewrite H1. cbn.
  by rewrite IH.
Qed.

(** X3.  An operation whose request fails leaves the page as it found
    it: after [ajaxReplace] and the failure of its request the document,
    every element object and the requests in flight are what they were
    before the trigger, the guard is open again, and the trace has gained
    [replace:start], the request, [replace:always] and [replace:fail], in
    this order. *)
Theorem failed_operation_restores_the_page (w : World) (this : nat)
  (url : option string) (options : Options) :
  ¬ marked w this ->
  (forall c, c ∈ container_of w this (selector options) ->
             is_Some (elems w !! c)) ->
  let container := container_of w this (selector options) in
  let w2 := exec (settle (length (pending w)) Failure)
                 (exec (ajaxReplace this url options) w) in
  w2 = with_trace
         (trace w ++ map (Trigger "replace:start") container
            ++ [Ajax url (method options) (data options)]
            ++ map (Trigger "replace:always") container
            ++ map (Trigger "replace:fail") container) w
  /\ ¬ marked w2 this.
Proof.
  intros Hm Hex container w2.
  assert (w2 = with_trace
         (trace w ++ map (Trigger "replace:start") container
            ++ [Ajax url (method options) (data options)]
            ++ map (Trigger "replace:always") container
            ++ map (Trigger "replace:fail") container) w) as Hw2.
  { subst w2. unfold exec at 2. rewrite ajaxReplace_unmarked by done.
    cbn [snd]. fold container. unfold exec.
    set (p := mkPending container (success options)).
    rewrite (settle_run _ _ p).
    2:{ cbn. by apply list_lookup_middle. }
    change (pending (started w container url options))
      with (pending w ++ [p]).
    rewrite (delete_middle (pending w) [] p), app_nil_r.
    rewrite complete_failure_run.
    cbn [p p_container started with_pending with_trace with_elems
         doc detached elems history_supported pending trace].
    assert (foldl (upd (remove_class active))
              (foldl (upd (add_class active)) (elems w) container) container
            = elems w) as ->.
    { destruct (closest_on_cases w (default SelAny (selector options))
                  (path_of w this)) as [Hnil|(c & Hc & Hpath)].
      - change (container = []) in Hnil. by rewrite Hnil.
      - change (container = [c]) in Hc. rewrite Hc. cbn. unfold upd. rewrite lookup_insert_eq. cbn [default].
        rewrite insert_insert_eq.
        destruct (Hex c) as [e He]; [fold container; rewrite Hc; left|].
        rewrite He. cbn [default]. unfold id. rewrite remove_add_class.
        + by apply insert_id.
        + destruct (has_class active e) eqn:Hcl; [|done].
          destruct Hm. exists c. split; [done|].
          unfold hasClass, el. by rewrite He. }
    f_equal. unfold with_trace. rewrite <- !app_assoc. by destruct w. }
  split; [exact Hw2|]. rewrite Hw2. exact Hm.
Qed.

Lemma failed_operation_restores_the_page_witness :
  let w2 := exec (settle 0 Failure) (exec (on_submit_form 4) Page.idle) in
  ¬ marked Page.idle 4
  /\ w2 = with_trace
            [PreventDefault; Trigger "replace:start" 2;
             Ajax (Some "/bar") (Some "POST") (Some [("q", "hi")]);
             Trigger "replace:always" 2; Trigger "replace:fail" 2]
            Page.idle
  /\ ¬ marked w2 4.
Proof.
  intros w2.
  assert (¬ marked Page.idle 4) as Hm.
  { rewrite marked_closest. intros H. by apply H. }
  split; [exact Hm|].
  set (o := mkOptions (Some (SelClass "container")) (Some "POST")
                      (Some [("q", "hi")]) None).
  destruct (failed_operation_restores_the_page
              (with_trace [PreventDefault] Page.idle) 4 (Some "/bar") o Hm)
    as [Heq Hopen].
  { intros c Hc. vm_compute in Hc.
    apply list_elem_of_singleton in Hc as ->. by eexists. }
  split; [exact Heq | exact Hopen].
Defined.

(** ** The default container *)

(** X4.  Without a selector ([data-replace] with no value) the container
    is the triggering element itself: the operation marks it, registers
    its callbacks on it, and so replaces the element itself when the
    request succeeds. *)
Theorem default_container_is_the_element (w : World) (this : nat)
  (url : option string) (options : Options) :
  selector options = None ->
  ¬ marked w this ->
  let w1 := exec (ajaxReplace this url options) w in
  container_of w this (selector options) = [this]
  /\ pending w1 = pending w ++ [mkPending [this] (success options)]
  /\ hasClass w1 active this = true
  /\ trace w1 = trace w ++ [Trigger "replace:start" this;
                             Ajax url (method options) (data options)].
Proof.
  intros Hsel Hm w1.
  assert (container_of w this (selector options) = [this]) as Hc.
  { rewrite Hsel. unfold container_of.
    destruct (path_of_head w this) as [up ->]. reflexivity. }
  subst w1. unfold exec. rewrite ajaxReplace_unmarked by done. cbn [snd].
  rewrite Hc. split; [done|]. split; [done|]. split; [|done].
  rewrite hasClass_started. by rewrite decide_True by left.
Qed.

Lemma default_container_is_the_element_witness :
  let w1 := exec (on_click_link 3 Page.click) Plain.page in
  el_replace (el Plain.page 3) = None
  /\ ¬ marked Plain.page 3
  /\ pending w1 = [mkPending [3] (Some (PushStateCallback 3))]
  /\ hasClass w1 active 3 = true.
Proof.
  intros w1.
  assert (¬ marked Plain.page 3) as Hm.
  { rewrite marked_closest. intros H. by apply H. }
  split; [reflexivity|]. split; [exact Hm|].
  destruct (default_container_is_the_element
              (with_trace [PreventDefault] Plain.page) 3 (Some "/foo")
              (mkOptions None None None (Some (PushStateCallback 3)))
              eq_refl Hm) as (_ & Hp & Hcl & _).
  split; [exact Hp | exact Hcl].
Defined.

(** ** Links that do not ask for push-state *)

(** X5.  The modifier keys and the history API matter to push-state
    links only.  A click on a link that does not ask for push-state is
    always taken over: the handler calls [preventDefault] whatever keys
    are held, and what it does is the same for every event. *)
Theorem plain_link_is_always_intercepted (w : World) (link : nat)
  (event event' : Event) :
  el_pushstate (el w link) = false ->
  on_click_link link event w = on_click_link link event' w
  /\ exists rest,
       trace (exec (on_click_link link event) w)
       = trace w ++ PreventDefault :: rest.
Proof.
  intros Hps.
  assert (forall ev,
    el_pushstate (el w link)
      && (negb (history_supported w) || shiftKey ev || metaKey ev) = false)
    as Hgate by (intros ev; by rewrite Hps).
  split; [by rewrite !on_click_link_run|].
  unfold exec. rewrite on_click_link_run by done.
  destruct (closest_on w (SelClass active) (path_of w link)) as [|c l] eqn:Hc.
  - assert (¬ marked w link) as Hm by (rewrite marked_closest, Hc; by intros []).
    rewrite ajaxReplace_after_prevent by done. by eexists.
  - assert (marked w link) as Hm by (by rewrite marked_closest, Hc).
    rewrite ajaxReplace_marked by done. by exists [].
Qed.

Lemma plain_link_is_always_intercepted_witness :
  el_pushstate (el Plain.page 3) = false
  /\ on_click_link 3 Page.shift_click Plain.page
     = on_click_link 3 Page.click Plain.page
  /\ trace (exec (on_click_link 3 Page.shift_click) Plain.page)
     = [PreventDefault; Trigger "replace:start" 3;
        Ajax (Some "/foo") None None].
Proof.
  split; [reflexivity|].
  destruct (plain_link_is_always_intercepted Plain.page 3 Page.shift_click
              Page.click eq_refl) as [Heq _].
  split; [exact Heq | reflexivity].
Defined.

(** ** What a settled request does *)

Lemma effects_of_intro (a : Action) (w : World) (l : list Effect) :
  trace (exec (run a) w) = trace w ++ l -> effects_of a w = l.
Proof. intros H. unfold effects_of. rewrite H. apply drop_app_length. Qed.

(** The success path of a request: the notifications of [always], what
    the callback does, and one [replace:done] per element handed out. *)
Lemma complete_success_spec (p : Pending) (body : Markup) (w : World) :
  let wa := exec (on_always (p_container p)) w in
  let w' := exec (complete p (Success body)) w in
  exists ins,
    trace w' = trace w ++ map (Trigger "replace:always") (p_container p)
                 ++ callback_effects wa (p_success p) (p_container p) body
                 ++ map (Trigger "replace:done") ins
    /\ pending w' = pending w
    /\ history_supported w' = history_supported w
    /\ elems wa ⊆ elems w'.
Proof.
  intros wa w'. subst w'. unfold exec in *. unfold complete.
  rewrite run_bind. subst wa. rewrite on_always_run. cbn [snd].
  set (wa := with_trace _ _). unfold on_done. rewrite run_bind.
  destruct (call_success_run (p_success p) (p_container p) body wa)
    as (r & -> & [->|[-> _]]).
  - rewrite run_bind.
    destruct (html_spec body
                (with_trace
                   (trace wa ++ callback_effects wa (p_success p)
                                  (p_container p) body) wa))
      as (news & w3 & -> & Hg & _).
    rewrite run_bind.
    destruct (replaceAll_frame news (p_container p) w3)
      as (ins & w4 & -> & Hf).
    rewrite run_trigger. cbn [snd trace with_trace pending
                              history_supported elems].
    exists ins. pose proof (grows_sub _ _ Hg) as Hsub.
    destruct Hg as (_&_&Hh3&Hp3&Ht3&_), Hf as (Hh4&Hp4&Ht4&Hsub4).
    rewrite Ht4, Ht3, Hp4, Hp3, Hh4, Hh3. subst wa. cbn.
    split; [by rewrite <- !app_assoc|]. split; [done|]. split; [done|].
    etrans; [|exact Hsub4]. exact Hsub.
  - exists []. cbn. split; [|done]. by rewrite app_nil_r, <- app_assoc.
Qed.

Lemma callback_effects_ext (w w' : World) (succ : option Callback)
  (container : list nat) (body : Markup) :
  doc w = doc w' -> detached w = detached w' -> elems w = elems w' ->
  callback_effects w succ container body
  = callback_effects w' succ container body.
Proof.
  intros Hd Hdt He. destruct succ as [[link]|]; [|done].
  destruct container as [|c rest]; [done|]. cbn [callback_effects].
  unfold history_writes, el. rewrite He.
  by rewrite (outer_markup_ext w w' c).
Qed.

Lemma settle_success_effects (n : nat) (p : Pending) (body : Markup)
  (w : World) :
  pending w !! n = Some p ->
  let wa := exec (on_always (p_container p)) w in
  let w' := exec (settle n (Success body)) w in
  exists ins,
    effects_of (Settle n (Success body)) w
    = map (Trigger "replace:always") (p_container p)
        ++ callback_effects wa (p_success p) (p_container p) body
        ++ map (Trigger "replace:done") ins
    /\ pending w' = delete n (pending w)
    /\ history_supported w' = history_supported w
    /\ elems wa ⊆ elems w'.
Proof.
  intros Hn wa w'.
  destruct (complete_success_spec p body
              (with_pending (delete n (pending w)) w))
    as (ins & Ht & Hp & Hh & He).
  exists ins. subst w'. unfold exec in *.
  rewrite (settle_run n _ p) by done.
  split; [|split; [exact Hp|split; [exact Hh|]]].
  2:{ etrans; [|exact He]. subst wa. unfold exec. by rewrite !on_always_run. }
  apply effects_of_intro. cbn [run]. unfold exec.
  rewrite (settle_run n _ p) by done. rewrite Ht. cbn [trace with_pending].
  do 2 f_equal. f_equal.
  apply callback_effects_ext; subst wa; by rewrite !on_always_run.
Qed.

(** ** A response that arrives late *)

Lemma doc_in_used (w : World) (x : nat) :
  x ∈ forest_ids (doc w) -> x ∈ used w.
Proof.
  intros Hx. unfold used, shape. apply elem_of_union. right.
  apply elem_of_list_to_set. rewrite forest_ids_app. apply elem_of_app.
  by left.
Qed.

Lemma roots_in_forest (ts : list Tree) (i : nat) :
  i ∈ map root ts -> i ∈ forest_ids ts.
Proof.
  intros (k & -> & Hk)%list_elem_of_fmap. apply elem_of_forest_ids.
  exists k. split; [done | apply root_in_ids].
Qed.

(** Targets that are not in the document: the document stays as it is,
    and every target still gets its copy of the new elements. *)
Lemma replaceAll_absent (news : list Tree) (targets : list nat) (w : World) :
  (forall t, t ∈ targets -> t ∉ forest_ids (doc w)) ->
  (forall x, x ∈ forest_ids news -> x ∉ forest_ids (doc w)) ->
  exists ins w',
    replaceAll news targets w = (Normal ins, w')
    /\ frame w w' /\ doc w' = doc w
    /\ (forall i, i ∈ ins -> i ∉ forest_ids (doc w))
    /\ length ins = length targets * length news.
Proof.
  revert w. induction targets as [|t rest IH]; intros w Ht Hnews.
  - exists [], w. split; [done|]. split; [apply frame_refl|].
    split; [done|]. split; [|done]. intros i Hi. by apply elem_of_nil in Hi.
  - assert (forall ts f, t ∉ forest_ids f -> replace_among t ts f = f) as Habs
      by (intros ts; apply replace_absent).
    destruct rest as [|t' rest].
    + exists (map root news), (exec (replaceWith t news) w).
      split; [apply replaceAll_one|]. split; [by repeat split|].
      unfold exec. rewrite replaceWith_run. cbn [snd doc with_shape].
      split; [apply Habs, Ht; left|]. split.
      * intros i Hi. by apply Hnews, roots_in_forest.
      * rewrite length_map. cbn. lia.
    + destruct (clone_spec news w) as (c & w1 & Hc & Hg & Hfresh & _ & Hsnap).
      set (w2 := exec (replaceWith t c) w1).
      assert (doc w2 = doc w) as Hd2.
      { subst w2. unfold exec. rewrite replaceWith_run. cbn.
        destruct Hg as (-> & _). apply Habs, Ht. left. }
      destruct (IH w2) as (r & w' & Hr & Hf & Hd & Hins & Hlen).
      { intros t0 Ht0. rewrite Hd2. apply Ht. by right. }
      { intros x Hx. rewrite Hd2. by apply Hnews. }
      exists (map root c ++ r), w'.
      split; [by rewrite replaceAll_cons2, Hc; fold w2; rewrite Hr|].
      split.
      { eapply frame_trans; [|exact Hf].
        eapply frame_trans; [apply grows_frame, Hg|]. by repeat split. }
      split; [congruence|]. split.
      * intros i [Hi|Hi]%elem_of_app.
        -- intros Hin. apply roots_in_forest in Hi.
           destruct (Hfresh i Hi) as [Hn _]. by apply Hn, doc_in_used.
        -- rewrite <- Hd2. by apply Hins.
      * rewrite length_app, length_map, Hlen.
        apply (f_equal (@length _)) in Hsnap. rewrite !length_map in Hsnap.
        rewrite Hsnap. cbn [length]. lia.
Qed.

(** X6.  A response can arrive after its container has left the document
    (another operation, or a step through the history, replaced it or
    something around it).  The script does not notice: the document stays
    as it is, yet the callback still writes to the history as if the
    content had been shown, and every container still gets its copy of the
    response, whose elements receive [replace:done] outside the
    document. *)
Theorem late_response_leaves_the_document (n : nat) (p : Pending)
  (body : Markup) (w : World) :
  pending w !! n = Some p ->
  (forall c, c ∈ p_container p -> c ∉ forest_ids (doc w)) ->
  let wa := exec (on_always (p_container p)) w in
  let w' := exec (settle n (Success body)) w in
  doc w' = doc w
  /\ exists ins,
       effects_of (Settle n (Success body)) w
       = map (Trigger "replace:always") (p_container p)
           ++ callback_effects wa (p_success p) (p_container p) body
           ++ map (Trigger "replace:done") ins
       /\ (forall i, i ∈ ins -> i ∉ forest_ids (doc w'))
       /\ (completion (settle n (Success body)) w = Normal tt ->
           length ins = length (p_container p) * length body).
Proof.
  intros Hn Hgone wa w'.
  assert (forall wb : World, doc wb = doc w ->
            exists ins w4,
              (x ← html body; y ← replaceAll x (p_container p);
               trigger "replace:done" y) wb
              = (Normal tt,
                 with_trace (trace w4 ++ map (Trigger "replace:done") ins) w4)
              /\ doc w4 = doc w /\ trace w4 = trace wb
              /\ (forall i, i ∈ ins -> i ∉ forest_ids (doc w))
              /\ length ins = length (p_container p) * length body)
    as Hrest.
  { intros wb Hdb.
    destruct (html_spec body wb) as (news & w3 & Hh & Hg & Hfresh & _ & Hsnap).
    assert (doc w3 = doc w) as Hd3 by (destruct Hg as (-> & _); done).
    destruct (replaceAll_absent news (p_container p) w3)
      as (ins & w4 & Hr & Hf & Hd4 & Hins & Hlen).
    { intros c Hc. rewrite Hd3. by apply Hgone. }
    { intros x Hx Hin. destruct (Hfresh x Hx) as [Hout _]. apply Hout.
      apply doc_in_used. by rewrite Hdb, <- Hd3. }
    exists ins, w4. rewrite run_bind, Hh, run_bind, Hr, run_trigger.
    split; [done|]. split; [congruence|]. split.
    { destruct Hg as (_&_&_&_&Ht3&_), Hf as (_&_&Ht4&_). congruence. }
    split; [intros i Hi; rewrite <- Hd3; by apply Hins|].
    rewrite Hlen. apply (f_equal (@length _)) in Hsnap.
    rewrite length_map in Hsnap. by rewrite Hsnap. }
  assert (settle n (Success body) w
          = complete p (Success body) (with_pending (delete n (pending w)) w))
    as Hs by (by apply settle_run).
  unfold complete in Hs. rewrite run_bind, on_always_run in Hs.
  set (wa' := with_trace _ _) in Hs. unfold on_done in Hs.
  rewrite run_bind in Hs.
  assert (callback_effects wa' (p_success p) (p_container p) body
          = callback_effects wa (p_success p) (p_container p) body) as Hcb.
  { apply callback_effects_ext; subst wa wa'; unfold exec;
      by rewrite on_always_run. }
  destruct (call_success_run (p_success p) (p_container p) body wa')
    as (r & Hr & [->|[-> Hnil]]); rewrite Hr, Hcb in Hs.
  - destruct (Hrest (with_trace
                       (trace wa' ++ callback_effects wa (p_success p)
                                       (p_container p) body) wa'))
      as (ins & w4 & Hrun & Hd4 & Ht4 & Hins & Hlen); [done|].
    rewrite Hrun in Hs.
    assert (doc w' = doc w) as Hd by (subst w'; unfold exec; by rewrite Hs).
    split; [done|]. exists ins. split; [|split; [by rewrite Hd | done]].
    apply effects_of_intro. cbn [run]. unfold exec. rewrite Hs.
    cbn [snd trace with_trace]. rewrite Ht4. subst wa'. cbn.
    by rewrite <- !app_assoc.
  - assert (doc w' = doc w) as Hd by (subst w'; unfold exec; by rewrite Hs).
    split; [done|]. exists []. split; [|split].
    + apply effects_of_intro. cbn [run]. unfold exec. rewrite Hs.
      subst wa'. cbn. by rewrite app_nil_r, <- !app_assoc.
    + intros i Hi. by apply elem_of_nil in Hi.
    + unfold completion. by rewrite Hs.
Qed.

Lemma late_response_leaves_the_document_witness :
  let w := run_all [Click 3 Page.click;
                    Pop (Some (mkHistState (Some (SelClass "container"))
                                           Page.fresh_div))]
                   Page.idle in
  pending w !! 0 = Some (mkPending [2] (Some (PushStateCallback 3)))
  /\ (2 ∉ forest_ids (doc w))
  /\ doc (exec (settle 0 (Success Page.fresh_div)) w) = doc w
  /\ List.filter is_history_write
       (effects_of (Settle 0 (Success Page.fresh_div)) w)
     = [ReplaceState
          (mkHistState (Some (SelClass "container"))
             (outer_markup Page.idle 2));
        PushState (mkHistState (Some (SelClass "container")) Page.fresh_div)
                  (Some "/foo")].
Proof.
  intros w.
  assert (pending w !! 0 = Some (mkPending [2] (Some (PushStateCallback 3))))
    as Hn by (vm_compute; reflexivity).
  assert (forall c, c ∈ p_container (mkPending [2] (Some (PushStateCallback 3)))
                    -> c ∉ forest_ids (doc w)) as Hgone.
  { intros c ->%list_elem_of_singleton. vm_compute.
    intros H. repeat (apply elem_of_cons in H as [H|H]; [discriminate H|]).
    by apply elem_of_nil in H. }
  destruct (late_response_leaves_the_document 0 _ Page.fresh_div w Hn Hgone)
    as [Hd _].
  split; [exact Hn|]. split; [apply Hgone; left|]. split; [exact Hd|].
  vm_compute. reflexivity.
Defined.

(** ** History entries of a link without a selector *)

Lemma not_in_triggers (ev : string) (set : list nat) (e : Effect) :
  is_notification e = false -> e ∉ map (Trigger ev) set.
Proof.
  intros He (i & -> & _)%list_elem_of_fmap. discriminate He.
Qed.

(** X7.  A push-state link without a selector ([data-replace] with no
    value) replaces itself, and the history states its success callback
    writes carry no selector.  The [popstate] handler does nothing for
    such a state: Back and Forward change the address and leave the page
    as it is. *)
Theorem selectorless_link_history_is_inert (n : nat) (p : Pending)
  (link : nat) (body : Markup) (st : HistState) (w : World) :
  pending w !! n = Some p ->
  p_success p = Some (PushStateCallback link) ->
  el_replace (el w link) = None ->
  (ReplaceState st ∈ effects_of (Settle n (Success body)) w
   \/ exists url, PushState st url ∈ effects_of (Settle n (Success body)) w) ->
  forall w2, on_popstate (Some st) w2 = (Normal tt, w2).
Proof.
  intros Hn Hsucc Hsel Hin w2.
  assert (hs_selector st = None) as Hst; [|unfold on_popstate; by rewrite Hst].
  destruct (settle_success_effects n p body w Hn) as (ins & Heff & _).
  rewrite Heff, Hsucc in Hin.
  assert (forall e, is_notification e = false ->
            e ∈ map (Trigger "replace:always") (p_container p)
                  ++ callback_effects (exec (on_always (p_container p)) w)
                       (Some (PushStateCallback link)) (p_container p) body
                  ++ map (Trigger "replace:done") ins ->
            e ∈ callback_effects (exec (on_always (p_container p)) w)
                  (Some (PushStateCallback link)) (p_container p) body)
    as Hmid.
  { intros e He [H|[H|H]%elem_of_app]%elem_of_app; [|done|];
      by apply not_in_triggers in H. }
  assert (forall e,
            e ∈ callback_effects (exec (on_always (p_container p)) w)
                  (Some (PushStateCallback link)) (p_container p) body ->
            match e with
            | ReplaceState s | PushState s _ => hs_selector s = None
            | _ => True
            end) as Hcb.
  { intros e. cbn [callback_effects].
    destruct (p_container p) as [|c rest] eqn:Hc;
      [intros H; by apply elem_of_nil in H|].
    destruct (el_pushstate _); [|intros H; by apply elem_of_nil in H].
    unfold history_writes, on_always, exec. rewrite run_bind.
    destruct (el_unmarked w (c :: rest) link) as (Hr & _).
    unfold exec in Hr. destruct (removeClass active (c :: rest) w)
      as [[[]|err] w1] eqn:Hrm;
      [|unfold removeClass in Hrm; by rewrite run_update_all in Hrm].
    cbn [snd] in Hr. rewrite run_trigger. cbn [snd].
    change (el (with_trace _ w1) link) with (el w1 link).
    rewrite Hr, Hsel.
    intros [->|[->|H]%elem_of_cons]%elem_of_cons; [done|done|].
    by apply elem_of_nil in H. }
  destruct Hin as [Hin|[url Hin]]; apply Hmid, Hcb in Hin; done.
Qed.

Lemma selectorless_link_history_is_inert_witness :
  let w := exec (on_click_link 3 Page.click) Plain.pushing in
  let st := mkHistState None Page.fresh_div in
  pending w !! 0 = Some (mkPending [3] (Some (PushStateCallback 3)))
  /\ el_replace (el w 3) = None
  /\ PushState st (Some "/foo")
       ∈ effects_of (Settle 0 (Success Page.fresh_div)) w
  /\ forall w2, on_popstate (Some st) w2 = (Normal tt, w2).
Proof.
  intros w st.
  assert (PushState st (Some "/foo")
            ∈ effects_of (Settle 0 (Success Page.fresh_div)) w) as Hin.
  { vm_compute. do 2 right. left. }
  split; [reflexivity|]. split; [reflexivity|]. split; [exact Hin|].
  apply (selectorless_link_history_is_inert 0
           (mkPending [3] (Some (PushStateCallback 3))) 3 Page.fresh_div st w
           eq_refl eq_refl eq_refl).
  right. by exists (Some "/foo").
Defined.

(** ** What each event can do *)

Lemma appendTo_frame (news : list Tree) (targets : list nat) (w : World) :
  exists ins w',
    appendTo news targets w = (Normal ins, w') /\ frame w w'.
Proof.
  revert w. induction targets as [|t rest IH]; intros w.
  - exists [], w. split; [done | apply frame_refl].
  - destruct rest as [|t' rest].
    + eexists _, _. split; [reflexivity|]. by repeat split.
    + destruct (clone_spec news w) as (c & w1 & Hc & Hg & _).
      destruct (IH (exec (append t c) w1)) as (r & w2 & Hr & Hf).
      eexists _, w2. split.
      { change (appendTo news (t :: t' :: rest) w)
          with (match clone news w with
                | (Normal c, w1) =>
                    match appendTo news (t' :: rest)
                            (exec (append t c) w1) with
                    | (Normal r, w2) => (Normal (map root c ++ r), w2)
                    | (Throw e, w2) => (Throw e, w2)
                    end
                | (Throw e, w1) => (Throw e, w1)
                end).
        by rewrite Hc, Hr. }
      eapply frame_trans; [|exact Hf].
      eapply frame_trans; [apply grows_frame, Hg|]. by repeat split.
Qed.

(** The button handler returns normally, causes no effect and changes no
    element object that exists. *)
Lemma on_click_button_frame (b : nat) (w : World) :
  exists w', on_click_button b w = (Normal tt, w') /\ frame w w'.
Proof.
  rewrite on_click_button_unfold. cbn zeta.
  pose proof (is_fresh (used w)) as Hi. set (i := fresh (used w)) in *.
  match goal with
  | |- context [appendTo ?N ?T ?W] =>
      destruct (appendTo_frame N T W) as (ins & w4 & -> & Hf);
      assert (frame w W) as Hw
  end.
  { repeat split. cbn [elems with_elems]. unfold upd.
    apply map_subseteq_spec. intros j e Hj.
    assert (j ≠ i) as Hne.
    { intros ->. apply Hi. unfold used. apply elem_of_union. left.
      apply elem_of_dom. eauto. }
    by rewrite !lookup_insert_ne. }
  exists w4. split; [done|]. by eapply frame_trans.
Qed.

(** The [popstate] handler returns normally on a state whose data is
    markup; all it adds to the trace are the notifications to the elements
    it inserted. *)
Lemma on_popstate_spec (state : option HistState) (w : World) :
  exists ins w',
    on_popstate state w = (Normal tt, w')
    /\ trace w' = trace w ++ map (Trigger "replace:always") ins
                    ++ map (Trigger "replace:done") ins
    /\ pending w' = pending w
    /\ history_supported w' = history_supported w
    /\ elems w ⊆ elems w'.
Proof.
  assert (exists ins w',
            (Normal tt, w) = (Normal tt, w')
            /\ trace w' = trace w ++ map (Trigger "replace:always") ins
                            ++ map (Trigger "replace:done") ins
            /\ pending w' = pending w
            /\ history_supported w' = history_supported w
            /\ elems w ⊆ elems w') as Hidle.
  { exists [], w. by rewrite app_nil_r. }
  destruct state as [[[sel|] dat]|]; [|exact Hidle..].
  destruct (html_spec dat w) as (news & w1 & Hh & Hg & _).
  destruct (replaceAll_frame news (selected w1 sel) w1)
    as (ins & w2 & Hr & Hf).
  exists ins. eexists. split; [by eapply on_popstate_run|].
  pose proof (grows_sub _ _ Hg) as Hsub.
  destruct Hg as (_&_&Hh1&Hp1&Ht1&_), Hf as (Hh2&Hp2&Ht2&Hsub2).
  cbn [trace pending history_supported elems with_trace].
  rewrite Ht2, Ht1, Hp2, Hp1, Hh2, Hh1. repeat (split; [done|]).
  by etrans.
Qed.

Lemma ajaxReplace_cases (this : nat) (url : option string)
  (options : Options) (w : World) :
  (marked w this /\ ajaxReplace this url options w = (Normal tt, w))
  \/ (¬ marked w this
      /\ ajaxReplace this url options w
         = (Normal tt,
            started w (container_of w this (selector options)) url options)).
Proof.
  destruct (closest_on w (SelClass active) (path_of w this)) as [|c l] eqn:Hc.
  - assert (¬ marked w this) as Hm
      by (rewrite marked_closest, Hc; by intros []).
    right. split; [done | by apply ajaxReplace_unmarked].
  - assert (marked w this) as Hm by (by rewrite marked_closest, Hc).
    left. split; [done | by apply ajaxReplace_marked].
Qed.

(** What a click on a link or a submit of a form comes to: nothing at all
    (the push-state gate), [preventDefault] alone (the guard), or
    [preventDefault] and a new operation. *)
Lemma on_click_link_cases (link : nat) (event : Event) (w : World) :
  let w0 := with_trace (trace w ++ [PreventDefault]) w in
  on_click_link link event w = (Normal tt, w)
  \/ (marked w link /\ on_click_link link event w = (Normal tt, w0))
  \/ (¬ marked w link
      /\ on_click_link link event w
         = (Normal tt,
            started w0 (container_of w link (el_replace (el w link)))
              (lookup_attr "href" (el w link))
              (mkOptions (el_replace (el w link)) None None
                         (Some (PushStateCallback link))))).
Proof.
  intros w0.
  destruct (el_pushstate (el w link)
            && (negb (history_supported w) || shiftKey event
                || metaKey event)) eqn:Hgate.
  - left. unfold on_click_link. run_m.
    destruct (el_pushstate (el w link)), (history_supported w),
      (shiftKey event), (metaKey event); try discriminate Hgate; reflexivity.
  - right. rewrite on_click_link_run by done. fold w0.
    destruct (ajaxReplace_cases link (lookup_attr "href" (el w link))
                (mkOptions (el_replace (el w link)) None None
                           (Some (PushStateCallback link))) w0)
      as [[Hm ->]|[Hm ->]]; [by left | right].
    split; [done|]. cbn [selector]. unfold container_of, w0.
    by rewrite closest_with_trace.
Qed.

Lemma on_submit_form_cases (form : nat) (w : World) :
  let w0 := with_trace (trace w ++ [PreventDefault]) w in
  (marked w form /\ on_submit_form form w = (Normal tt, w0))
  \/ (¬ marked w form
      /\ on_submit_form form w
         = (Normal tt,
            started w0 (container_of w form (el_replace (el w form)))
              (lookup_attr "action" (el w form))
              (mkOptions (el_replace (el w form))
                         (lookup_attr "method" (el w form))
                         (Some (fields_of w form)) None))).
Proof.
  intros w0. rewrite on_submit_form_run. fold w0.
  destruct (ajaxReplace_cases form (lookup_attr "action" (el w form))
              (mkOptions (el_replace (el w form))
                         (lookup_attr "method" (el w form))
                         (Some (fields_of w form)) None) w0)
    as [[Hm ->]|[Hm ->]]; [by left | right].
  split; [done|]. cbn [selector]. unfold container_of, w0.
  by rewrite closest_with_trace.
Qed.

(** What a settled request adds to the trace. *)
Lemma settle_effects (n : nat) (r : Response) (w : World) :
  match pending w !! n, r with
  | None, _ => effects_of (Settle n r) w = []
  | Some p, Failure =>
      effects_of (Settle n r) w
      = map (Trigger "replace:always") (p_container p)
          ++ map (Trigger "replace:fail") (p_container p)
  | Some p, Success body =>
      exists ins,
        effects_of (Settle n r) w
        = map (Trigger "replace:always") (p_container p)
            ++ callback_effects (exec (on_always (p_container p)) w)
                 (p_success p) (p_container p) body
            ++ map (Trigger "replace:done") ins
  end.
Proof.
  destruct (pending w !! n) as [p|] eqn:Hn.
  - destruct r as [body|].
    + destruct (settle_success_effects n p body w Hn) as (ins & H & _).
      by exists ins.
    + apply effects_of_intro. cbn [run]. unfold exec.
      rewrite (settle_run n _ p) by done. by rewrite complete_failure_run.
  - apply effects_of_intro. cbn [run]. unfold exec, settle.
    rewrite run_bind. cbn [reads]. rewrite Hn. cbn. by rewrite app_nil_r.
Qed.

Lemma trace_started (w : World) (container : list nat) (url : option string)
  (options : Options) :
  trace (started w container url options)
  = trace w ++ map (Trigger "replace:start") container
      ++ [Ajax url (method options) (data options)].
Proof. reflexivity. Qed.

Lemma requests_of_start (container : list nat) (e : Effect) :
  List.filter is_request
    (PreventDefault :: map (Trigger "replace:start") container ++ [e])
  = List.filter is_request [e].
Proof.
  cbn [List.filter is_request]. rewrite List.filter_app.
  induction container as [|c l IH]; [done|]. exact IH.
Qed.

Lemma on_click_link_gate (link : nat) (event : Event) (w : World) :
  el_pushstate (el w link)
    && (negb (history_supported w) || shiftKey event || metaKey event)
  = true ->
  on_click_link link event w = (Normal tt, w).
Proof.
  intros Hgate. unfold on_click_link. run_m.
  destruct (el_pushstate (el w link)), (history_supported w),
    (shiftKey event), (metaKey event); try discriminate Hgate; reflexivity.
Qed.

(** X8.  When the script issues a request.  An event issues a request
    exactly when it is a click on a link that passes the push-state gate,
    or a submit of a form, on an element that is not behind the guard;
    the request is then the one the element gives: for a link its [href]
    without method and data, for a form its [action] with its [method]
    and its serialized fields.  Such an event issues this one request and
    no other, and the request joins the requests in flight.  No response,
    no step through the history and no click on a button ever issues a
    request. *)
Theorem requests_come_from_clicks_and_submits (a : Action) (w : World)
  (url type : option string) (dat : option (list (string * string))) :
  (Ajax url type dat ∈ effects_of a w
   <-> match a with
       | Click link event =>
           el_pushstate (el w link)
             && (negb (history_supported w) || shiftKey event
                 || metaKey event) = false
           /\ ¬ marked w link
           /\ url = lookup_attr "href" (el w link)
           /\ type = None /\ dat = None
       | Submit form =>
           ¬ marked w form
           /\ url = lookup_attr "action" (el w form)
           /\ type = lookup_attr "method" (el w form)
           /\ dat = Some (fields_of w form)
       | _ => False
       end)
  /\ (Ajax url type dat ∈ effects_of a w ->
      List.filter is_request (effects_of a w) = [Ajax url type dat]
      /\ length (pending (exec (run a) w)) = S (length (pending w))).
Proof.
  set (w0 := with_trace (trace w ++ [PreventDefault]) w).
  assert (forall C u o,
            exec (run a) w = started w0 C u o ->
            effects_of a w
            = PreventDefault :: map (Trigger "replace:start") C
                ++ [Ajax u (method o) (data o)]) as Heff.
  { intros C u o Hrun. apply effects_of_intro.
    rewrite Hrun, trace_started. cbn [trace with_trace w0].
    by rewrite <- app_assoc. }
  assert (forall C u o,
            exec (run a) w = started w0 C u o ->
            Ajax url type dat ∈ effects_of a w ->
            (url = u /\ type = method o /\ dat = data o)
            /\ List.filter is_request (effects_of a w) = [Ajax url type dat]
            /\ length (pending (exec (run a) w)) = S (length (pending w)))
    as Hstart.
  { intros C u o Hrun. rewrite (Heff C u o Hrun).
    intros [H|[H|H]%elem_of_app]%elem_of_cons; [done| |].
    { by apply not_in_triggers in H. }
    apply list_elem_of_singleton in H. injection H as -> -> ->.
    split; [done|]. rewrite requests_of_start. split; [done|].
    rewrite Hrun. unfold started. cbn [pending with_pending w0 with_trace].
    rewrite length_app. cbn. lia. }
  assert (forall C u o,
            exec (run a) w = started w0 C u o ->
            Ajax u (method o) (data o) ∈ effects_of a w) as Hissued.
  { intros C u o Hrun. rewrite (Heff C u o Hrun). right.
    apply elem_of_app. right. left. }
  assert (forall l, trace (exec (run a) w) = trace w ++ l ->
            Forall (fun e => is_request e = false) l ->
            Ajax url type dat ∈ effects_of a w -> False) as Hnone.
  { intros l Ht Hl. rewrite (effects_of_intro a w l Ht).
    intros Hin. rewrite Forall_forall in Hl. by apply Hl in Hin. }
  assert (forall ev set,
            Forall (fun e => is_request e = false) (map (Trigger ev) set))
    as Htrig.
  { intros ev set. apply Forall_forall.
    intros e (i & -> & _)%list_elem_of_fmap. done. }
  destruct a as [link event|form|button|state|n r].
  - destruct (el_pushstate (el w link)
              && (negb (history_supported w) || shiftKey event
                  || metaKey event)) eqn:Hgate.
    { assert (Ajax url type dat ∈ effects_of (Click link event) w -> False)
        as Hno.
      { apply (Hnone []); [|done]. cbn [run]. unfold exec.
        rewrite on_click_link_gate by done. cbn. by rewrite app_nil_r. }
      split; [split; [by intros ?%Hno | by intros (? & _)]|by intros ?%Hno]. }
    assert (exec (run (Click link event)) w
            = exec (ajaxReplace link (lookup_attr "href" (el w link))
                      (mkOptions (el_replace (el w link)) None None
                                 (Some (PushStateCallback link)))) w0)
      as Hrun by (cbn [run]; unfold exec; by rewrite on_click_link_run).
    destruct (ajaxReplace_cases link (lookup_attr "href" (el w link))
                (mkOptions (el_replace (el w link)) None None
                           (Some (PushStateCallback link))) w0)
      as [[Hm Hr]|[Hm Hr]]; unfold exec in Hrun; rewrite Hr in Hrun;
      cbn [snd] in Hrun.
    + assert (Ajax url type dat ∈ effects_of (Click link event) w -> False)
        as Hno.
      { apply (Hnone [PreventDefault]); [|by repeat constructor].
        unfold exec. by rewrite Hrun. }
      split; [split; [by intros ?%Hno | by intros (_ & ? & _)]
             |by intros ?%Hno].
    + split; [split|].
      * intros Hin.
        by destruct (Hstart _ _ _ Hrun Hin) as ((-> & -> & ->) & _).
      * intros (_ & _ & -> & -> & ->). exact (Hissued _ _ _ Hrun).
      * intros Hin. by destruct (Hstart _ _ _ Hrun Hin) as (_ & ? & ?).
  - assert (exec (run (Submit form)) w
            = exec (ajaxReplace form (lookup_attr "action" (el w form))
                      (mkOptions (el_replace (el w form))
                                 (lookup_attr "method" (el w form))
                                 (Some (fields_of w form)) None)) w0)
      as Hrun by (cbn [run]; unfold exec; by rewrite on_submit_form_run).
    destruct (ajaxReplace_cases form (lookup_attr "action" (el w form))
                (mkOptions (el_replace (el w form))
                           (lookup_attr "method" (el w form))
                           (Some (fields_of w form)) None) w0)
      as [[Hm Hr]|[Hm Hr]]; unfold exec in Hrun; rewrite Hr in Hrun;
      cbn [snd] in Hrun.
    + assert (Ajax url type dat ∈ effects_of (Submit form) w -> False)
        as Hno.
      { apply (Hnone [PreventDefault]); [|by repeat constructor].
        unfold exec. by rewrite Hrun. }
      split; [split; [by intros ?%Hno | by intros (? & _)]|by intros ?%Hno].
    + split; [split|].
      * intros Hin.
        by destruct (Hstart _ _ _ Hrun Hin) as ((-> & -> & ->) & _).
      * intros (_ & -> & -> & ->). exact (Hissued _ _ _ Hrun).
      * intros Hin. by destruct (Hstart _ _ _ Hrun Hin) as (_ & ? & ?).
  - assert (Ajax url type dat ∈ effects_of (Press button) w -> False) as Hno.
    { destruct (on_click_button_frame button w)
        as (w' & Hr & _ & _ & Ht & _).
      apply (Hnone []); [|done].
      cbn [run]. unfold exec. rewrite Hr. cbn. by rewrite app_nil_r. }
    split; [split; [by intros ?%Hno | done]|by intros ?%Hno].
  - assert (Ajax url type dat ∈ effects_of (Pop state) w -> False) as Hno.
    { destruct (on_popstate_spec state w) as (ins & w' & Hr & Ht & _).
      apply (Hnone (map (Trigger "replace:always") ins
                      ++ map (Trigger "replace:done") ins));
        [|apply Forall_app; split; apply Htrig].
      cbn [run]. unfold exec. by rewrite Hr. }
    split; [split; [by intros ?%Hno | done]|by intros ?%Hno].
  - assert (Ajax url type dat ∈ effects_of (Settle n r) w -> False) as Hno.
    { pose proof (settle_effects n r w) as Heff'.
      assert (Forall (fun e => is_request e = false)
                (effects_of (Settle n r) w)) as Hall.
      { destruct (pending w !! n) as [p|].
        - destruct r as [body|].
          + destruct Heff' as (ins & ->). repeat (apply Forall_app; split);
              try apply Htrig.
            destruct (p_success p) as [[link]|]; [|done].
            cbn [callback_effects]. destruct (p_container p); [done|].
            destruct (el_pushstate _); [|done]. by repeat constructor.
          + rewrite Heff'. apply Forall_app; split; apply Htrig.
        - by rewrite Heff'. }
      intros Hin. rewrite Forall_forall in Hall. by apply Hall in Hin. }
    split; [split; [by intros ?%Hno | done]|by intros ?%Hno].
Qed.

Lemma requests_come_from_clicks_and_submits_witness :
  Ajax (Some "/bar") (Some "POST") (Some [("q", "hi")])
    ∈ effects_of (Submit 4) Page.idle
  /\ ¬ marked Page.idle 4
  /\ List.filter is_request (effects_of (Submit 4) Page.idle)
     = [Ajax (Some "/bar") (Some "POST") (Some [("q", "hi")])]
  /\ effects_of (Click 3 Page.shift_click) Page.idle = []
  /\ (forall url type dat,
        Ajax url type dat ∉ effects_of (Click 3 Page.shift_click) Page.idle).
Proof.
  assert (Ajax (Some "/bar") (Some "POST") (Some [("q", "hi")])
            ∈ effects_of (Submit 4) Page.idle) as Hin.
  { vm_compute. do 2 right. left. }
  split; [exact Hin|].
  destruct (requests_come_from_clicks_and_submits (Submit 4) Page.idle
              (Some "/bar") (Some "POST") (Some [("q", "hi")]))
    as ([Hfwd _] & Hone).
  split; [exact (proj1 (Hfwd Hin))|]. split; [exact (proj1 (Hone Hin))|].
  split; [reflexivity|].
  intros url type dat Hc.
  destruct (requests_come_from_clicks_and_submits
              (Click 3 Page.shift_click) Page.idle url type dat)
    as ([Hfwd' _] & _).
  destruct (Hfwd' Hc) as (Hgate & _). discriminate Hgate.
Defined.

Lemma el_on_always (w : World) (set : list nat) (i : nat) :
  let e' := el (exec (on_always set) w) i in
  el_replace e' = el_replace (el w i)
  /\ el_pushstate e' = el_pushstate (el w i)
  /\ el_attrs e' = el_attrs (el w i).
Proof.
  destruct (el_unmarked w set i) as (Hr & Hp & Ha & _).
  unfold exec, removeClass in Hr, Hp, Ha. rewrite run_update_all in Hr, Hp, Ha.
  unfold exec. rewrite on_always_run. done.
Qed.

Lemma history_writes_of_triggers (ev : string) (set : list nat) :
  Forall (fun e => is_history_write e = false) (map (Trigger ev) set).
Proof.
  apply Forall_forall. intros e (i & -> & _)%list_elem_of_fmap. done.
Qed.

Lemma filter_none {A : Type} (f : A -> bool) (l : list A) :
  Forall (fun x => f x = false) l -> List.filter f l = [].
Proof.
  induction 1 as [|x l Hx _ IH]; [done|]. cbn. by rewrite Hx.
Qed.

(** X9.  The script writes to the history at one place only: when a
    request settles with success, was started by a link whose
    [data-pushstate] is set, and has a container.  It then writes exactly
    the two states of the callback.  No click, submit, failure or step
    through the history writes to the history. *)
Theorem history_is_written_on_pushstate_success_only (a : Action)
  (w : World) (e : Effect) :
  is_history_write e = true ->
  e ∈ effects_of a w ->
  exists n body p link c rest,
    a = Settle n (Success body)
    /\ pending w !! n = Some p
    /\ p_success p = Some (PushStateCallback link)
    /\ p_container p = c :: rest
    /\ el_pushstate (el w link) = true
    /\ List.filter is_history_write (effects_of a w)
       = history_writes (exec (on_always (c :: rest)) w) link c body.
Proof.
  intros He.
  assert (forall l, effects_of a w = l ->
            Forall (fun e => is_history_write e = false) l ->
            e ∈ effects_of a w -> False) as Hnone.
  { intros l -> Hl Hin. rewrite Forall_forall in Hl. apply Hl in Hin.
    congruence. }
  assert (forall l, trace (exec (run a) w) = trace w ++ l ->
            Forall (fun e => is_history_write e = false) l ->
            e ∈ effects_of a w -> False) as Hnone'.
  { intros l Hl. apply Hnone. by apply effects_of_intro. }
  destruct a as [link event|form|button|state|n r]; intros Hin.
  - destruct (on_click_link_cases link event w) as [Hr|[[Hm Hr]|[Hm Hr]]].
    + destruct (Hnone' []); [|done..].
      cbn [run]. unfold exec. rewrite Hr. cbn. by rewrite app_nil_r.
    + destruct (Hnone' [PreventDefault]); [|by repeat constructor|done].
      cbn [run]. unfold exec. by rewrite Hr.
    + edestruct Hnone'; [cbn [run]; unfold exec; rewrite Hr; cbn [snd];
                         rewrite trace_started; cbn [trace with_trace];
                         by rewrite <- app_assoc| |done].
      constructor; [done|]. apply Forall_app. split;
        [apply history_writes_of_triggers | by repeat constructor].
  - destruct (on_submit_form_cases form w) as [[Hm Hr]|[Hm Hr]].
    + destruct (Hnone' [PreventDefault]); [|by repeat constructor|done].
      cbn [run]. unfold exec. by rewrite Hr.
    + edestruct Hnone'; [cbn [run]; unfold exec; rewrite Hr; cbn [snd];
                         rewrite trace_started; cbn [trace with_trace];
                         by rewrite <- app_assoc| |done].
      constructor; [done|]. apply Forall_app. split;
        [apply history_writes_of_triggers | by repeat constructor].
  - destruct (on_click_button_frame button w) as (w' & Hr & _ & _ & Ht & _).
    destruct (Hnone' []); [|done..].
    cbn [run]. unfold exec. rewrite Hr. cbn. by rewrite app_nil_r.
  - destruct (on_popstate_spec state w) as (ins & w' & Hr & Ht & _).
    destruct (Hnone' (map (Trigger "replace:always") ins
                        ++ map (Trigger "replace:done") ins));
      [|apply Forall_app; split; apply history_writes_of_triggers|done].
    cbn [run]. unfold exec. by rewrite Hr.
  - pose proof (settle_effects n r w) as Heff.
    destruct (pending w !! n) as [p|] eqn:Hn;
      [|destruct (Hnone [] Heff); done].
    destruct r as [body|].
    2:{ destruct (Hnone _ Heff); [|done].
        apply Forall_app; split; apply history_writes_of_triggers. }
    destruct Heff as (ins & Heff).
    destruct (p_success p) as [[link]|] eqn:Hs.
    2:{ destruct (Hnone _ Heff); [|done]. cbn [callback_effects app].
        apply Forall_app; split; apply history_writes_of_triggers. }
    destruct (p_container p) as [|c rest] eqn:Hc.
    { destruct (Hnone _ Heff); [|done]. cbn [callback_effects map app].
      apply history_writes_of_triggers. }
    destruct (el_on_always w (c :: rest) link) as (_ & Hps & _).
    cbn [callback_effects] in Heff. rewrite Hps in Heff.
    destruct (el_pushstate (el w link)) eqn:Hon.
    2:{ destruct (Hnone _ Heff); [|done]. cbn [app].
        apply Forall_app; split; apply history_writes_of_triggers. }
    exists n, body, p, link, c, rest. repeat (split; [done|]).
    rewrite Heff, !List.filter_app.
    rewrite (filter_none _ _ (history_writes_of_triggers "replace:always" _)).
    rewrite (filter_none _ _ (history_writes_of_triggers "replace:done" _)).
    by rewrite app_nil_r.
Qed.

Lemma history_is_written_on_pushstate_success_only_witness :
  let w := exec (on_click_link 3 Page.click) Page.idle in
  let e := PushState (mkHistState (Some (SelClass "container"))
                                  Page.fresh_div) (Some "/foo") in
  e ∈ effects_of (Settle 0 (Success Page.fresh_div)) w
  /\ List.filter is_history_write
       (effects_of (Settle 0 (Success Page.fresh_div)) w)
     = [ReplaceState (mkHistState (Some (SelClass "container"))
                                  (outer_markup Page.idle 2)); e].
Proof.
  intros w e.
  assert (e ∈ effects_of (Settle 0 (Success Page.fresh_div)) w) as Hin.
  { vm_compute. do 2 right. left. }
  split; [exact Hin|].
  destruct (history_is_written_on_pushstate_success_only
              (Settle 0 (Success Page.fresh_div)) w e eq_refl Hin)
    as (n & body & p & link & c & rest & Ha & Hn & Hs & Hc & Hps & Hf).
  rewrite Hf. injection Ha as <- <-.
  vm_compute in Hn. injection Hn as <-. injection Hs as <-.
  injection Hc as <- <-. vm_compute. reflexivity.
Defined.

(** X10.  A click on a button and a step through the history leave the
    operations alone.  A button click adds nothing to the trace; a step
    through the history (with a state whose data is markup) only notifies
    the elements it inserted, all of them with [replace:always] and then
    all of them with [replace:done].  Neither touches a request in flight
    or changes an element object that exists, so neither sets or clears a
    marker. *)
Theorem button_and_popstate_only_notify (w : World) :
  (forall b,
      effects_of (Press b) w = []
      /\ pending (exec (on_click_button b) w) = pending w
      /\ elems w ⊆ elems (exec (on_click_button b) w))
  /\ (forall state,
        (exists ins,
           effects_of (Pop state) w
           = map (Trigger "replace:always") ins
               ++ map (Trigger "replace:done") ins)
        /\ pending (exec (on_popstate state) w) = pending w
        /\ elems w ⊆ elems (exec (on_popstate state) w)).
Proof.
  split.
  - intros b.
    destruct (on_click_button_frame b w) as (w' & Hr & _ & Hp & Ht & He).
    split.
    + apply effects_of_intro. cbn [run]. unfold exec. rewrite Hr. cbn.
      by rewrite app_nil_r.
    + unfold exec. by rewrite Hr.
  - intros state.
    destruct (on_popstate_spec state w) as (ins & w' & Hr & Ht & Hp & _ & He).
    split.
    + exists ins. apply effects_of_intro. cbn [run]. unfold exec.
      by rewrite Hr.
    + unfold exec. by rewrite Hr.
Qed.

(** ** The marker and the requests in flight *)

Lemma hasClass_weaken (w w' : World) (c : nat) :
  elems w ⊆ elems w' ->
  hasClass w active c = true -> hasClass w' active c = true.
Proof.
  intros Hsub. unfold hasClass, el.
  destruct (elems w !! c) as [e|] eqn:He; [|done].
  by rewrite (lookup_weaken _ _ _ _ He Hsub).
Qed.

Lemma guarded_frame (w w' : World) :
  pending w' = pending w -> elems w ⊆ elems w' -> guarded w -> guarded w'.
Proof.
  intros Hp Hsub [Hnd Hall]. unfold guarded, in_flight in *. rewrite Hp.
  split; [done|]. intros c Hc. eapply hasClass_weaken; [done|]. by apply Hall.
Qed.

Lemma guarded_started (w : World) (container : list nat) (this : nat)
  (url : option string) (options : Options) :
  guarded w ->
  ¬ marked w this ->
  NoDup container ->
  (forall c, c ∈ container -> c ∈ path_of w this) ->
  guarded (started w container url options).
Proof.
  intros [Hnd Hall] Hm Hndc Hpath.
  assert (in_flight (started w container url options)
          = in_flight w ++ container) as Hfl.
  { unfold in_flight, started. cbn [pending with_pending].
    rewrite flat_map_app. cbn. by rewrite app_nil_r. }
  unfold guarded. rewrite Hfl. split.
  - apply NoDup_app. split; [done|]. split; [|done].
    intros c Hc Hin. apply Hm. exists c. split; [by apply Hpath|].
    by apply Hall.
  - intros c Hc. rewrite hasClass_started.
    destruct (decide (c ∈ container)) as [|Hout]; [done|].
    apply Hall. apply elem_of_app in Hc as [Hc|Hc]; done.
Qed.

Lemma closest_on_nodup (w : World) (sel : Selector) (chain : list nat) :
  NoDup (closest_on w sel chain).
Proof.
  destruct (closest_on_cases w sel chain) as [->|(c & -> & _)].
  - constructor.
  - apply NoDup_singleton.
Qed.

Lemma container_on_path (w : World) (this : nat) (sel : option Selector)
  (c : nat) :
  c ∈ container_of w this sel -> c ∈ path_of w this.
Proof.
  unfold container_of.
  destruct (closest_on_cases w (default SelAny sel) (path_of w this))
    as [->|(c' & -> & Hc')].
  - intros H. by apply elem_of_nil in H.
  - by intros ->%list_elem_of_singleton.
Qed.

(** Whatever the response, the callbacks of a request leave the requests
    in flight alone and change no element object but the container's. *)
Lemma complete_frame (p : Pending) (r : Response) (w : World) :
  let w' := exec (complete p r) w in
  pending w' = pending w
  /\ (forall c e, c ∉ p_container p -> elems w !! c = Some e ->
                  elems w' !! c = Some e).
Proof.
  intros w'.
  assert (pending w' = pending w
          /\ elems (exec (on_always (p_container p)) w) ⊆ elems w')
    as [Hp Hsub].
  { subst w'. destruct r as [body|].
    - destruct (complete_success_spec p body w) as (ins & _ & Hp & _ & He).
      done.
    - unfold exec. by rewrite complete_failure_run, on_always_run. }
  split; [done|]. intros c e Hc He.
  eapply lookup_weaken; [|exact Hsub]. unfold exec. rewrite on_always_run.
  cbn [snd elems with_trace with_elems]. by rewrite upd_all_other.
Qed.

Lemma guarded_settle (n : nat) (r : Response) (w : World) :
  guarded w -> guarded (exec (settle n r) w).
Proof.
  intros [Hnd Hall]. unfold exec.
  destruct (pending w !! n) as [p|] eqn:Hn.
  2:{ unfold settle. rewrite run_bind. cbn [reads]. rewrite Hn. done. }
  rewrite (settle_run n r p) by done. rewrite delete_take_drop.
  destruct (complete_frame p r
              (with_pending (take n (pending w) ++ drop (S n) (pending w)) w))
    as [Hp He].
  unfold exec in Hp, He. cbn [pending elems with_pending] in Hp, He.
  unfold guarded, in_flight in *. rewrite Hp.
  rewrite <- (take_drop_middle _ _ _ Hn) in Hnd, Hall.
  rewrite flat_map_app in *. cbn [flat_map] in Hnd, Hall.
  apply NoDup_app in Hnd as (Hnd1 & Hdis & Hnd2).
  apply NoDup_app in Hnd2 as (Hndp & Hdis2 & Hnd3).
  split.
  - apply NoDup_app. split; [done|]. split; [|done].
    intros c Hc Hin. apply (Hdis c Hc). apply elem_of_app. by right.
  - intros c Hc.
    assert (c ∉ p_container p) as Hout.
    { apply elem_of_app in Hc as [Hc|Hc]; intros Hin.
      - apply (Hdis c Hc). apply elem_of_app. by left.
      - by apply (Hdis2 c Hin). }
    assert (hasClass w active c = true) as Hcl.
    { apply Hall. apply elem_of_app in Hc as [Hc|Hc]; apply elem_of_app;
        [by left | right; apply elem_of_app; by right]. }
    unfold hasClass, el in *.
    destruct (elems w !! c) as [e|] eqn:Hlk; [|done].
    by rewrite (He c e Hout Hlk).
Qed.

Lemma guarded_run (a : Action) (w : World) :
  guarded w -> guarded (exec (run a) w).
Proof.
  intros Hg. destruct a as [link event|form|button|state|n r]; cbn [run].
  - unfold exec.
    destruct (on_click_link_cases link event w)
      as [->|[[Hm ->]|[Hm ->]]]; [done|done|].
    cbn [snd].
    apply (guarded_started (with_trace (trace w ++ [PreventDefault]) w)
             _ link); [done|done|apply closest_on_nodup|].
    apply container_on_path.
  - unfold exec.
    destruct (on_submit_form_cases form w) as [[Hm ->]|[Hm ->]]; [done|].
    cbn [snd].
    apply (guarded_started (with_trace (trace w ++ [PreventDefault]) w)
             _ form); [done|done|apply closest_on_nodup|].
    apply container_on_path.
  - destruct (on_click_button_frame button w) as (w' & Hr & _ & Hp & _ & He).
    unfold exec. rewrite Hr. by apply (guarded_frame w).
  - destruct (on_popstate_spec state w) as (ins & w' & Hr & _ & Hp & _ & He).
    unfold exec. rewrite Hr. by apply (guarded_frame w).
  - by apply guarded_settle.
Qed.

(** X11.  Through every sequence of clicks, submits, button clicks,
    steps through the history and responses, in whatever order: every
    container of a request in flight carries the marker, and no element
    is the container of two requests in flight.  So from a page without a
    request in flight, a container never has two operations in progress
    at once. *)
Theorem requests_in_flight_stay_guarded (l : list Action) (w : World) :
  guarded w -> guarded (run_all l w).
Proof.
  revert w. induction l as [|a l IH]; intros w Hg; [done|].
  cbn [run_all foldl]. apply IH. by apply guarded_run.
Qed.

Lemma requests_in_flight_stay_guarded_witness :
  guarded Page.idle
  /\ guarded
       (run_all [Click 3 Page.click; Submit 4; Press 6;
                 Pop (Some (mkHistState (Some (SelClass "container"))
                                        Page.fresh_div));
                 Submit 4; Settle 0 Failure; Click 3 Page.click]
                Page.idle).
Proof.
  assert (guarded Page.idle) as Hg.
  { split; [constructor|]. intros c Hc. by apply elem_of_nil in Hc. }
  split; [exact Hg|]. by apply requests_in_flight_stay_guarded.
Defined.

(** ** Back after a replacement *)

Lemma forest_ids_fill (pos : Position) (ts : list Tree) :
  forest_ids (fill pos ts) ≡ₚ forest_ids ts ++ around pos.
Proof.
  unfold around. induction pos as [a b|a j inner IH b]; cbn [fill].
  - rewrite !forest_ids_app. cbn [forest_ids flat_map app].
    by rewrite Permutation_app_swap_app.
  - rewrite !forest_ids_app, !forest_ids_cons, !ids_node, IH.
    rewrite (Permutation_app_swap_app (forest_ids ts)). f_equiv.
    cbn [app]. rewrite <- Permutation_middle. f_equiv.
    by rewrite app_assoc.
Qed.

Lemma nodup_fill (pos : Position) (ts : list Tree) :
  NoDup (forest_ids (fill pos ts))
  <-> NoDup (forest_ids ts)
      /\ (forall x, x ∈ forest_ids ts -> x ∉ around pos)
      /\ NoDup (around pos).
Proof. rewrite forest_ids_fill. apply NoDup_app. Qed.

Lemma subtree_in_root (k : Tree) : subtree_in (root k) k = Some k.
Proof. destruct k as [j ks]. by rewrite subtree_in_node, Nat.eqb_refl. Qed.

Lemma first_some_absent (x : nat) (f : list Tree) :
  x ∉ forest_ids f -> first_some (subtree_in x) f = None.
Proof.
  intros Hx. apply first_some_none, Forall_forall. intros k Hk.
  apply subtree_in_none. intros Hin. apply Hx. by eapply forest_ids_sub.
Qed.

(** In a document without duplicates, the subtree of the element at a
    position is the tree at that position. *)
Lemma subtree_in_fill (pos : Position) (k : Tree) (rest : list Tree) :
  NoDup (forest_ids (fill pos [k])) ->
  first_some (subtree_in (root k)) (fill pos [k] ++ rest) = Some k.
Proof.
  intros Hnd. rewrite first_some_app.
  assert (first_some (subtree_in (root k)) (fill pos [k]) = Some k) as ->;
    [|done].
  clear rest. induction pos as [a b|a j inner IH b]; cbn [fill] in *.
  - rewrite !forest_ids_app in Hnd.
    apply NoDup_app in Hnd as (_ & Ha & _).
    rewrite first_some_app, first_some_absent.
    + cbn [app first_some]. by rewrite subtree_in_root.
    + intros Hin. apply (Ha _ Hin). apply elem_of_app. left.
      apply roots_in_forest. cbn. left.
  - pose proof (root_in_fill inner k) as Hin.
    rewrite forest_ids_app, forest_ids_cons, ids_node in Hnd.
    apply NoDup_app in Hnd as (_ & Ha & Hnd).
    apply NoDup_app in Hnd as ([Hj Hinner]%NoDup_cons & _ & _).
    rewrite first_some_app, first_some_absent.
    + cbn [first_some]. rewrite subtree_in_node.
      destruct (Nat.eqb_spec (root k) j) as [<-|_]; [done|].
      by rewrite IH.
    + intros Hk. apply (Ha _ Hk). apply elem_of_app. left. by right.
Qed.

(** The markup of a document with the trees [ts] at a position: the
    markup around the position and the markup of [ts]. *)
Lemma snapshot_fill (w w' : World) (pos : Position) (ts ts' : list Tree) :
  (forall i, i ∈ around pos -> el w i = el w' i) ->
  map (snapshot w) ts = map (snapshot w') ts' ->
  map (snapshot w) (fill pos ts) = map (snapshot w') (fill pos ts').
Proof.
  unfold around. intros Hel Hts.
  induction pos as [a b|a j inner IH b]; cbn [fill] in *.
  - rewrite !map_app, Hts. rewrite !forest_ids_app in Hel.
    rewrite (snapshots_el_ext w w' a), (snapshots_el_ext w w' b); [done| |];
      intros i Hi; apply Hel; set_solver.
  - rewrite !forest_ids_app, !forest_ids_cons, !ids_node in Hel.
    rewrite !map_app. cbn [map snapshot].
    rewrite (snapshots_el_ext w w' a), (snapshots_el_ext w w' b), IH;
      [|intros i Hi; apply Hel; set_solver..].
    rewrite (Hel j); [done|]. set_solver.
Qed.

Lemma around_in_fill (pos : Position) (ts : list Tree) (x : nat) :
  x ∈ around pos -> x ∈ forest_ids (fill pos ts).
Proof. rewrite forest_ids_fill. intros Hx. apply elem_of_app. by right. Qed.

(** Building markup and putting it in the place of the tree at a position
    of a document without duplicates. *)
Lemma swap_in (pos : Position) (k : Tree) (m : Markup) (w : World) :
  doc w = fill pos [k] ->
  NoDup (forest_ids (doc w)) ->
  exists news w1,
    html m w = (Normal news, w1) /\ built w news m w1
    /\ doc (exec (replaceWith (root k) news) w1) = fill pos news
    /\ NoDup (forest_ids (fill pos news)).
Proof.
  intros Hdoc Hnd.
  destruct (html_spec m w) as (news & w1 & Hh & Hb).
  exists news, w1. split; [done|]. split; [done|].
  destruct Hb as ((Hd1 & _) & Hfresh & Hndn & _).
  rewrite Hdoc in Hnd. split.
  - unfold exec. rewrite replaceWith_run. cbn [snd doc with_shape].
    rewrite Hd1, Hdoc. by apply replace_among_fill.
  - apply nodup_fill. split; [done|]. apply nodup_fill in Hnd as (_ & _ & Hnda).
    split; [|done]. intros x Hx Ha. destruct (Hfresh x Hx) as [Hout _].
    apply Hout, doc_in_used. rewrite Hdoc. by apply around_in_fill.
Qed.

Lemma round_elems (m : gmap nat Element) (c i : nat) :
  has_class active (default (blank "") (m !! c)) = false ->
  default (blank "")
    (upd (remove_class active) (upd (add_class active) m c) c !! i)
  = default (blank "") (m !! i).
Proof.
  intros Hc. unfold upd. destruct (decide (i = c)) as [->|Hne].
  - rewrite !lookup_insert_eq. cbn [default]. by apply remove_add_class.
  - by rewrite !lookup_insert_ne.
Qed.

(** The success path of a request of a push-state link with a container of
    one element. *)
Lemma complete_pushstate_run (link c : nat) (body : Markup) (w : World) :
  let wa := exec (on_always [c]) w in
  let wb := with_trace (trace wa ++ history_writes wa link c body) wa in
  el_pushstate (el wa link) = true ->
  exists news wc,
    html body wb = (Normal news, wc)
    /\ complete (mkPending [c] (Some (PushStateCallback link)))
                (Success body) w
       = (Normal tt,
          with_trace (trace wb ++ map (Trigger "replace:done") (map root news))
            (exec (replaceWith c news) wc)).
Proof.
  intros wa wb Hps.
  destruct (complete_success_run
              (mkPending [c] (Some (PushStateCallback link))) body w wb)
    as (news & wc & ins & w4 & Hh & _ & Hr & _ & Hrun).
  { cbn [p_success p_container call_success]. by apply run_callback_on. }
  exists news, wc. split; [done|]. rewrite Hrun.
  cbn [p_container] in Hr. rewrite replaceAll_one in Hr.
  by injection Hr as <- <-.
Qed.

(** X12.  Back restores what was replaced.  A click on a push-state link
    replaces its container, at some position of the document, by the one
    element of the response.  The state the callback hands to
    [replaceState] belongs to the history entry the click leaves.  When
    the browser returns to that entry and the selector finds the inserted
    element and nothing else, the [popstate] handler puts the markup of
    the old container back: the markup of the whole document is what it
    was before the click, without the marker. *)
Theorem back_restores_the_markup (w0 : World) (link : nat) (event : Event)
  (pos : Position) (k : Tree) (sel : Selector) (f : Fragment) :
  let n := length (pending w0) in
  let w1 := exec (on_click_link link event) w0 in
  let w2 := exec (settle n (Success [f])) w1 in
  doc w0 = fill pos [k] ->
  NoDup (forest_ids (doc w0)) ->
  el_pushstate (el w0 link) = true ->
  negb (history_supported w0) || shiftKey event || metaKey event = false ->
  ¬ marked w0 link ->
  el_replace (el w0 link) = Some sel ->
  container_of w0 link (Some sel) = [root k] ->
  (forall k2, doc w2 = fill pos [k2] -> selected w2 sel = [root k2]) ->
  exists st,
    ReplaceState st ∈ effects_of (Settle n (Success [f])) w1
    /\ let w3 := exec (on_popstate (Some st)) w2 in
       map (snapshot w3) (doc w3) = map (snapshot w0) (doc w0).
Proof.
  intros n w1 w2 Hdoc Hnd Hps Hkeys Hm Hsel Hcont Hselect.
  set (c := root k) in *.
  set (w0' := with_trace (trace w0 ++ [PreventDefault]) w0).
  set (opts := mkOptions (Some sel) None None (Some (PushStateCallback link))).
  set (p := mkPending [c] (Some (PushStateCallback link))).
  assert (w1 = started w0' [c] (lookup_attr "href" (el w0 link)) opts) as Hw1.
  { subst w1. unfold exec. rewrite on_click_link_run by (by rewrite Hps, Hkeys).
    rewrite ajaxReplace_unmarked by exact Hm. cbn [snd selector].
    rewrite Hsel. f_equal. unfold container_of.
    rewrite closest_with_trace. exact Hcont. }
  assert (has_class active (default (blank "") (elems w0 !! c)) = false) as Hc.
  { destruct (has_class active (default (blank "") (elems w0 !! c))) eqn:H;
      [|done].
    destruct Hm. exists c. split; [|exact H].
    apply (container_on_path w0 link (Some sel)). rewrite Hcont. left. }
  assert (pending w1 !! n = Some p) as Hn.
  { rewrite Hw1. cbn [started pending with_pending with_trace with_elems].
    by apply list_lookup_middle. }
  set (w1' := with_pending (delete n (pending w1)) w1).
  assert (forall w : World,
            elems w = elems w1 -> forall i,
            el (exec (on_always [c]) w) i = el w0 i) as Hround.
  { intros w He i. unfold exec. rewrite on_always_run.
    unfold el. cbn [snd elems with_trace with_elems foldl]. rewrite He, Hw1.
    cbn [started elems with_pending with_trace with_elems foldl].
    by apply round_elems. }
  assert (forall w : World,
            elems w = elems w1 -> doc w = doc w1 -> detached w = detached w1 ->
            outer_markup (exec (on_always [c]) w) c = [snapshot w0 k]) as Houter.
  { intros w He Hd Hdt. unfold outer_markup, shape.
    assert (doc (exec (on_always [c]) w) = fill pos [k]) as ->.
    { unfold exec. rewrite on_always_run. cbn [snd doc with_trace with_elems].
      rewrite Hd, Hw1. exact Hdoc. }
    change (subtree_in c) with (subtree_in (root k)).
    rewrite subtree_in_fill by (by rewrite <- Hdoc).
    f_equal. apply snapshot_el_ext. intros i _. by apply Hround. }
  set (st := mkHistState (Some sel) [snapshot w0 k]).
  exists st. split.
  { destruct (settle_success_effects n p [f] w1 Hn) as (ins & -> & _).
    apply elem_of_app. right. apply elem_of_app. left.
    cbn [callback_effects p_success p_container p].
    rewrite (Hround w1 eq_refl link), Hps. unfold history_writes.
    rewrite (Hround w1 eq_refl link), Hsel, (Houter w1) by done. left. }
  (* the world after the response *)
  set (wa := exec (on_always [c]) w1').
  set (wb := with_trace (trace wa ++ history_writes wa link c [f]) wa).
  assert (forall i, el wb i = el w0 i) as Helb.
  { intros i. apply (Hround w1'). done. }
  assert (doc wb = fill pos [k]) as Hdb.
  { subst wb wa. unfold exec. rewrite on_always_run.
    cbn [snd doc with_trace with_elems w1' with_pending]. rewrite Hw1.
    exact Hdoc. }
  destruct (complete_pushstate_run link c [f] w1') as (news & wc & Hh & Hrun).
  { change (el_pushstate (el wb link) = true). rewrite Helb. exact Hps. }
  fold wa wb in Hh, Hrun.
  destruct (swap_in pos k [f] wb Hdb) as (news' & wc' & Hh' & Hb & Hd2 & Hnd2).
  { rewrite Hdb, <- Hdoc. exact Hnd. }
  rewrite Hh in Hh'. injection Hh' as <- <-.
  assert (exists k2, news = [k2]) as [k2 ->].
  { destruct Hb as (_ & _ & _ & Hsnap).
    destruct news as [|k2 [|]]; try discriminate Hsnap. by exists k2. }
  fold c in Hd2.
  set (wd := exec (replaceWith c [k2]) wc) in *.
  assert (w2 = with_trace (trace wb ++ map (Trigger "replace:done")
                             (map root [k2])) wd) as Hw2.
  { subst w2. unfold exec at 1. rewrite (settle_run n _ p _ Hn).
    fold w1'. unfold p. by rewrite Hrun. }
  assert (doc w2 = fill pos [k2]) as Hd2' by (by rewrite Hw2).
  pose proof (Hselect k2 Hd2') as Hfound.
  (* the step back *)
  destruct (swap_in pos k2 [snapshot w0 k] w2 Hd2')
    as (news3 & w2a & Hh3 & Hb3 & Hd3 & Hnd3).
  { by rewrite Hd2'. }
  intros w3.
  assert (w3 = with_trace
                 (trace (exec (replaceWith (root k2) news3) w2a)
                    ++ map (Trigger "replace:always") (map root news3)
                    ++ map (Trigger "replace:done") (map root news3))
                 (exec (replaceWith (root k2) news3) w2a)) as Hw3.
  { subst w3. unfold exec at 1. unfold st.
    rewrite (on_popstate_run sel [snapshot w0 k] w2 w2a
               (exec (replaceWith (root k2) news3) w2a) news3
               (map root news3)); [done|done|].
    destruct Hb3 as (Hg3 & _).
    rewrite (selected_grows w2 w2a sel Hg3), Hfound. apply replaceAll_one. }
  rewrite Hw3. cbn [doc with_trace]. rewrite Hd3, Hdoc.
  apply snapshot_fill.
  - intros i Hi.
    transitivity (el w2a i); [done|].
    destruct Hb3 as (Hg3 & _), Hb as (Hg & _).
    rewrite (grows_el_used w2 w2a i Hg3).
    2:{ apply doc_in_used. rewrite Hd2'. by apply around_in_fill. }
    transitivity (el wc i); [by rewrite Hw2|].
    rewrite (grows_el_used wb wc i Hg); [apply Helb|].
    apply doc_in_used. rewrite Hdb. by apply around_in_fill.
  - destruct Hb3 as (_ & _ & _ & Hsnap).
    change (map (snapshot w0) [k]) with [snapshot w0 k]. rewrite <- Hsnap.
    apply map_ext. intros t. by apply snapshot_ext.
Qed.

Lemma back_restores_the_markup_witness :
  let f := Frag Page.container [Frag (blank "b") []] in
  let w1 := exec (on_click_link 3 Page.click) Page.idle in
  let w2 := exec (settle 0 (Success [f])) w1 in
  let st := mkHistState (Some (SelClass "container"))
                        (outer_markup Page.idle 2) in
  let w3 := exec (on_popstate (Some st)) w2 in
  map (snapshot w2) (doc w2) ≠ map (snapshot Page.idle) (doc Page.idle)
  /\ ReplaceState st ∈ effects_of (Settle 0 (Success [f])) w1
  /\ map (snapshot w3) (doc w3) = map (snapshot Page.idle) (doc Page.idle).
Proof.
  intros f w1 w2 st w3.
  split; [vm_compute; discriminate|].
  destruct (back_restores_the_markup Page.idle 3 Page.click
              (Below [] 1 (Here [] []) [])
              (Node 2 [Node 3 []; Node 4 [Node 5 []; Node 6 []]])
              (SelClass "container") f)
    as (st' & Hin & Hback).
  - reflexivity.
  - vm_compute. repeat (constructor; [set_solver|]). constructor.
  - reflexivity.
  - reflexivity.
  - rewrite marked_closest. intros H. by apply H.
  - reflexivity.
  - reflexivity.
  - intros k2 Hk2. vm_compute in Hk2. injection Hk2 as <-. reflexivity.
  - assert (st' = st) as ->; [|by split].
    vm_compute in Hin.
    apply elem_of_cons in Hin as [Hin|Hin]; [discriminate Hin|].
    apply elem_of_cons in Hin as [Hin|Hin]; [by injection Hin as ->|].
    apply elem_of_cons in Hin as [Hin|Hin]; [discriminate Hin|].
    apply elem_of_cons in Hin as [Hin|Hin]; [discriminate Hin|].
    by apply elem_of_nil in Hin.
Defined.
